(** * filesizedown: the image down-scaling page

    A shallow embedding of the React component [Home] of the page, in
    its revision with the width-scale buttons and the file-size check
    boxes: the two option tables, the scale arithmetic and the size
    estimate of [resizeImage], the intake handler [handleFileChange],
    the selection handler [handleFileSizeToggle], the generator
    [handleConvert], the exporters [handleDownload] and
    [handleDownloadAll], the preview [getScaledDimensions] and the
    text [formatFileSize] of a byte count.  The first revision of the
    page (src/app/page.tsx) has the same [resizeImage] and
    [formatFileSize]; its [handleFileChange], which converts at once,
    its [handleDownload] and its [handleDownloadAll] are modelled in
    [FirstRevision].

    JavaScript numbers are IEEE-754 binary64 values.  They are modelled
    by [spec_float] with [prec = 53] and [emax = 1024], the executable
    specification of binary64 that ships with the Standard Library, so
    every product, quotient and square root below is rounded exactly as
    the browser rounds it.

    The browser itself is outside the page.  What the page observes of
    it is taken from the standards: [Math.round], [Array.prototype.sort],
    [String.prototype.split] and [replace], and the shape of the text
    that [canvas.toDataURL] returns.  The image encoder, the file reader
    and the image decoder are parameters; the reader and the decoder
    are partial, since [reader.onload] and [img.onload] are not called
    for a file that cannot be read or an image that cannot be decoded.
    A handler is modelled as running to completion: the callbacks of
    the file reader and of the image decoder, where they are called,
    and the awaits of the generator, are taken at once.
    Beside the next state a handler returns what it did to the world
    outside its state cells, as a list of [Effect]s. *)

From Stdlib Require Import ZArith NArith List String Ascii Bool Lia.
From Stdlib Require Import DecimalString.
From Stdlib Require Import Permutation Sorted.
From Stdlib Require Import Floats.SpecFloat.
Import ListNotations.

Local Open Scope string_scope.
Local Open Scope Z_scope.

(** ** JavaScript numbers *)

Definition number : Type := spec_float.

Module Number.

Definition prec : Z := 53.
Definition emax : Z := 1024.

Definition t : Type := number.

(** An integer that enters a numeric expression (a pixel count, a
    string length, an integer literal). *)
Definition of_Z (n : Z) : t := binary_normalize prec emax n 0 false.

Definition mul : t -> t -> t := SFmul prec emax.
Definition div : t -> t -> t := SFdiv prec emax.
Definition sub : t -> t -> t := SFsub prec emax.
Definition sqrt : t -> t := SFsqrt prec emax.

(** A decimal literal [num/den] denotes the double nearest to it,
    which is what a correctly rounded division of the two integers
    yields: [0.92] is [decimal 92 100]. *)
Definition decimal (num den : Z) : t := div (of_Z num) (of_Z den).

(** [x === y], [x < y] and [x <= y] on numbers. *)
Definition strict_eq : t -> t -> bool := SFeqb.
Definition lt : t -> t -> bool := SFltb.
Definition le : t -> t -> bool := SFleb.

(** SameValueZero, the equality of [Array.prototype.includes]. *)
Definition same_value_zero (x y : t) : bool :=
  match x, y with
  | S754_nan, S754_nan => true
  | _, _ => SFeqb x y
  end.

(** The integer a number denotes, when it denotes one. *)
Definition to_Z (x : t) : option Z :=
  match x with
  | S754_zero _ => Some 0
  | S754_finite s m e =>
      if 0 <=? e then Some (cond_Zopp s (Zpos m * 2 ^ e))
      else if Zpos m mod 2 ^ (- e) =? 0
           then Some (cond_Zopp s (Zpos m / 2 ^ (- e)))
           else None
  | _ => None
  end.

(** [Math.round]: the integer nearest to [x], a tie going towards
    plus infinity, i.e. [floor (x + 1/2)] computed without rounding
    error; the sign of a zero result is the sign of [x]. *)
Definition round (x : t) : t :=
  match x with
  | S754_finite s m e =>
      if 0 <=? e then x
      else
        let k := - e in
        let n := Z.shiftr (cond_Zopp s (Zpos m) + Z.shiftl 1 (k - 1)) k in
        binary_normalize prec emax n 0 s
  | _ => x
  end.

(** ToUint32, applied when a number is stored in [canvas.width]; the
    model only needs to know when the stored size is zero. *)
Definition to_uint32 (x : t) : Z :=
  match x with
  | S754_finite s m e =>
      (cond_Zopp s (if 0 <=? e then Zpos m * 2 ^ e
                    else Z.quot (Zpos m) (2 ^ (- e)))) mod 2 ^ 32
  | _ => 0
  end.

End Number.

(** ** The option tables *)

Record WidthOption := { wo_value : number; wo_label : string }.

Record FileSizeOption :=
  { fo_value : number; fo_label : string; fo_ratio : string }.

Definition WIDTH_SCALE_OPTIONS : list WidthOption :=
  [ {| wo_value := Number.decimal 10 10; wo_label := "100%" |};
    {| wo_value := Number.decimal 9 10;  wo_label := "90%" |};
    {| wo_value := Number.decimal 8 10;  wo_label := "80%" |};
    {| wo_value := Number.decimal 7 10;  wo_label := "70%" |};
    {| wo_value := Number.decimal 5 10;  wo_label := "50%" |} ].

(** [1 / Math.sqrt(2)], [1 / 2] and [1 / Math.sqrt(8)]. *)
Definition inv_sqrt2 : number :=
  Number.div (Number.of_Z 1) (Number.sqrt (Number.of_Z 2)).
Definition one_half : number :=
  Number.div (Number.of_Z 1) (Number.of_Z 2).
Definition inv_sqrt8 : number :=
  Number.div (Number.of_Z 1) (Number.sqrt (Number.of_Z 8)).

Definition FILE_SIZE_OPTIONS : list FileSizeOption :=
  [ {| fo_value := inv_sqrt2; fo_label := "1/2"; fo_ratio := "1-2" |};
    {| fo_value := one_half;  fo_label := "1/4"; fo_ratio := "1-4" |};
    {| fo_value := inv_sqrt8; fo_label := "1/8"; fo_ratio := "1-8" |} ].

Definition width_scales : list number := map wo_value WIDTH_SCALE_OPTIONS.
Definition file_size_scales : list number := map fo_value FILE_SIZE_OPTIONS.

(** ** Strings *)

(** [s.startsWith(p)] is [String.prefix p s]; [s.length] on the ASCII
    text of a data URL: *)
Definition str_length (s : string) : Z := Z.of_nat (String.length s).

(** [s.split(sep)] for a one-character separator. *)
Fixpoint split_on (sep : ascii) (s : string) : list string :=
  match s with
  | EmptyString => [EmptyString]
  | String c s' =>
      if Ascii.eqb c sep then EmptyString :: split_on sep s'
      else match split_on sep s' with
           | [] => [String c EmptyString]
           | piece :: pieces => String c piece :: pieces
           end
  end.

(** The regular expression [/\.[^/.]+$/] matched at the head of [s]:
    a dot, then one or more characters that are neither a slash nor a
    dot, up to the end of the input. *)
Definition not_slash_or_dot (c : ascii) : bool :=
  negb (Ascii.eqb c "/" || Ascii.eqb c ".").

Fixpoint all_chars (p : ascii -> bool) (s : string) : bool :=
  match s with
  | EmptyString => true
  | String c s' => p c && all_chars p s'
  end.

Definition extension_at_head (s : string) : bool :=
  match s with
  | String "." (String c rest) =>
      not_slash_or_dot c && all_chars not_slash_or_dot rest
  | _ => false
  end.

(** [name.replace(/\.[^/.]+$/, "")]: the leftmost match is removed. *)
Fixpoint strip_extension (s : string) : string :=
  if extension_at_head s then EmptyString
  else match s with
       | EmptyString => EmptyString
       | String c s' => String c (strip_extension s')
       end.

(** ** The data URL of a canvas

    [canvas.toDataURL(type, quality)] is browser code.  Following the
    HTML standard it returns ["data:,"] for a canvas without pixels and
    otherwise ["data:<type>;base64,<text>"], where [<text>] is the
    RFC 4648 base64 encoding, padded with [=], of the file the image
    encoder wrote. *)

Definition base64_alphabet : list ascii :=
  list_ascii_of_string
    "ABCDEFGHIJKLMNOPQRSTUVWXYZabcdefghijklmnopqrstuvwxyz0123456789+/".

Definition sextet (n : N) : ascii :=
  nth (N.to_nat n) base64_alphabet "A"%char.

Local Open Scope N_scope.

(** Three bytes are 24 bits, read as four groups of six; a last group
    of one or two bytes is filled with zero bits and padded. *)
Definition sextet1 (a : N) : N := a / 4.
Definition sextet2 (a b : N) : N := (a mod 4) * 16 + b / 16.
Definition sextet3 (b c : N) : N := (b mod 16) * 4 + c / 64.
Definition sextet4 (c : N) : N := c mod 64.

Fixpoint base64_encode (bs : list Byte.byte) : string :=
  match bs with
  | [] => EmptyString
  | [a] =>
      let a := Byte.to_N a in
      String (sextet (sextet1 a)) (String (sextet (sextet2 a 0)) "==")
  | [a; b] =>
      let a := Byte.to_N a in
      let b := Byte.to_N b in
      String (sextet (sextet1 a)) (String (sextet (sextet2 a b))
        (String (sextet (sextet3 b 0)) "="))
  | a :: b :: c :: rest =>
      let a := Byte.to_N a in
      let b := Byte.to_N b in
      let c := Byte.to_N c in
      String (sextet (sextet1 a)) (String (sextet (sextet2 a b))
        (String (sextet (sextet3 b c)) (String (sextet (sextet4 c))
          (base64_encode rest))))
  end.

(** [atob]: the inverse, used to read the payload back from the text. *)
Fixpoint index_of (c : ascii) (l : list ascii) (i : N) : option N :=
  match l with
  | [] => None
  | x :: l' => if Ascii.eqb c x then Some i else index_of c l' (i + 1)
  end.

Definition unsextet (c : ascii) : option N := index_of c base64_alphabet 0.

Definition byte_of (n : N) : Byte.byte :=
  match Byte.of_N (n mod 256) with
  | Some b => b
  | None => Byte.x00
  end.

Definition octet1 (s1 s2 : N) : Byte.byte := byte_of (s1 * 4 + s2 / 16).
Definition octet2 (s2 s3 : N) : Byte.byte := byte_of ((s2 mod 16) * 16 + s3 / 4).
Definition octet3 (s3 s4 : N) : Byte.byte := byte_of ((s3 mod 4) * 64 + s4).

Fixpoint base64_decode (s : string) : option (list Byte.byte) :=
  match s with
  | EmptyString => Some []
  | String c1 (String c2 (String c3 (String c4 rest))) =>
      match unsextet c1, unsextet c2 with
      | Some s1, Some s2 =>
          if Ascii.eqb c3 "=" then
            if Ascii.eqb c4 "=" then
              match rest with
              | EmptyString => Some [octet1 s1 s2]
              | _ => None
              end
            else None
          else
            match unsextet c3 with
            | Some s3 =>
                if Ascii.eqb c4 "=" then
                  match rest with
                  | EmptyString => Some [octet1 s1 s2; octet2 s2 s3]
                  | _ => None
                  end
                else
                  match unsextet c4, base64_decode rest with
                  | Some s4, Some bytes =>
                      Some (octet1 s1 s2 :: octet2 s2 s3 :: octet3 s3 s4
                              :: bytes)
                  | _, _ => None
                  end
            | None => None
            end
      | _, _ => None
      end
  | _ => None
  end.

Local Close Scope N_scope.

(** ** Data of the component *)

(** What the page reads from a decoded [HTMLImageElement]; [width] and
    [height] are integers ([unsigned long] in the DOM). *)
Record HTMLImageElement :=
  { img_src : string; img_width : Z; img_height : Z }.

(** What the page reads from a [File]. *)
Record File := { file_name : string; file_type : string; file_size : Z }.

Record OriginalInfo :=
  { info_name : string;
    info_width : Z;
    info_height : Z;
    info_fileSize : Z;
    info_type : string }.

(** The value [resizeImage] resolves with. *)
Record Resized :=
  { r_dataUrl : string; r_width : number; r_height : number;
    r_fileSize : number }.

Record ResizedImage :=
  { id : string;
    label : string;
    dataUrl : string;
    width : number;
    height : number;
    fileSize : number }.

(** The [useState] cells of [Home]. *)
Record State :=
  { originalImage : option string;
    originalInfo : option OriginalInfo;
    resizedImages : list ResizedImage;
    isProcessing : bool;
    selectedWidthScale : number;
    selectedFileSizeScales : list number;
    loadedImage : option HTMLImageElement }.

Definition initialState : State :=
  {| originalImage := None;
     originalInfo := None;
     resizedImages := [];
     isProcessing := false;
     selectedWidthScale := Number.decimal 10 10;
     selectedFileSizeScales := [inv_sqrt2; one_half; inv_sqrt8];
     loadedImage := None |}.

(** What a handler does to the world outside the state cells. *)
Inductive Effect :=
| Alert (message : string)
| ReadAsDataURL (file : File)
| DrawImage (img : HTMLImageElement) (w h : number)
| ToDataURL (mimeType : string) (quality : option number)
| Download (href fileName : string).

(** ** [Array.prototype.sort] with a comparison function

    The result of [sort] is fixed by the comparison function whenever
    that function is a consistent order.  It is modelled by a stable
    insertion sort: [x] moves behind [y] exactly when [comparefn(x, y)]
    is positive (a NaN result counts as [+0]). *)

Definition comparison_positive (v : number) : bool :=
  Number.lt (S754_zero false) v.

Fixpoint sort_insert (comparefn : number -> number -> number)
         (x : number) (l : list number) : list number :=
  match l with
  | [] => [x]
  | y :: l' =>
      if comparison_positive (comparefn x y)
      then y :: sort_insert comparefn x l'
      else x :: l
  end.

Fixpoint array_sort (comparefn : number -> number -> number)
         (l : list number) : list number :=
  match l with
  | [] => []
  | x :: l' => sort_insert comparefn x (array_sort comparefn l')
  end.

(** [(a, b) => b - a] *)
Definition descending (a b : number) : number := Number.sub b a.

(** ** The component *)

Section Home.

(** The browser's image encoder behind [canvas.toDataURL]: the bytes
    of the file it writes for [img] drawn at [w] by [h] pixels. *)
Variable encoder :
  HTMLImageElement -> Z -> Z -> string -> option number -> list Byte.byte.

(** [FileReader.readAsDataURL] and the decoding of an [Image]: the
    data URL handed to [reader.onload] and the width and height the
    image has in [img.onload]; [None] when the callback is never
    called. *)
Variable readAsDataURL : File -> option string.
Variable decodeImage : string -> option (Z * Z).

Definition canvas_toDataURL (img : HTMLImageElement) (w h : number)
           (mimeType : string) (quality : option number) : string :=
  let cw := Number.to_uint32 w in
  let ch := Number.to_uint32 h in
  if (cw =? 0) || (ch =? 0) then "data:,"
  else ("data:" ++ mimeType ++ ";base64,"
          ++ base64_encode (encoder img cw ch mimeType quality))%string.

Definition output_mimeType (originalType : string) : string :=
  if String.eqb originalType "image/png" then "image/png" else "image/jpeg".

Definition output_quality (mimeType : string) : option number :=
  if String.eqb mimeType "image/jpeg"
  then Some (Number.decimal 92 100) else None.

(** [Math.round((base64.length * 3) / 4)] *)
Definition estimate_fileSize (base64 : string) : number :=
  Number.round
    (Number.div (Number.mul (Number.of_Z (str_length base64)) (Number.of_Z 3))
                (Number.of_Z 4)).

(** [resizeImage]: the resolved value, or [None] when
    [dataUrl.split(",")[1]] is undefined and [.length] throws. *)
Definition resizeImage (img : HTMLImageElement) (scale : number)
           (originalType : string) : option Resized * list Effect :=
  let newWidth :=
    Number.round (Number.mul (Number.of_Z (img_width img)) scale) in
  let newHeight :=
    Number.round (Number.mul (Number.of_Z (img_height img)) scale) in
  let mimeType := output_mimeType originalType in
  let quality := output_quality mimeType in
  let url := canvas_toDataURL img newWidth newHeight mimeType quality in
  let effects :=
    [DrawImage img newWidth newHeight; ToDataURL mimeType quality] in
  match nth_error (split_on "," url) 1 with
  | Some base64 =>
      (Some {| r_dataUrl := url; r_width := newWidth;
               r_height := newHeight;
               r_fileSize := estimate_fileSize base64 |}, effects)
  | None => (None, effects)
  end.

Definition handleFileChange (st : State) (file : option File)
  : State * list Effect :=
  match file with
  | None => (st, [])
  | Some f =>
      if negb (String.prefix "image/" (file_type f)) then
        (st, [Alert "画像ファイルを選択してください"])
      else
        match readAsDataURL f with
        | None =>
            (* [setResizedImages([])] only *)
            ({| originalImage := originalImage st;
                originalInfo := originalInfo st;
                resizedImages := [];
                isProcessing := isProcessing st;
                selectedWidthScale := selectedWidthScale st;
                selectedFileSizeScales := selectedFileSizeScales st;
                loadedImage := loadedImage st |},
             [ReadAsDataURL f])
        | Some url =>
            match decodeImage url with
            | None =>
                (* [reader.onload] ran, [img.onload] did not *)
                ({| originalImage := Some url;
                    originalInfo := originalInfo st;
                    resizedImages := [];
                    isProcessing := isProcessing st;
                    selectedWidthScale := selectedWidthScale st;
                    selectedFileSizeScales := selectedFileSizeScales st;
                    loadedImage := loadedImage st |},
                 [ReadAsDataURL f])
            | Some (w, h) =>
                ({| originalImage := Some url;
                    originalInfo :=
                      Some {| info_name := file_name f; info_width := w;
                              info_height := h; info_fileSize := file_size f;
                              info_type := file_type f |};
                    resizedImages := [];
                    isProcessing := isProcessing st;
                    selectedWidthScale := selectedWidthScale st;
                    selectedFileSizeScales := selectedFileSizeScales st;
                    loadedImage :=
                      Some {| img_src := url; img_width := w;
                              img_height := h |} |},
                 [ReadAsDataURL f])
            end
        end
  end.

Definition toggle (scale : number) (prev : list number) : list number :=
  if existsb (fun s => Number.same_value_zero s scale) prev
  then filter (fun s => negb (Number.strict_eq s scale)) prev
  else array_sort descending (prev ++ [scale])%list.

Definition handleFileSizeToggle (st : State) (scale : number) : State :=
  {| originalImage := originalImage st;
     originalInfo := originalInfo st;
     resizedImages := resizedImages st;
     isProcessing := isProcessing st;
     selectedWidthScale := selectedWidthScale st;
     selectedFileSizeScales := toggle scale (selectedFileSizeScales st);
     loadedImage := loadedImage st |}.

Definition setSelectedWidthScale (st : State) (scale : number) : State :=
  {| originalImage := originalImage st;
     originalInfo := originalInfo st;
     resizedImages := resizedImages st;
     isProcessing := isProcessing st;
     selectedWidthScale := scale;
     selectedFileSizeScales := selectedFileSizeScales st;
     loadedImage := loadedImage st |}.

(** [`${widthOption?.label}`] *)
Definition optional_label (widthOption : option WidthOption) : string :=
  match widthOption with
  | Some o => wo_label o
  | None => "undefined"
  end.

Definition find_fileSizeOption (fileSizeScale : number)
  : option FileSizeOption :=
  find (fun o => Number.strict_eq (fo_value o) fileSizeScale)
       FILE_SIZE_OPTIONS.

Definition find_widthOption (widthScale : number) : option WidthOption :=
  find (fun o => Number.strict_eq (wo_value o) widthScale)
       WIDTH_SCALE_OPTIONS.

(** One pass of the body of the [for ... of] loop of [handleConvert],
    for an option that was found. *)
Definition variant (widthOption : option WidthOption)
           (fileSizeOption : FileSizeOption) (result : Resized)
  : ResizedImage :=
  {| id := (optional_label widthOption ++ "-" ++ fo_ratio fileSizeOption)%string;
     label := ("横" ++ optional_label widthOption ++ " × ファイル"
                   ++ fo_label fileSizeOption)%string;
     dataUrl := r_dataUrl result;
     width := r_width result;
     height := r_height result;
     fileSize := r_fileSize result |}.

(** The loop: [results] accumulates by [push]; [None] when an
    iteration throws. *)
Fixpoint convert_loop (img : HTMLImageElement) (info : OriginalInfo)
         (widthScale : number) (widthOption : option WidthOption)
         (scales : list number) (results : list ResizedImage)
  : option (list ResizedImage) * list Effect :=
  match scales with
  | [] => (Some results, [])
  | fileSizeScale :: rest =>
      match find_fileSizeOption fileSizeScale with
      | None => convert_loop img info widthScale widthOption rest results
      | Some fileSizeOption =>
          let combinedScale := Number.mul widthScale fileSizeScale in
          match resizeImage img combinedScale (info_type info) with
          | (Some result, effects) =>
              let '(final, later) :=
                convert_loop img info widthScale widthOption rest
                  (results ++ [variant widthOption fileSizeOption result])%list in
              (final, (effects ++ later)%list)
          | (None, effects) => (None, effects)
          end
      end
  end.

(** [handleConvert].  The array held in [selectedFileSizeScales] is
    sorted in place by the loop header, so the state cell holds the
    sorted array afterwards. *)
Definition handleConvert (st : State) : State * list Effect :=
  match loadedImage st, originalInfo st with
  | Some img, Some info =>
      if (List.length (selectedFileSizeScales st) =? 0)%nat then (st, [])
      else
        let widthOption := find_widthOption (selectedWidthScale st) in
        let sorted := array_sort descending (selectedFileSizeScales st) in
        match convert_loop img info (selectedWidthScale st) widthOption
                           sorted [] with
        | (Some results, effects) =>
            ({| originalImage := originalImage st;
                originalInfo := originalInfo st;
                resizedImages := results;
                isProcessing := false;
                selectedWidthScale := selectedWidthScale st;
                selectedFileSizeScales := sorted;
                loadedImage := loadedImage st |}, effects)
        | (None, effects) =>
            ({| originalImage := originalImage st;
                originalInfo := originalInfo st;
                resizedImages := [];
                isProcessing := true;
                selectedWidthScale := selectedWidthScale st;
                selectedFileSizeScales := sorted;
                loadedImage := loadedImage st |}, effects)
        end
  | _, _ => (st, [])
  end.

Definition download_fileName (info : OriginalInfo) (id : string) : string :=
  let extension :=
    if String.eqb (info_type info) "image/png" then "png" else "jpg" in
  let baseName := strip_extension (info_name info) in
  (baseName ++ "_" ++ id ++ "." ++ extension)%string.

Definition handleDownload (st : State) (dataUrl id : string) : list Effect :=
  match originalInfo st with
  | None => []
  | Some info => [Download dataUrl (download_fileName info id)]
  end.

Definition handleDownloadAll (st : State) : list Effect :=
  flat_map (fun img => handleDownload st (dataUrl img) (id img))
           (resizedImages st).

(** [getScaledDimensions] *)
Definition getScaledDimensions (st : State) (widthScale fileSizeScale : number)
  : number * number :=
  match originalInfo st with
  | None => (Number.of_Z 0, Number.of_Z 0)
  | Some info =>
      let combinedScale := Number.mul widthScale fileSizeScale in
      (Number.round (Number.mul (Number.of_Z (info_width info)) combinedScale),
       Number.round (Number.mul (Number.of_Z (info_height info)) combinedScale))
  end.

(** *** The handlers in closed form

    [canvas.toDataURL] always returns a text with a comma in it, so
    [resizeImage] always resolves; the definitions below say with
    what, and the lemmas of the second part prove it. *)

(** The file behind the data URL: nothing for a canvas without
    pixels, the encoder's output otherwise. *)
Definition encoded_payload (img : HTMLImageElement) (w h : number)
           (mimeType : string) (quality : option number) : list Byte.byte :=
  let cw := Number.to_uint32 w in
  let ch := Number.to_uint32 h in
  if (cw =? 0) || (ch =? 0) then []
  else encoder img cw ch mimeType quality.

Definition scaled_width (img : HTMLImageElement) (scale : number) : number :=
  Number.round (Number.mul (Number.of_Z (img_width img)) scale).

Definition scaled_height (img : HTMLImageElement) (scale : number) : number :=
  Number.round (Number.mul (Number.of_Z (img_height img)) scale).

Definition variant_payload (img : HTMLImageElement) (scale : number)
           (originalType : string) : list Byte.byte :=
  encoded_payload img (scaled_width img scale) (scaled_height img scale)
    (output_mimeType originalType)
    (output_quality (output_mimeType originalType)).

Definition resized (img : HTMLImageElement) (scale : number)
           (originalType : string) : Resized :=
  {| r_dataUrl :=
       canvas_toDataURL img (scaled_width img scale) (scaled_height img scale)
         (output_mimeType originalType)
         (output_quality (output_mimeType originalType));
     r_width := scaled_width img scale;
     r_height := scaled_height img scale;
     r_fileSize :=
       estimate_fileSize
         (base64_encode (variant_payload img scale originalType)) |}.

Definition canvas_effects (img : HTMLImageElement) (scale : number)
           (originalType : string) : list Effect :=
  [ DrawImage img (scaled_width img scale) (scaled_height img scale);
    ToDataURL (output_mimeType originalType)
              (output_quality (output_mimeType originalType)) ].

(** What one pass of the loop pushes and does for [fileSizeScale]. *)
Definition variants_of (img : HTMLImageElement) (info : OriginalInfo)
           (widthScale : number) (fileSizeScale : number)
  : list ResizedImage :=
  match find_fileSizeOption fileSizeScale with
  | None => []
  | Some fileSizeOption =>
      [ variant (find_widthOption widthScale) fileSizeOption
          (resized img (Number.mul widthScale fileSizeScale)
                   (info_type info)) ]
  end.

Definition effects_of (img : HTMLImageElement) (info : OriginalInfo)
           (widthScale : number) (fileSizeScale : number) : list Effect :=
  match find_fileSizeOption fileSizeScale with
  | None => []
  | Some _ =>
      canvas_effects img (Number.mul widthScale fileSizeScale)
                     (info_type info)
  end.

(** *** What the rendered page lets the user do

    The width buttons and the file-size check boxes are rendered by
    mapping over the two option tables, so the handlers only ever
    receive values of those tables.  (The page renders them only
    once an image is loaded and disables the convert button while a
    run is in progress; leaving that out only adds states.) *)

Inductive Event :=
| ChooseFile (file : option File)
| ClickWidth (option : WidthOption)
| ToggleFileSize (option : FileSizeOption)
| ClickConvert.

Definition rendered (ev : Event) : Prop :=
  match ev with
  | ClickWidth o => In o WIDTH_SCALE_OPTIONS
  | ToggleFileSize o => In o FILE_SIZE_OPTIONS
  | _ => True
  end.

Definition step (st : State) (ev : Event) : State :=
  match ev with
  | ChooseFile file => fst (handleFileChange st file)
  | ClickWidth o => setSelectedWidthScale st (wo_value o)
  | ToggleFileSize o => handleFileSizeToggle st (fo_value o)
  | ClickConvert => fst (handleConvert st)
  end.

Inductive reachable : State -> Prop :=
| reachable_initial : reachable initialState
| reachable_step st ev :
    reachable st -> rendered ev -> reachable (step st ev).

End Home.

(** ** The size shown for a byte count *)

(** Numbers as text: [Number::toString] and
    [Number.prototype.toFixed]. *)
Module NumberText.

(** The decimal digits of a natural number. *)
Definition decimal (n : Z) : string :=
  NilZero.string_of_uint (N.to_uint (Z.to_N n)).

Fixpoint zeros (k : nat) : string :=
  match k with
  | O => EmptyString
  | S k' => String "0" (zeros k')
  end.

(** The digits of [n] with a point before the last [f] of them, zeros
    being put in front when [n] has at most [f] digits. *)
Definition fixed_digits (f : nat) (n : Z) : string :=
  let m := decimal n in
  let k := String.length m in
  let m := if (k <=? f)%nat then zeros (f + 1 - k) ++ m else m in
  let k := String.length m in
  match f with
  | O => m
  | _ => substring 0 (k - f) m ++ "." ++ substring (k - f) f m
  end.

(** [Number::toString] where it prints an integer: zeros, and integers
    of magnitude below 10^21; [None] stands for the other numbers,
    whose text is not modelled. *)
Definition toString (x : number) : option string :=
  match x with
  | S754_nan => Some "NaN"
  | S754_infinity false => Some "Infinity"
  | S754_infinity true => Some "-Infinity"
  | S754_zero _ => Some "0"
  | S754_finite s _ _ =>
      match Number.to_Z x with
      | Some n =>
          if Z.abs n <? 10 ^ 21
          then Some ((if s then "-" else "") ++ decimal (Z.abs n))
          else None
      | None => None
      end
  end.

(** [Number.prototype.toFixed] with [f] fraction digits: the integer
    [n] for which [n / 10^f] is nearest to the magnitude of [x], the
    larger one of two, printed with a point.  A magnitude of 10^21 or
    more falls back on [Number::toString] and is not modelled. *)
Definition toFixed (x : number) (f : nat) : option string :=
  match x with
  | S754_nan => Some "NaN"
  | S754_infinity false => Some "Infinity"
  | S754_infinity true => Some "-Infinity"
  | S754_zero _ => Some (fixed_digits f 0)
  | S754_finite s m e =>
      let scale := 10 ^ Z.of_nat f in
      if 0 <=? e then
        if 10 ^ 21 <=? Zpos m * 2 ^ e then None
        else Some ((if s then "-" else "")
                     ++ fixed_digits f (Zpos m * 2 ^ e * scale))
      else
        let k := - e in
        if 10 ^ 21 * 2 ^ k <=? Zpos m then None
        else Some ((if s then "-" else "")
                     ++ fixed_digits f ((2 * Zpos m * scale + 2 ^ k)
                                          / 2 ^ (k + 1)))
  end.

End NumberText.

(** [formatFileSize]; [None] where the text of the number is not
    modelled. *)
Definition formatFileSize (bytes : number) : option string :=
  if Number.lt bytes (Number.of_Z 1024) then
    option_map (fun s => s ++ " B") (NumberText.toString bytes)
  else if Number.lt bytes (Number.mul (Number.of_Z 1024) (Number.of_Z 1024))
  then
    option_map (fun s => s ++ " KB")
      (NumberText.toFixed (Number.div bytes (Number.of_Z 1024)) 1)
  else
    option_map (fun s => s ++ " MB")
      (NumberText.toFixed
         (Number.div bytes (Number.mul (Number.of_Z 1024) (Number.of_Z 1024)))
         2).


(** ** Notions used in the statements *)

(** The canonical 53-bit mantissa of a positive integer below 2^53. *)
Definition mantissa_of (n : positive) : positive :=
  Z.to_pos (Zpos n * 2 ^ (53 - Zpos (digits2_pos n))).

(** A scale that keeps every image of at least three pixels visible: a
    positive normal number, not above one, whose triple is at least one
    half. *)
Definition keeps_three_pixels (c : number) : bool :=
  match c with
  | S754_finite false M E =>
      (Zpos (digits2_pos M) =? 53) && (E <=? 0) && (2 ^ (- E) <=? 6 * Zpos M)
  | _ => false
  end.

(** [n] is the integer nearest to the finite number [x], a tie going to
    the larger one: [n - 1/2 <= x < n + 1/2]. *)
Definition nearest_integer (n : Z) (x : number) : Prop :=
  match x with
  | S754_zero _ => n = 0
  | S754_finite s m e =>
      if 0 <=? e then n = cond_Zopp s (Zpos m * 2 ^ e)
      else (2 * n - 1) * 2 ^ (- e) <= 2 * cond_Zopp s (Zpos m)
                                   < (2 * n + 1) * 2 ^ (- e)
  | _ => False
  end.

Definition not_comma (c : ascii) : bool := negb (Ascii.eqb c ",").

(** The place of a scale in [FILE_SIZE_OPTIONS], which lists the scales
    from the largest to the smallest. *)
Fixpoint position (x : number) (l : list number) : nat :=
  match l with
  | [] => 0
  | y :: l' => if Number.strict_eq y x then 0 else S (position x l')
  end.

Definition rank (x : number) : nat := position x file_size_scales.

Definition by_rank (x y : number) : Prop := (rank x < rank y)%nat.

(** A selection as the toggles keep it: ordered as [FILE_SIZE_OPTIONS]
    is and drawn from it. *)
Definition selection_ok (l : list number) : Prop :=
  StronglySorted by_rank l /\ incl l file_size_scales.

(** A run of [handleFileSizeToggle] calls. *)
Definition toggles (scales : list number) (st : State) : State :=
  fold_left handleFileSizeToggle scales st.

Definition strictly_descending (l : list number) : Prop :=
  StronglySorted (fun a b => Number.lt b a = true) l.

(** The text after the comma of a data URL and the bytes it encodes. *)
Definition payload_of_dataUrl (url : string) : option (list Byte.byte) :=
  match nth_error (split_on "," url) 1 with
  | Some text => base64_decode text
  | None => None
  end.

(** ** Notions used in the statements of the claims *)



(** The canvas of a variant has no pixels. *)
Definition blank (v : ResizedImage) : Prop :=
  Number.to_uint32 (width v) = 0 \/ Number.to_uint32 (height v) = 0.


Definition combined_scales : list number :=
  flat_map (fun w => map (Number.mul w) file_size_scales) width_scales.

(** A scale in the interval (0, 1]. *)
Definition in_unit_interval (c : number) : bool :=
  Number.lt (S754_zero false) c && Number.le c (Number.of_Z 1).

(** A variant made from [img] with scales of the two tables. *)
Definition variant_from (img : HTMLImageElement) (v : ResizedImage) : Prop :=
  exists w f,
    In w width_scales /\ In f file_size_scales
    /\ width v = scaled_width img (Number.mul w f)
    /\ height v = scaled_height img (Number.mul w f).

(** [v] is the variant of the file-size-scale [f]. *)
Definition variant_for
           (encoder : HTMLImageElement -> Z -> Z -> string -> option number
                      -> list Byte.byte)
           (img : HTMLImageElement) (info : OriginalInfo) (widthScale : number)
           (f : number) (v : ResizedImage) : Prop :=
  exists fo,
    In fo FILE_SIZE_OPTIONS /\ fo_value fo = f
    /\ v = variant (find_widthOption widthScale) fo
                   (resized encoder img (Number.mul widthScale f)
                            (info_type info)).

Definition same_members (l1 l2 : list number) : Prop :=
  forall x, In x l1 <-> In x l2.

(** C2 as the specification words it: the estimate is the byte count of
    the payload that the text of the data URL decodes to. *)
Definition fileSize_is_payload_length (v : ResizedImage) : Prop :=
  exists bytes,
    payload_of_dataUrl (dataUrl v) = Some bytes
    /\ Number.to_Z (fileSize v) = Some (Z.of_nat (List.length bytes)).

Definition extension_of (info : OriginalInfo) : string :=
  if String.eqb (info_type info) "image/png" then "png" else "jpg".


(** The state once a 1000 by 800 image has been loaded, at 100% width
    and with the three file sizes selected. *)
Definition loaded_1000x800 (src name type : string) (size : Z) : State :=
  {| originalImage := Some src;
     originalInfo :=
       Some {| info_name := name; info_width := 1000; info_height := 800;
               info_fileSize := size; info_type := type |};
     resizedImages := [];
     isProcessing := false;
     selectedWidthScale := Number.decimal 10 10;
     selectedFileSizeScales := [inv_sqrt2; one_half; inv_sqrt8];
     loadedImage :=
       Some {| img_src := src; img_width := 1000; img_height := 800 |} |}.

(** ** The first revision of the page (src/app/page.tsx)

    It generates the three variants as soon as a file is chosen and
    names a download after the [ratio] field of the variant. *)

Module FirstRevision.

Record ResizedImage :=
  { ratio : string;
    label : string;
    dataUrl : string;
    width : number;
    height : number;
    fileSize : number }.

(** [ratio.replace("/", "-")]: the first slash becomes a hyphen. *)
Fixpoint replace_slash (s : string) : string :=
  match s with
  | EmptyString => EmptyString
  | String c s' =>
      if Ascii.eqb c "/" then String "-" s' else String c (replace_slash s')
  end.

Definition handleDownload (originalInfo : option OriginalInfo)
           (dataUrl ratio : string) : list Effect :=
  match originalInfo with
  | None => []
  | Some info =>
      let extension :=
        if String.eqb (info_type info) "image/png" then "png" else "jpg" in
      let baseName := strip_extension (info_name info) in
      [ Download dataUrl
          (baseName ++ "_" ++ replace_slash ratio ++ "." ++ extension) ]
  end.

(** The [useState] cells of the first revision. *)
Record State :=
  { originalImage : option string;
    originalInfo : option OriginalInfo;
    resizedImages : list ResizedImage;
    isProcessing : bool }.

Record Scale := { s_ratio : string; s_scale : number; s_label : string }.

Definition scales : list Scale :=
  [ {| s_ratio := "1/2"; s_scale := inv_sqrt2; s_label := "1/2サイズ" |};
    {| s_ratio := "1/4"; s_scale := one_half;  s_label := "1/4サイズ" |};
    {| s_ratio := "1/8"; s_scale := inv_sqrt8; s_label := "1/8サイズ" |} ].

Section Home.

Variable encoder :
  HTMLImageElement -> Z -> Z -> string -> option number -> list Byte.byte.
Variable readAsDataURL : File -> option string.
Variable decodeImage : string -> option (Z * Z).

(** The loop of [img.onload]: [results] accumulates by [push]; [None]
    when an iteration throws. *)
Fixpoint generate (img : HTMLImageElement) (type : string)
         (todo : list Scale) (results : list ResizedImage)
  : option (list ResizedImage) * list Effect :=
  match todo with
  | [] => (Some results, [])
  | s :: rest =>
      match resizeImage encoder img (s_scale s) type with
      | (Some result, effects) =>
          let '(final, later) :=
            generate img type rest
              (results ++ [ {| ratio := s_ratio s;
                               label := s_label s;
                               dataUrl := r_dataUrl result;
                               width := r_width result;
                               height := r_height result;
                               fileSize := r_fileSize result |} ])%list in
          (final, (effects ++ later)%list)
      | (None, effects) => (None, effects)
      end
  end.

(** [handleFileChange]: the page turns busy and clears its variants;
    the file is converted in [img.onload], which alone ends the busy
    state. *)
Definition handleFileChange (st : State) (file : option File)
  : State * list Effect :=
  match file with
  | None => (st, [])
  | Some f =>
      if negb (String.prefix "image/" (file_type f)) then
        (st, [Alert "画像ファイルを選択してください"])
      else
        match readAsDataURL f with
        | None =>
            ({| originalImage := originalImage st;
                originalInfo := originalInfo st;
                resizedImages := [];
                isProcessing := true |},
             [ReadAsDataURL f])
        | Some url =>
            match decodeImage url with
            | None =>
                ({| originalImage := Some url;
                    originalInfo := originalInfo st;
                    resizedImages := [];
                    isProcessing := true |},
                 [ReadAsDataURL f])
            | Some (w, h) =>
                let img :=
                  {| img_src := url; img_width := w; img_height := h |} in
                let info :=
                  {| info_name := file_name f; info_width := w;
                     info_height := h; info_fileSize := file_size f;
                     info_type := file_type f |} in
                match generate img (file_type f) scales [] with
                | (Some results, effects) =>
                    ({| originalImage := Some url;
                        originalInfo := Some info;
                        resizedImages := results;
                        isProcessing := false |},
                     (ReadAsDataURL f :: effects)%list)
                | (None, effects) =>
                    ({| originalImage := Some url;
                        originalInfo := Some info;
                        resizedImages := [];
                        isProcessing := true |},
                     (ReadAsDataURL f :: effects)%list)
                end
            end
        end
  end.

Definition handleDownloadAll (st : State) : list Effect :=
  flat_map (fun img => handleDownload (originalInfo st) (dataUrl img) (ratio img))
           (resizedImages st).

End Home.

End FirstRevision.

(** ** Notions used in the further properties *)

(** The text of a byte count in exact arithmetic. *)
Definition size_text (b : Z) : string :=
  if b <? 1024 then NumberText.decimal b ++ " B"
  else if b <? 1048576
       then NumberText.fixed_digits 1 ((10 * b + 512) / 1024) ++ " KB"
       else NumberText.fixed_digits 2 ((100 * b + 524288) / 1048576) ++ " MB".

(** The file behind the page.  [originalInfo] and [loadedImage] are
    set together, in [img.onload]: they are empty together, with
    nothing on display, or describe one decoded image file, and then
    [originalImage] is set as well.  ([originalImage] is set earlier,
    in [reader.onload], so after a file that could not be decoded it
    holds the data URL of that file, not of the loaded image.) *)
Definition file_cells_agree (st : State) : Prop :=
  match originalInfo st, loadedImage st with
  | None, None => resizedImages st = []
  | Some info, Some img =>
      originalImage st <> None
      /\ info_width info = img_width img
      /\ info_height info = img_height img
      /\ String.prefix "image/" (info_type info) = true
  | _, _ => False
  end.

(** The download that [handleDownload] issues for a variant. *)
Definition download_of (info : OriginalInfo) (v : ResizedImage) : Effect :=
  Download (dataUrl v) (download_fileName info (id v)).

(** [checked={selectedFileSizeScales.includes(option.value)}] *)
Definition is_checked (st : State) (o : FileSizeOption) : bool :=
  existsb (fun s => Number.same_value_zero s (fo_value o))
          (selectedFileSizeScales st).


(** A positive normal number that is not above one. *)
Definition at_most_one (c : number) : bool :=
  match c with
  | S754_finite false M E =>
      (Zpos (digits2_pos M) =? 53) && (E <=? 0) && (Zpos M <=? 2 ^ (- E))
  | _ => false
  end.

(** [c2] is at most four fifths of [c1]. *)
Definition well_below (c2 c1 : number) : bool :=
  match c1, c2 with
  | S754_finite false M1 E1, S754_finite false M2 E2 =>
      5 * (Zpos M2 * 2 ^ (E2 + 56)) <=? 4 * (Zpos M1 * 2 ^ (E1 + 56))
  | _, _ => false
  end.

(** [v2] is no wider and no higher than [v1], in whole pixels. *)
Definition no_larger (v2 v1 : ResizedImage) : Prop :=
  exists w1 h1 w2 h2,
    Number.to_Z (width v1) = Some w1 /\ Number.to_Z (height v1) = Some h1
    /\ Number.to_Z (width v2) = Some w2 /\ Number.to_Z (height v2) = Some h2
    /\ w2 <= w1 /\ h2 <= h1.

(** A variant of the first revision and a variant of the current one
    hold the same image. *)
Definition same_image (old : FirstRevision.ResizedImage) (new : ResizedImage)
  : Prop :=
  FirstRevision.dataUrl old = dataUrl new
  /\ FirstRevision.width old = width new
  /\ FirstRevision.height old = height new
  /\ FirstRevision.fileSize old = fileSize new
  /\ id new = "100%-" ++ FirstRevision.replace_slash (FirstRevision.ratio old).

(** What the first revision pushes for one entry of [scales]. *)
Definition first_revision_variant
           (encoder : HTMLImageElement -> Z -> Z -> string -> option number
                      -> list Byte.byte)
           (img : HTMLImageElement) (type : string) (s : FirstRevision.Scale)
  : FirstRevision.ResizedImage :=
  let result := resized encoder img (FirstRevision.s_scale s) type in
  {| FirstRevision.ratio := FirstRevision.s_ratio s;
     FirstRevision.label := FirstRevision.s_label s;
     FirstRevision.dataUrl := r_dataUrl result;
     FirstRevision.width := r_width result;
     FirstRevision.height := r_height result;
     FirstRevision.fileSize := r_fileSize result |}.

(** A state of the current page as it starts: full width and the three
    file sizes selected. *)
Definition default_choice (st : State) : Prop :=
  selectedWidthScale st = Number.decimal 10 10
  /\ selectedFileSizeScales st = [inv_sqrt2; one_half; inv_sqrt8].

(** ** An example session

    A 3 by 3 pixel PNG is chosen, the check boxes 1/2 and 1/4 are
    cleared, and the browser encodes the one-pixel variant as a 68-byte
    PNG. *)

Definition example_text : string :=
  "iVBORw0KGgoAAAANSUhEUgAAAAEAAAABCAYAAAAfFcSJAAAAC0lEQVQYV2NgAAIAAAUAAarVyFEAAAAASUVORK5CYII=".

Definition example_payload : list Byte.byte :=
  match base64_decode example_text with
  | Some bytes => bytes
  | None => []
  end.

Definition example_encoder (_ : HTMLImageElement) (_ _ : Z) (_ : string)
           (_ : option number) : list Byte.byte := example_payload.

Definition example_file : File :=
  {| file_name := "dot.png"; file_type := "image/png"; file_size := 75 |}.

Definition example_reader (_ : File) : option string :=
  Some "data:image/png;base64,AAAA".
Definition example_decoder (_ : string) : option (Z * Z) := Some (3, 3).

Definition example_events : list Event :=
  [ ChooseFile (Some example_file);
    ToggleFileSize {| fo_value := inv_sqrt2; fo_label := "1/2"; fo_ratio := "1-2" |};
    ToggleFileSize {| fo_value := one_half;  fo_label := "1/4"; fo_ratio := "1-4" |} ].

Definition example_state : State :=
  fold_left (step example_encoder example_reader example_decoder)
            example_events initialState.

Definition example_image : HTMLImageElement :=
  {| img_src := "data:image/png;base64,AAAA"; img_width := 3; img_height := 3 |}.

Definition example_info : OriginalInfo :=
  {| info_name := "dot.png"; info_width := 3; info_height := 3;
     info_fileSize := 75; info_type := "image/png" |}.

Definition example_cleared_state : State :=
  handleFileSizeToggle example_state inv_sqrt8.

Definition example_text_file : File :=
  {| file_name := "notes.txt"; file_type := "text/plain"; file_size := 12 |}.

Definition example_full_state : State :=
  fst (handleFileChange example_reader example_decoder initialState
                        (Some example_file)).

Definition example_converted_state : State :=
  fold_left (step example_encoder example_reader example_decoder)
            (example_events ++ [ClickConvert]) initialState.

Definition example_resized : ResizedImage :=
  {| id := "100%-1-8";
     label := "横100% × ファイル1/8";
     dataUrl := "data:image/png;base64," ++ example_text;
     width := Number.of_Z 1;
     height := Number.of_Z 1;
     fileSize := Number.of_Z 69 |}.

(** A one-pixel image with the file size 1/8 selected, and the
    first revision before a file is chosen. *)

Definition example_dot_state : State :=
  {| originalImage := Some "data:image/png;base64,AAAA";
     originalInfo :=
       Some {| info_name := "dot.png"; info_width := 1; info_height := 1;
               info_fileSize := 70; info_type := "image/png" |};
     resizedImages := [];
     isProcessing := false;
     selectedWidthScale := Number.decimal 10 10;
     selectedFileSizeScales := [inv_sqrt8];
     loadedImage :=
       Some {| img_src := "data:image/png;base64,AAAA";
               img_width := 1; img_height := 1 |} |}.

Definition example_first_state : FirstRevision.State :=
  {| FirstRevision.originalImage := None; FirstRevision.originalInfo := None;
     FirstRevision.resizedImages := []; FirstRevision.isProcessing := false |}.

Definition example_option_8 : FileSizeOption :=
  {| fo_value := inv_sqrt8; fo_label := "1/8"; fo_ratio := "1-8" |}.

Definition example_dot_image : HTMLImageElement :=
  {| img_src := "data:image/png;base64,AAAA"; img_width := 1; img_height := 1 |}.

Definition example_dot_info : OriginalInfo :=
  {| info_name := "dot.png"; info_width := 1; info_height := 1;
     info_fileSize := 70; info_type := "image/png" |}.

Definition example_blank : ResizedImage :=
  {| id := "100%-1-8";
     label := "横100% × ファイル1/8";
     dataUrl := "data:,";
     width := Number.of_Z 0;
     height := Number.of_Z 0;
     fileSize := Number.of_Z 0 |}.

(** The example file chosen and converted at the initial choice: three
    variants. *)
Definition example_all_state : State :=
  fold_left (step example_encoder example_reader example_decoder)
            [ChooseFile (Some example_file); ClickConvert] initialState.

(** A browser that cannot read [unreadable.png] and cannot decode
    [damaged.png], and the state after the example file and then
    [damaged.png] were chosen. *)
Definition example_damaged_file : File :=
  {| file_name := "damaged.png"; file_type := "image/png"; file_size := 3 |}.

Definition example_faulty_reader (f : File) : option string :=
  if String.eqb (file_name f) "unreadable.png" then None
  else if String.eqb (file_name f) "damaged.png"
       then Some "data:image/png;base64,QUJD"
       else Some "data:image/png;base64,AAAA".

Definition example_faulty_decoder (url : string) : option (Z * Z) :=
  if String.eqb url "data:image/png;base64,AAAA" then Some (3, 3) else None.

Definition example_stale_state : State :=
  fold_left (step example_encoder example_faulty_reader example_faulty_decoder)
            [ChooseFile (Some example_file);
             ChooseFile (Some example_damaged_file)] initialState.

(** * Properties *)

(** ** The constants *)

(** The width scales are the doubles [1], [0x1.ccccccccccccdp-1],
    [0x1.999999999999ap-1], [0x1.6666666666666p-1] and [0x1p-1]. *)
Example width_scale_values :
  width_scales
  = [ S754_finite false 4503599627370496 (-52);
      S754_finite false 8106479329266893 (-53);
      S754_finite false 7205759403792794 (-53);
      S754_finite false 6305039478318694 (-53);
      S754_finite false 4503599627370496 (-53) ].
Proof. vm_compute. reflexivity. Qed.

(** The file-size scales are [0x1.6a09e667f3bccp-1], [0x1p-1] and
    [0x1.6a09e667f3bccp-2]. *)
Example file_size_scale_values :
  file_size_scales
  = [ S754_finite false 6369051672525772 (-53);
      S754_finite false 4503599627370496 (-53);
      S754_finite false 6369051672525772 (-54) ].
Proof. vm_compute. reflexivity. Qed.

(** At 50% width and file size 1/8 a side of two pixels rounds to
    zero: three pixels is the least side that no pair of scales
    loses. *)
Example two_pixels_vanish :
  Number.round
    (Number.mul (Number.of_Z 2) (Number.mul (Number.decimal 5 10) inv_sqrt8))
  = S754_zero false.
Proof. vm_compute. reflexivity. Qed.

(** ** Binary64 arithmetic on integers and normal numbers *)

(** *** Digits

    [digits2_pos p] is the number of binary digits of [p]. *)

Ltac double_digits p :=
  replace (Z.succ (Zpos (digits2_pos p)) - 1)
    with (Z.succ (Zpos (digits2_pos p) - 1)) by lia;
  rewrite !Z.pow_succ_r by lia;
  generalize dependent (2 ^ (Zpos (digits2_pos p) - 1));
  generalize dependent (2 ^ (Zpos (digits2_pos p)));
  intros; lia.

Lemma digits_bounds p :
  2 ^ (Zpos (digits2_pos p) - 1) <= Zpos p < 2 ^ Zpos (digits2_pos p).
Proof.
  induction p as [p IH | p IH |]; cbn [digits2_pos].
  - rewrite Pos2Z.inj_succ. change (Zpos p~1) with (2 * Zpos p + 1).
    double_digits p.
  - rewrite Pos2Z.inj_succ. change (Zpos p~0) with (2 * Zpos p).
    double_digits p.
  - simpl. lia.
Qed.

Lemma digits_unique p d :
  2 ^ (d - 1) <= Zpos p < 2 ^ d -> Zpos (digits2_pos p) = d.
Proof.
  intros [Hlo Hhi]. pose proof (digits_bounds p) as [Blo Bhi].
  assert (0 < d) as Hd.
  { destruct (Z.ltb_spec 0 d) as [|Hle]; auto.
    destruct (Z.eq_dec d 0) as [-> | Hne].
    - simpl in Hhi. lia.
    - rewrite Z.pow_neg_r in Hhi by lia. lia. }
  set (k := Zpos (digits2_pos p)) in *.
  destruct (Z.lt_trichotomy k d) as [Hlt | [Heq | Hgt]]; auto.
  - assert (2 ^ k <= 2 ^ (d - 1)) by (apply Z.pow_le_mono_r; lia). lia.
  - assert (2 ^ d <= 2 ^ (k - 1)) by (apply Z.pow_le_mono_r; lia). lia.
Qed.

(** *** Shifting right

    [shr] iterates [shr_1], which halves the mantissa and remembers in
    two bits what it drops. *)

Lemma iter_pos_nat {A} (f : A -> A) p x :
  iter_pos f p x = Nat.iter (Pos.to_nat p) f x.
Proof.
  revert x. induction p as [p IH | p IH |]; intros x.
  - rewrite Pos2Nat.inj_xI. cbn [iter_pos]. rewrite !IH.
    replace (S (2 * Pos.to_nat p))%nat
      with (Pos.to_nat p + (Pos.to_nat p + 1))%nat by lia.
    rewrite !Nat.iter_add. reflexivity.
  - rewrite Pos2Nat.inj_xO. cbn [iter_pos]. rewrite !IH.
    replace (2 * Pos.to_nat p)%nat
      with (Pos.to_nat p + Pos.to_nat p)%nat by lia.
    now rewrite Nat.iter_add.
  - reflexivity.
Qed.

Lemma shr_1_m mrs : 0 <= shr_m mrs -> shr_m (shr_1 mrs) = shr_m mrs / 2.
Proof.
  destruct mrs as [m r s]. simpl. intros Hm.
  destruct m as [|p|p]; try lia; simpl.
  - reflexivity.
  - destruct p; simpl.
    + change (Zpos p~1) with (2 * Zpos p + 1).
      apply Z.div_unique with (r := 1); lia.
    + change (Zpos p~0) with (2 * Zpos p).
      apply Z.div_unique with (r := 0); lia.
    + reflexivity.
Qed.

Lemma shr_iter_m n mrs :
  0 <= shr_m mrs ->
  shr_m (Nat.iter n shr_1 mrs) = shr_m mrs / 2 ^ Z.of_nat n.
Proof.
  intros Hm. induction n.
  - simpl. now rewrite Z.div_1_r.
  - rewrite Nat2Z.inj_succ, Z.pow_succ_r by lia. simpl Nat.iter.
    rewrite shr_1_m.
    + rewrite IHn. rewrite Z.div_div by lia. f_equal. lia.
    + rewrite IHn. apply Z.div_pos; lia.
Qed.

Lemma shr_1_exact m :
  0 <= m ->
  shr_1 (Build_shr_record (2 * m) false false) = Build_shr_record m false false.
Proof.
  intros Hm. destruct m as [|p|p]; try lia; reflexivity.
Qed.

Lemma shr_iter_exact n m :
  0 <= m ->
  Nat.iter n shr_1 (Build_shr_record (m * 2 ^ Z.of_nat n) false false)
  = Build_shr_record m false false.
Proof.
  revert m. induction n; intros m Hm.
  - simpl. f_equal. lia.
  - rewrite Nat2Z.inj_succ, Z.pow_succ_r by lia.
    rewrite Nat.iter_succ_r.
    replace (m * (2 * 2 ^ Z.of_nat n)) with (2 * (m * 2 ^ Z.of_nat n)) by lia.
    rewrite shr_1_exact by lia. now apply IHn.
Qed.

(** *** Rounding to binary64 *)

Lemma fexp_value x : fexp Number.prec Number.emax x = Z.max (x - 53) (-1074).
Proof. reflexivity. Qed.

Lemma shr_nat mrs e (n : nat) :
  shr mrs e (Z.of_nat n) = (Nat.iter n shr_1 mrs, e + Z.of_nat n).
Proof.
  destruct n as [|n].
  - simpl. now rewrite Z.add_0_r.
  - change (Z.of_nat (S n)) with (Zpos (Pos.of_succ_nat n)).
    cbn [shr]. rewrite iter_pos_nat, SuccNat2Pos.id_succ. reflexivity.
Qed.

Lemma digits_mul_pow2 (m M : positive) (n : nat) :
  Zpos m = Zpos M * 2 ^ Z.of_nat n ->
  Zpos (digits2_pos m) = Zpos (digits2_pos M) + Z.of_nat n.
Proof.
  intros Hm. apply digits_unique. rewrite Hm.
  pose proof (digits_bounds M) as [Hlo Hhi].
  replace (Zpos (digits2_pos M) + Z.of_nat n - 1)
    with ((Zpos (digits2_pos M) - 1) + Z.of_nat n) by lia.
  rewrite !Z.pow_add_r by lia.
  assert (0 < 2 ^ Z.of_nat n) by (apply Z.pow_pos_nonneg; lia).
  split; nia.
Qed.

(** Rounding a value that is representable returns its canonical
    representation. *)
Lemma binary_round_aux_exact s (m M : positive) (E : Z) (n : nat) :
  Zpos m = Zpos M * 2 ^ Z.of_nat n ->
  canonical_mantissa Number.prec Number.emax M E = true ->
  E <= Number.emax - Number.prec ->
  binary_round_aux Number.prec Number.emax s (Zpos m) (E - Z.of_nat n) loc_Exact
  = S754_finite s M E.
Proof.
  intros Hm Hcan Hmax. unfold canonical_mantissa in Hcan.
  apply Z.eqb_eq in Hcan.
  unfold binary_round_aux, shr_fexp. cbn [Zdigits2 shr_record_of_loc].
  rewrite (digits_mul_pow2 m M n Hm).
  replace (Zpos (digits2_pos M) + Z.of_nat n + (E - Z.of_nat n))
    with (Zpos (digits2_pos M) + E) by lia.
  rewrite Hcan.
  replace (E - (E - Z.of_nat n)) with (Z.of_nat n) by lia.
  rewrite shr_nat, Hm, shr_iter_exact by lia.
  cbn [shr_m loc_of_shr_record round_nearest_even Zdigits2 shr_record_of_loc].
  replace (E - Z.of_nat n + Z.of_nat n) with E by lia.
  rewrite Hcan, Z.sub_diag. cbn [shr shr_m].
  apply Z.leb_le in Hmax. now rewrite Hmax.
Qed.

Lemma binary_round_aux_canonical s (M : positive) (E : Z) :
  canonical_mantissa Number.prec Number.emax M E = true ->
  E <= Number.emax - Number.prec ->
  binary_round_aux Number.prec Number.emax s (Zpos M) E loc_Exact
  = S754_finite s M E.
Proof.
  intros Hcan Hmax.
  replace E with (E - Z.of_nat 0) at 1 by (simpl; lia).
  apply binary_round_aux_exact; auto. simpl. lia.
Qed.

(** *** Integers as numbers *)

Lemma pos_iter_xO (n q : positive) :
  Zpos (Pos.iter xO n q) = Zpos n * 2 ^ Zpos q.
Proof.
  induction q as [|q IH] using Pos.peano_ind.
  - simpl. lia.
  - rewrite Pos.iter_succ, Pos2Z.inj_succ, Z.pow_succ_r by lia.
    change (Zpos (Pos.iter xO n q)~0) with (2 * Zpos (Pos.iter xO n q)).
    rewrite IH. lia.
Qed.

Lemma digits_le_53 n : Zpos n < 2 ^ 53 -> Zpos (digits2_pos n) <= 53.
Proof.
  intros Hn. pose proof (digits_bounds n) as [Hlo _].
  destruct (Z.leb_spec (Zpos (digits2_pos n)) 53) as [|Hgt]; auto.
  assert (2 ^ 53 <= 2 ^ (Zpos (digits2_pos n) - 1))
    by (apply Z.pow_le_mono_r; lia).
  lia.
Qed.

Lemma mantissa_of_spec n :
  Zpos n < 2 ^ 53 ->
  Zpos (mantissa_of n) = Zpos n * 2 ^ (53 - Zpos (digits2_pos n)).
Proof.
  intros Hn. unfold mantissa_of. apply digits_le_53 in Hn.
  rewrite Z2Pos.id; auto.
  assert (0 < 2 ^ (53 - Zpos (digits2_pos n))) by (apply Z.pow_pos_nonneg; lia).
  nia.
Qed.

Lemma mantissa_of_digits n :
  Zpos n < 2 ^ 53 -> Zpos (digits2_pos (mantissa_of n)) = 53.
Proof.
  intros Hn. pose proof (digits_le_53 n Hn) as Hd.
  rewrite (digits_mul_pow2 (mantissa_of n) n
             (Z.to_nat (53 - Zpos (digits2_pos n)))).
  - lia.
  - rewrite mantissa_of_spec by auto. rewrite Z2Nat.id by lia. reflexivity.
Qed.

Lemma binary_round_integer s n :
  Zpos n < 2 ^ 53 ->
  binary_round Number.prec Number.emax s n 0
  = S754_finite s (mantissa_of n) (Zpos (digits2_pos n) - 53).
Proof.
  intros Hn. pose proof (digits_le_53 n Hn) as Hd.
  pose proof (mantissa_of_spec n Hn) as Hm.
  pose proof (mantissa_of_digits n Hn) as Hmd.
  unfold binary_round.
  rewrite Z.add_0_r, fexp_value.
  replace (Z.max (Zpos (digits2_pos n) - 53) (-1074))
    with (Zpos (digits2_pos n) - 53) by lia.
  unfold shl_align. rewrite Z.sub_0_r.
  destruct (Zpos (digits2_pos n) - 53) as [|q|q] eqn:Hq; try lia.
  - assert (mantissa_of n = n) as Hmn.
    { apply Pos2Z.inj. rewrite Hm.
      replace (53 - Zpos (digits2_pos n)) with 0 by lia. simpl. lia. }
    rewrite Hmn.
    apply binary_round_aux_canonical.
    + unfold canonical_mantissa. rewrite fexp_value. apply Z.eqb_eq. lia.
    + unfold Number.emax, Number.prec. lia.
  - assert (mantissa_of n = Pos.iter xO n q) as Hmn.
    { apply Pos2Z.inj. rewrite Hm, pos_iter_xO. f_equal. f_equal. lia. }
    rewrite <- Hmn.
    apply binary_round_aux_canonical.
    + unfold canonical_mantissa. rewrite fexp_value, Hmd. apply Z.eqb_eq. lia.
    + unfold Number.emax, Number.prec. lia.
Qed.

Lemma to_Z_integer s n :
  Zpos n < 2 ^ 53 ->
  Number.to_Z (S754_finite s (mantissa_of n) (Zpos (digits2_pos n) - 53))
  = Some (cond_Zopp s (Zpos n)).
Proof.
  intros Hn.
  pose proof (digits_le_53 n Hn) as Hd.
  pose proof (mantissa_of_spec n Hn) as Hm.
  unfold Number.to_Z. rewrite Hm.
  destruct (Z.leb_spec 0 (Zpos (digits2_pos n) - 53)) as [Hge | Hlt].
  - replace (53 - Zpos (digits2_pos n)) with 0 by lia.
    replace (Zpos (digits2_pos n) - 53) with 0 by lia.
    do 2 f_equal. simpl. lia.
  - replace (- (Zpos (digits2_pos n) - 53))
      with (53 - Zpos (digits2_pos n)) by lia.
    rewrite Z.mod_mul by (apply Z.pow_nonzero; lia).
    rewrite Z.eqb_refl.
    rewrite Z.div_mul by (apply Z.pow_nonzero; lia). reflexivity.
Qed.

(** An integer of magnitude below 2^53 is a number, with either sign of
    zero. *)
Lemma to_Z_normalize n szero :
  - 2 ^ 53 < n < 2 ^ 53 ->
  Number.to_Z (binary_normalize Number.prec Number.emax n 0 szero) = Some n.
Proof.
  intros Hn. destruct n as [|p|p]; cbn [binary_normalize].
  - reflexivity.
  - rewrite binary_round_integer by lia. now rewrite to_Z_integer by lia.
  - rewrite binary_round_integer by lia. now rewrite to_Z_integer by lia.
Qed.

Lemma of_Z_pos n :
  Zpos n < 2 ^ 53 ->
  Number.of_Z (Zpos n)
  = S754_finite false (mantissa_of n) (Zpos (digits2_pos n) - 53).
Proof. intros Hn. now apply binary_round_integer. Qed.

Lemma to_Z_of_Z n :
  0 <= n < 2 ^ 53 -> Number.to_Z (Number.of_Z n) = Some n.
Proof. intros Hn. apply to_Z_normalize. lia. Qed.

(** [Math.round] returns the nearest integer. *)
Lemma round_nearest_integer x :
  match x with
  | S754_finite _ m _ => Zpos m < 2 ^ 53
  | S754_zero _ => True
  | _ => False
  end ->
  exists n, Number.to_Z (Number.round x) = Some n /\ nearest_integer n x.
Proof.
  destruct x as [s | s | | s m e]; try contradiction; intros Hm.
  - exists 0. split; reflexivity.
  - unfold Number.round, nearest_integer.
    destruct (Z.leb_spec 0 e) as [Hpos | Hneg].
    + exists (cond_Zopp s (Zpos m * 2 ^ e)). split; [|reflexivity].
      unfold Number.to_Z. apply Z.leb_le in Hpos. now rewrite Hpos.
    + cbv zeta. set (k := - e). assert (1 <= k) as Hk by (unfold k; lia).
      rewrite Z.shiftr_div_pow2, Z.shiftl_mul_pow2, Z.mul_1_l by lia.
      assert (0 < 2 ^ (k - 1)) as Hp by (apply Z.pow_pos_nonneg; lia).
      assert (2 ^ k = 2 * 2 ^ (k - 1)) as Hpk
          by (rewrite <- Z.pow_succ_r by lia; f_equal; lia).
      set (M := cond_Zopp s (Zpos m)).
      assert (- 2 ^ 53 < M < 2 ^ 53) as HM by (unfold M; destruct s; simpl; lia).
      pose proof (Z.div_mod (M + 2 ^ (k - 1)) (2 ^ k) ltac:(lia)) as Hdm.
      pose proof (Z.mod_pos_bound (M + 2 ^ (k - 1)) (2 ^ k) ltac:(lia)) as Hr.
      set (n := (M + 2 ^ (k - 1)) / 2 ^ k) in *.
      set (r := (M + 2 ^ (k - 1)) mod 2 ^ k) in *.
      exists n. split.
      * apply to_Z_normalize. split.
        -- assert (- 2 ^ 53 * 2 ^ k < (n + 1) * 2 ^ k) by nia. nia.
        -- assert (n * 2 ^ k < 2 ^ 53 * 2 ^ k) by nia. nia.
      * nia.
Qed.

(** *** Exact products and quotients *)

Lemma pow2_lt_inv x y : 0 <= y -> 2 ^ x < 2 ^ y -> x < y.
Proof.
  intros Hy H. destruct (Z.ltb_spec x y) as [|Hge]; auto.
  assert (2 ^ y <= 2 ^ x) by (apply Z.pow_le_mono_r; lia). lia.
Qed.

Lemma digits_mul_lower a b :
  Zpos (digits2_pos a) + Zpos (digits2_pos b) - 1 <= Zpos (digits2_pos (a * b)).
Proof.
  pose proof (digits_bounds a) as [Ha _].
  pose proof (digits_bounds b) as [Hb _].
  pose proof (digits_bounds (a * b)) as [_ Hab].
  rewrite Pos2Z.inj_mul in Hab.
  assert (2 ^ (Zpos (digits2_pos a) - 1 + (Zpos (digits2_pos b) - 1))
          < 2 ^ Zpos (digits2_pos (a * b))) as H.
  { rewrite Z.pow_add_r by lia.
    assert (0 < 2 ^ (Zpos (digits2_pos a) - 1)) by (apply Z.pow_pos_nonneg; lia).
    assert (0 < 2 ^ (Zpos (digits2_pos b) - 1)) by (apply Z.pow_pos_nonneg; lia).
    nia. }
  apply pow2_lt_inv in H; lia.
Qed.

(** The product of two integers is exact while it stays below 2^53. *)
Lemma mul_of_Z_pos a b :
  Zpos a * Zpos b < 2 ^ 53 ->
  Number.mul (Number.of_Z (Zpos a)) (Number.of_Z (Zpos b))
  = Number.of_Z (Zpos (a * b)).
Proof.
  intros Hab.
  assert (Zpos a < 2 ^ 53) as Ha by nia.
  assert (Zpos b < 2 ^ 53) as Hb by nia.
  assert (Zpos (a * b) < 2 ^ 53) as Hab' by (rewrite Pos2Z.inj_mul; exact Hab).
  rewrite !of_Z_pos by assumption.
  unfold Number.mul, SFmul. cbn [xorb].
  pose proof (digits_le_53 a Ha) as Hda.
  pose proof (digits_le_53 b Hb) as Hdb.
  pose proof (digits_le_53 (a * b) Hab') as Hdab.
  pose proof (digits_mul_lower a b) as Hlow.
  set (da := Zpos (digits2_pos a)) in *.
  set (db := Zpos (digits2_pos b)) in *.
  set (dab := Zpos (digits2_pos (a * b))) in *.
  replace (da - 53 + (db - 53))
    with (dab - 53 - Z.of_nat (Z.to_nat (dab + 53 - da - db))) by lia.
  apply binary_round_aux_exact.
  - rewrite Pos2Z.inj_mul, !mantissa_of_spec by assumption.
    fold da db dab. rewrite Z2Nat.id by lia. rewrite Pos2Z.inj_mul.
    replace (Zpos a * Zpos b * 2 ^ (53 - dab) * 2 ^ (dab + 53 - da - db))
      with (Zpos a * Zpos b * (2 ^ (53 - dab) * 2 ^ (dab + 53 - da - db))) by ring.
    rewrite <- Z.pow_add_r by lia.
    replace (Zpos a * 2 ^ (53 - da) * (Zpos b * 2 ^ (53 - db)))
      with (Zpos a * Zpos b * (2 ^ (53 - da) * 2 ^ (53 - db))) by ring.
    rewrite <- Z.pow_add_r by lia.
    f_equal. f_equal. lia.
  - unfold canonical_mantissa. rewrite fexp_value, mantissa_of_digits by assumption.
    apply Z.eqb_eq. lia.
  - unfold Number.emax, Number.prec. lia.
Qed.

Lemma of_Z_4 : Number.of_Z 4 = S754_finite false 4503599627370496 (-50).
Proof. reflexivity. Qed.

Lemma div_eucl_div_mod a b : Z.div_eucl a b = (a / b, a mod b).
Proof. unfold Z.div, Z.modulo. now destruct (Z.div_eucl a b). Qed.

(** Dividing a normal number by four lowers its exponent by two. *)
Lemma div_4 s (M : positive) (E : Z) :
  Zpos (digits2_pos M) = 53 ->
  -1071 <= E <= 973 ->
  Number.div (S754_finite s M E) (Number.of_Z 4) = S754_finite s M (E - 2).
Proof.
  intros Hd HE. rewrite of_Z_4.
  unfold Number.div, SFdiv, SFdiv_core_binary. cbn [Zdigits2].
  rewrite Hd.
  change (Zpos (digits2_pos 4503599627370496)) with 53.
  rewrite fexp_value.
  replace (Z.min (Z.max (53 + E - (53 + -50) - 53) (-1074)) (E - -50))
    with (E - 3) by lia.
  replace (E - -50 - (E - 3)) with 53 by lia.
  cbv beta iota.
  rewrite Z.shiftl_mul_pow2 by lia.
  rewrite div_eucl_div_mod.
  change 4503599627370496 with (2 ^ 52).
  replace (Zpos M * 2 ^ 53) with (2 * Zpos M * 2 ^ 52)
    by (change (2 ^ 53) with (2 * 2 ^ 52); ring).
  rewrite Z.div_mul, Z.mod_mul by (apply Z.pow_nonzero; lia).
  change (new_location (2 ^ 52) 0) with loc_Exact.
  rewrite xorb_false_r.
  change (2 * Zpos M) with (Zpos M~0).
  replace (E - 3) with (E - 2 - Z.of_nat 1) by lia.
  apply binary_round_aux_exact.
  - change (2 ^ Z.of_nat 1) with 2. lia.
  - unfold canonical_mantissa. rewrite fexp_value, Hd. apply Z.eqb_eq. lia.
  - unfold Number.emax, Number.prec. lia.
Qed.

(** [Math.round(a / 4)] for a positive integer [a]. *)
Lemma round_quarter a :
  Zpos a < 2 ^ 53 ->
  Number.to_Z (Number.round (Number.div (Number.of_Z (Zpos a)) (Number.of_Z 4)))
  = Some ((Zpos a + 2) / 4).
Proof.
  intros Ha. rewrite of_Z_pos by assumption.
  pose proof (digits_le_53 a Ha) as Hd.
  pose proof (digits_bounds a) as [Hlo _].
  assert (1 <= Zpos (digits2_pos a)) by lia.
  rewrite div_4 by (rewrite ?mantissa_of_digits by assumption; lia).
  unfold Number.round.
  destruct (Z.leb_spec 0 (Zpos (digits2_pos a) - 53 - 2)) as [|_]; [lia|].
  cbn [cond_Zopp].
  set (k := - (Zpos (digits2_pos a) - 53 - 2)).
  assert (2 <= k) as Hk by (unfold k; lia).
  rewrite Z.shiftr_div_pow2, Z.shiftl_mul_pow2, Z.mul_1_l by lia.
  rewrite mantissa_of_spec by assumption.
  replace (53 - Zpos (digits2_pos a)) with (k - 2) by (unfold k; lia).
  replace (2 ^ (k - 1)) with (2 * 2 ^ (k - 2))
    by (rewrite <- Z.pow_succ_r by lia; f_equal; lia).
  replace (2 ^ k) with (4 * 2 ^ (k - 2))
    by (change 4 with (2 ^ 2); rewrite <- Z.pow_add_r by lia; f_equal; lia).
  replace (Zpos a * 2 ^ (k - 2) + 2 * 2 ^ (k - 2))
    with ((Zpos a + 2) * 2 ^ (k - 2)) by ring.
  rewrite Z.div_mul_cancel_r by (try apply Z.pow_nonzero; lia).
  fold (Number.of_Z ((Zpos a + 2) / 4)).
  apply to_Z_of_Z. split.
  - apply Z.div_pos; lia.
  - apply Z.div_lt_upper_bound; lia.
Qed.

(** The estimate of [resizeImage], for a text of [L] characters. *)
Lemma estimate_fileSize_value (base64 : string) :
  3 * str_length base64 < 2 ^ 53 ->
  Number.to_Z (estimate_fileSize base64)
  = Some ((3 * str_length base64 + 2) / 4).
Proof.
  intros HL. unfold estimate_fileSize.
  assert (0 <= str_length base64) as Hnn by (unfold str_length; lia).
  destruct (str_length base64) as [|L|L] eqn:HLen; try lia.
  - reflexivity.
  - change (Number.of_Z 3) with (Number.of_Z (Zpos 3)).
    rewrite mul_of_Z_pos by lia.
    rewrite round_quarter by lia.
    f_equal. f_equal. lia.
Qed.

(** *** Products of normal numbers *)

Lemma round_nearest_even_bounds m l :
  m <= round_nearest_even m l <= m + 1.
Proof.
  destruct l as [|[| |]]; simpl; try lia. destruct (Z.even m); lia.
Qed.

Lemma digits_upper p d : Zpos p < 2 ^ d -> Zpos (digits2_pos p) <= d.
Proof.
  intros Hp. pose proof (digits_bounds p) as [Hlo _].
  destruct (Z.leb_spec (Zpos (digits2_pos p)) d) as [|Hgt]; auto.
  assert (2 ^ d <= 2 ^ (Zpos (digits2_pos p) - 1)).
  { destruct (Z.ltb_spec d 0).
    - rewrite (Z.pow_neg_r 2 d) by lia. apply Z.pow_nonneg. lia.
    - apply Z.pow_le_mono_r; lia. }
  lia.
Qed.

(** The product of two positive normal numbers, not too small and not
    above one in exponent, is a normal number; when its exact value is
    at least one half, its exponent is at least -53. *)
Lemma mul_normal (Mx My : positive) (Ex Ey : Z) :
  Zpos (digits2_pos Mx) = 53 ->
  Zpos (digits2_pos My) = 53 ->
  -1000 <= Ex + Ey <= 0 ->
  exists M E,
    Number.mul (S754_finite false Mx Ex) (S754_finite false My Ey)
    = S754_finite false M E
    /\ 2 ^ 52 <= Zpos M < 2 ^ 53
    /\ (2 ^ (- (Ex + Ey)) <= 2 * Zpos Mx * Zpos My -> -53 <= E).
Proof.
  intros Hdx Hdy He.
  unfold Number.mul, SFmul. cbn [xorb].
  pose proof (digits_mul_lower Mx My) as Hlow. rewrite Hdx, Hdy in Hlow.
  pose proof (digits_bounds (Mx * My)) as [Plo Phi].
  assert (Zpos (digits2_pos (Mx * My)) <= 106) as Hup.
  { apply digits_upper. rewrite Pos2Z.inj_mul.
    pose proof (digits_bounds Mx) as [_ Hx].
    pose proof (digits_bounds My) as [_ Hy].
    rewrite Hdx in Hx. rewrite Hdy in Hy.
    change (2 ^ 106) with (2 ^ 53 * 2 ^ 53). nia. }
  set (P := (Mx * My)%positive) in *.
  set (d := Zpos (digits2_pos P)) in *.
  set (e := Ex + Ey) in *.
  assert (2 ^ (- e) <= 2 * Zpos Mx * Zpos My -> 0 <= d + e) as Hde.
  { intros Hval. assert (2 ^ (- e) < 2 ^ (d + 1)) as Hlt.
    { rewrite Z.pow_add_r by lia. unfold P in *.
      rewrite Pos2Z.inj_mul in Phi. lia. }
    apply pow2_lt_inv in Hlt; lia. }
  unfold binary_round_aux, shr_fexp. cbn [Zdigits2 shr_record_of_loc]. fold d.
  rewrite fexp_value.
  replace (Z.max (d + e - 53) (-1074) - e)
    with (Z.of_nat (Z.to_nat (d - 53))) by lia.
  rewrite shr_nat. rewrite Z2Nat.id by lia.
  set (mrs := Nat.iter (Z.to_nat (d - 53)) shr_1
                (Build_shr_record (Zpos P) false false)).
  assert (shr_m mrs = Zpos P / 2 ^ (d - 53)) as Hm1.
  { unfold mrs. rewrite shr_iter_m by (simpl; lia).
    rewrite Z2Nat.id by lia. reflexivity. }
  assert (2 ^ 52 <= shr_m mrs < 2 ^ 53) as Hm1b.
  { rewrite Hm1.
    assert (0 < 2 ^ (d - 53)) by (apply Z.pow_pos_nonneg; lia).
    split.
    - apply Z.div_le_lower_bound; [lia|].
      rewrite <- Z.pow_add_r by lia.
      replace (d - 53 + 52) with (d - 1) by lia. exact Plo.
    - apply Z.div_lt_upper_bound; [lia|].
      rewrite <- Z.pow_add_r by lia.
      replace (d - 53 + 53) with d by lia. exact Phi. }
  pose proof (round_nearest_even_bounds (shr_m mrs) (loc_of_shr_record mrs))
    as Hr.
  set (m2 := round_nearest_even (shr_m mrs) (loc_of_shr_record mrs)) in *.
  replace (e + (d - 53)) with (d + e - 53) by lia.
  set (e' := d + e - 53).
  assert (-948 <= e' <= 53) as He' by (unfold e'; lia).
  destruct m2 as [|q|q] eqn:Hq; try lia.
  cbn [Zdigits2].
  destruct (Z.ltb_spec (Zpos q) (2 ^ 53)) as [Hlt | Hge].
  - (* the rounded mantissa still has 53 digits *)
    assert (Zpos (digits2_pos q) = 53) as Hdq
        by (apply digits_unique; simpl; lia).
    rewrite Hdq, fexp_value.
    replace (Z.max (53 + e' - 53) (-1074) - e') with 0 by lia.
    cbn [shr shr_m].
    replace (e' <=? Number.emax - Number.prec) with true
      by (symmetry; apply Z.leb_le; unfold Number.emax, Number.prec; lia).
    exists q, e'. repeat split; lia.
  - (* the rounding carried into the next binade *)
    assert (q = 9007199254740992%positive) as -> by lia.
    change (Zpos (digits2_pos 9007199254740992)) with 54.
    rewrite fexp_value.
    replace (Z.max (54 + e' - 53) (-1074) - e') with 1 by lia.
    cbn [shr iter_pos shr_1 shr_m].
    replace (e' + 1 <=? Number.emax - Number.prec) with true
      by (symmetry; apply Z.leb_le; unfold Number.emax, Number.prec; lia).
    exists 4503599627370496%positive, (e' + 1). repeat split; simpl; lia.
Qed.


Lemma keeps_three_pixels_inv c :
  keeps_three_pixels c = true ->
  exists M E,
    c = S754_finite false M E
    /\ Zpos (digits2_pos M) = 53 /\ -56 <= E <= 0
    /\ 2 ^ (- E) <= 6 * Zpos M.
Proof.
  intros Hc. destruct c as [| | |[|] M E]; try discriminate.
  unfold keeps_three_pixels in Hc.
  apply andb_prop in Hc as [Hc H3]. apply andb_prop in Hc as [Hd HE].
  apply Z.eqb_eq in Hd. apply Z.leb_le in HE, H3.
  exists M, E. repeat split; auto.
  pose proof (digits_bounds M) as [_ Hhi]. rewrite Hd in Hhi.
  assert (2 ^ (- E) < 2 ^ 56) as Hlt
      by (change (2 ^ 56) with (8 * 2 ^ 53); lia).
  apply pow2_lt_inv in Hlt; lia.
Qed.

(** A scaled side is rounded to the nearest integer. *)
Lemma scaled_dimension_nearest (W : Z) (c : number) :
  keeps_three_pixels c = true ->
  0 <= W < 2 ^ 53 ->
  exists n,
    Number.to_Z (Number.round (Number.mul (Number.of_Z W) c)) = Some n
    /\ nearest_integer n (Number.mul (Number.of_Z W) c).
Proof.
  intros Hc HW.
  destruct (keeps_three_pixels_inv c Hc) as (M & E & -> & Hd & HE & _).
  destruct W as [|w|w]; try lia.
  - exists 0. split; reflexivity.
  - rewrite of_Z_pos by lia.
    pose proof (digits_le_53 w (proj2 HW)) as Hdw.
    pose proof (digits_bounds w) as [Hlo _].
    destruct (mul_normal (mantissa_of w) M (Zpos (digits2_pos w) - 53) E)
      as (M' & E' & Hmul & HM' & _).
    + apply mantissa_of_digits. lia.
    + exact Hd.
    + lia.
    + rewrite Hmul. apply round_nearest_integer. lia.
Qed.


(** All fifteen products of a width scale and a file-size scale. *)
Lemma combined_scales_ok :
  forallb (fun c => in_unit_interval c && keeps_three_pixels c)
          combined_scales = true.
Proof. vm_compute. reflexivity. Qed.

Lemma combined_scale_ok w f :
  In w width_scales -> In f file_size_scales ->
  in_unit_interval (Number.mul w f) = true
  /\ keeps_three_pixels (Number.mul w f) = true.
Proof.
  intros Hw Hf. apply andb_prop.
  apply (proj1 (forallb_forall _ _) combined_scales_ok).
  unfold combined_scales. apply in_flat_map. exists w. split; auto.
  now apply in_map.
Qed.

(** ** Data URLs and base64 *)

Lemma split_on_no_separator (s : string) :
  all_chars not_comma s = true -> split_on "," s = [s].
Proof.
  induction s as [|c s IH]; simpl; intros H.
  - reflexivity.
  - apply andb_prop in H as [Hc Hs]. unfold not_comma in Hc.
    apply negb_true_iff in Hc. rewrite Hc, (IH Hs). reflexivity.
Qed.

Lemma base64_alphabet_no_comma :
  Forall (fun c => not_comma c = true) base64_alphabet.
Proof. unfold base64_alphabet. simpl. repeat constructor. Qed.

Lemma sextet_no_comma n : not_comma (sextet n) = true.
Proof.
  unfold sextet.
  destruct (nth_in_or_default (N.to_nat n) base64_alphabet "A"%char)
    as [Hin | Heq].
  - exact (proj1 (Forall_forall _ _) base64_alphabet_no_comma _ Hin).
  - rewrite Heq. reflexivity.
Qed.

Lemma list_ind3 {A} (P : list A -> Prop) :
  P [] -> (forall a, P [a]) -> (forall a b, P [a; b]) ->
  (forall a b c l, P l -> P (a :: b :: c :: l)) ->
  forall l, P l.
Proof.
  intros H0 H1 H2 H3.
  assert (forall l, P l /\ (forall a, P (a :: l)) /\ (forall a b, P (a :: b :: l)))
    as H.
  { induction l as [|x l (IHa & IHb & IHc)].
    - repeat split; auto.
    - repeat split; auto. }
  intros l. apply H.
Qed.

Lemma base64_encode_no_comma bs :
  all_chars not_comma (base64_encode bs) = true.
Proof.
  induction bs as [|a|a b|a b c l IH] using list_ind3;
    cbn [base64_encode all_chars]; rewrite ?sextet_no_comma; auto.
Qed.

Lemma base64_encode_length bs :
  str_length (base64_encode bs) = 4 * ((Z.of_nat (List.length bs) + 2) / 3).
Proof.
  unfold str_length.
  induction bs as [|a|a b|a b c l IH] using list_ind3.
  - reflexivity.
  - reflexivity.
  - reflexivity.
  - cbn [base64_encode String.length List.length].
    rewrite !Nat2Z.inj_succ, IH.
    replace (Z.succ (Z.succ (Z.succ (Z.of_nat (List.length l)))) + 2)
      with ((Z.of_nat (List.length l) + 2) + 1 * 3) by lia.
    rewrite Z.div_add by lia. lia.
Qed.

Local Open Scope N_scope.

Lemma unsextet_sextet_table :
  forallb (fun k => match unsextet (sextet k) with
                    | Some k' => (k' =? k) && negb (Ascii.eqb (sextet k) "=")
                    | None => false
                    end)
          (map N.of_nat (seq 0 64)) = true.
Proof. vm_compute. reflexivity. Qed.

Lemma unsextet_sextet k :
  k < 64 -> unsextet (sextet k) = Some k /\ Ascii.eqb (sextet k) "=" = false.
Proof.
  intros Hk.
  pose proof (proj1 (forallb_forall _ _) unsextet_sextet_table k) as H.
  assert (In k (map N.of_nat (seq 0 64))) as Hin.
  { apply in_map_iff. exists (N.to_nat k). split; [apply N2Nat.id|].
    apply in_seq. lia. }
  specialize (H Hin). cbv beta in H.
  destruct (unsextet (sextet k)) as [k'|]; [|discriminate].
  apply andb_prop in H as [H1 H2]. apply N.eqb_eq in H1. subst k'.
  apply negb_true_iff in H2. auto.
Qed.

Lemma byte_of_to_N a : byte_of (Byte.to_N a) = a.
Proof.
  unfold byte_of. pose proof (Byte.to_N_bounded a) as Hb.
  rewrite N.mod_small by lia. now rewrite Byte.of_to_N.
Qed.

Ltac div_mod_lia :=
  Z.to_euclidean_division_equations; lia.

Lemma sextet_bounds a b :
  a < 256 -> b < 256 ->
  sextet1 a < 64 /\ sextet2 a b < 64 /\ sextet3 a b < 64 /\ sextet4 a < 64.
Proof.
  unfold sextet1, sextet2, sextet3, sextet4. intros Ha Hb.
  repeat split; zify; div_mod_lia.
Qed.

Lemma octets_of_sextets a b c :
  a < 256 -> b < 256 -> c < 256 ->
  sextet1 a * 4 + sextet2 a b / 16 = a
  /\ (sextet2 a b mod 16) * 16 + sextet3 b c / 4 = b
  /\ (sextet3 b c mod 4) * 64 + sextet4 c = c.
Proof.
  unfold sextet1, sextet2, sextet3, sextet4. intros Ha Hb Hc.
  repeat split; zify; div_mod_lia.
Qed.

Lemma octet1_sextets a b :
  b < 256 -> octet1 (sextet1 (Byte.to_N a)) (sextet2 (Byte.to_N a) b) = a.
Proof.
  intros Hb. unfold octet1. pose proof (Byte.to_N_bounded a).
  rewrite (proj1 (octets_of_sextets (Byte.to_N a) b 0 ltac:(lia) Hb ltac:(lia))).
  apply byte_of_to_N.
Qed.

Lemma octet2_sextets a b c :
  a < 256 -> c < 256 ->
  octet2 (sextet2 a (Byte.to_N b)) (sextet3 (Byte.to_N b) c) = b.
Proof.
  intros Ha Hc. unfold octet2. pose proof (Byte.to_N_bounded b).
  rewrite (proj1 (proj2 (octets_of_sextets a (Byte.to_N b) c Ha ltac:(lia) Hc))).
  apply byte_of_to_N.
Qed.

Lemma octet3_sextets b c :
  b < 256 ->
  octet3 (sextet3 b (Byte.to_N c)) (sextet4 (Byte.to_N c)) = c.
Proof.
  intros Hb. unfold octet3. pose proof (Byte.to_N_bounded c).
  rewrite (proj2 (proj2 (octets_of_sextets 0 b (Byte.to_N c) ltac:(lia) Hb ltac:(lia)))).
  apply byte_of_to_N.
Qed.

Lemma decode_sextet k : k < 64 -> unsextet (sextet k) = Some k.
Proof. intros Hk. apply unsextet_sextet, Hk. Qed.

Lemma sextet_not_padding k : k < 64 -> Ascii.eqb (sextet k) "=" = false.
Proof. intros Hk. apply unsextet_sextet, Hk. Qed.

(** Decoding the text of a payload gives the payload back. *)
Lemma base64_decode_encode bs : base64_decode (base64_encode bs) = Some bs.
Proof.
  induction bs as [|a|a b|a b c l IH] using list_ind3.
  - reflexivity.
  - pose proof (Byte.to_N_bounded a) as Ha.
    destruct (sextet_bounds (Byte.to_N a) 0) as (B1 & B2 & _); [lia..|].
    cbn [base64_encode base64_decode].
    rewrite !decode_sextet by assumption.
    change (Ascii.eqb "=" "=") with true. cbv iota.
    rewrite octet1_sextets by lia. reflexivity.
  - pose proof (Byte.to_N_bounded a) as Ha.
    pose proof (Byte.to_N_bounded b) as Hb.
    destruct (sextet_bounds (Byte.to_N a) (Byte.to_N b)) as (B1 & B2 & _); [lia..|].
    destruct (sextet_bounds (Byte.to_N b) 0) as (_ & _ & B3 & _); [lia..|].
    cbn [base64_encode base64_decode].
    rewrite !decode_sextet by assumption.
    rewrite sextet_not_padding by assumption.
    change (Ascii.eqb "=" "=") with true. cbv iota.
    rewrite octet1_sextets, octet2_sextets by lia. reflexivity.
  - pose proof (Byte.to_N_bounded a) as Ha.
    pose proof (Byte.to_N_bounded b) as Hb.
    pose proof (Byte.to_N_bounded c) as Hc.
    destruct (sextet_bounds (Byte.to_N a) (Byte.to_N b)) as (B1 & B2 & _); [lia..|].
    destruct (sextet_bounds (Byte.to_N b) (Byte.to_N c)) as (_ & _ & B3 & _); [lia..|].
    destruct (sextet_bounds (Byte.to_N c) 0) as (_ & _ & _ & B4); [lia..|].
    cbn [base64_encode base64_decode].
    rewrite !decode_sextet by assumption.
    rewrite !sextet_not_padding by assumption.
    rewrite IH, octet1_sextets, octet2_sextets, octet3_sextets by lia.
    reflexivity.
Qed.

Local Close Scope N_scope.

(** ** Sorting and toggling the selection *)

Lemma comparator_rank x y :
  In x file_size_scales -> In y file_size_scales ->
  comparison_positive (descending x y) = (rank y <? rank x)%nat.
Proof.
  intros Hx Hy. simpl in Hx, Hy.
  destruct Hx as [<- | [<- | [<- | []]]]; destruct Hy as [<- | [<- | [<- | []]]];
    vm_compute; reflexivity.
Qed.

Lemma rank_injective x y :
  In x file_size_scales -> In y file_size_scales -> rank x = rank y -> x = y.
Proof.
  intros Hx Hy. simpl in Hx, Hy.
  destruct Hx as [<- | [<- | [<- | []]]]; destruct Hy as [<- | [<- | [<- | []]]];
    vm_compute; intros H; try reflexivity; discriminate H.
Qed.

Lemma lt_rank x y :
  In x file_size_scales -> In y file_size_scales ->
  Number.lt y x = true <-> by_rank x y.
Proof.
  intros Hx Hy. unfold by_rank. simpl in Hx, Hy.
  destruct Hx as [<- | [<- | [<- | []]]]; destruct Hy as [<- | [<- | [<- | []]]];
    vm_compute; split; intros H; try discriminate H; try reflexivity; try lia.
Qed.

Section Sorting.

Variable comparefn : number -> number -> number.

Lemma sort_insert_perm x l :
  Permutation (sort_insert comparefn x l) (x :: l).
Proof.
  induction l as [|y l IH]; simpl.
  - apply Permutation_refl.
  - destruct (comparison_positive (comparefn x y)).
    + apply Permutation_trans with (y :: x :: l).
      * now apply perm_skip.
      * apply perm_swap.
    + apply Permutation_refl.
Qed.

Lemma array_sort_perm l : Permutation (array_sort comparefn l) l.
Proof.
  induction l as [|x l IH]; simpl.
  - apply perm_nil.
  - apply Permutation_trans with (x :: array_sort comparefn l).
    + apply sort_insert_perm.
    + now apply perm_skip.
Qed.

Lemma array_sort_In x l : In x (array_sort comparefn l) <-> In x l.
Proof.
  split; apply Permutation_in.
  - apply array_sort_perm.
  - apply Permutation_sym, array_sort_perm.
Qed.

End Sorting.

Lemma by_rank_sorted_NoDup l : StronglySorted by_rank l -> NoDup l.
Proof.
  induction 1 as [|x l Hs IH Hall]; constructor; auto.
  intros Hin. apply (proj1 (Forall_forall _ _) Hall) in Hin.
  unfold by_rank in Hin. lia.
Qed.

Lemma by_rank_sorted_unique l1 :
  forall l2,
    StronglySorted by_rank l1 -> StronglySorted by_rank l2 ->
    (forall x, In x l1 <-> In x l2) -> l1 = l2.
Proof.
  induction l1 as [|x1 l1 IH]; intros [|x2 l2] H1 H2 Heq.
  - reflexivity.
  - exfalso. apply (proj2 (Heq x2)). now left.
  - exfalso. apply (proj1 (Heq x1)). now left.
  - apply StronglySorted_inv in H1 as [S1 F1].
    apply StronglySorted_inv in H2 as [S2 F2].
    rewrite Forall_forall in F1, F2. unfold by_rank in F1, F2.
    assert (x1 = x2) as ->.
    { destruct (proj1 (Heq x1) (or_introl eq_refl)) as [E | I1]; [now symmetry|].
      destruct (proj2 (Heq x2) (or_introl eq_refl)) as [E | I2]; [assumption|].
      specialize (F1 _ I2). specialize (F2 _ I1). lia. }
    f_equal. apply IH; auto. intros y. split; intros Hy.
    + destruct (proj1 (Heq y) (or_intror Hy)) as [E | I]; auto.
      subst y. specialize (F1 _ Hy). lia.
    + destruct (proj2 (Heq y) (or_intror Hy)) as [E | I]; auto.
      subst y. specialize (F2 _ Hy). lia.
Qed.

Lemma sort_insert_sorted x l :
  StronglySorted by_rank l -> incl l file_size_scales ->
  In x file_size_scales -> ~ In x l ->
  StronglySorted by_rank (sort_insert descending x l).
Proof.
  induction l as [|y l IH]; intros Hs Hincl Hx Hnin; simpl.
  - repeat constructor.
  - apply StronglySorted_inv in Hs as [Hs Hall].
    assert (In y file_size_scales) as Hy by (apply Hincl; now left).
    rewrite (comparator_rank x y Hx Hy).
    destruct (Nat.ltb_spec (rank y) (rank x)) as [Hlt | Hge].
    + constructor.
      * apply IH; auto.
        -- intros z Hz. apply Hincl. now right.
        -- intros Hin. apply Hnin. now right.
      * rewrite Forall_forall in *. intros z Hz.
        apply (Permutation_in _ (sort_insert_perm descending x l)) in Hz.
        destruct Hz as [<- | Hz]; [exact Hlt | now apply Hall].
    + assert (rank x <> rank y) as Hne.
      { intros E. apply Hnin. left. symmetry. now apply rank_injective. }
      constructor.
      * now constructor.
      * rewrite Forall_forall in *. intros z [<- | Hz].
        -- unfold by_rank. lia.
        -- specialize (Hall _ Hz). unfold by_rank in *. lia.
Qed.

Lemma array_sort_sorted l :
  NoDup l -> incl l file_size_scales ->
  StronglySorted by_rank (array_sort descending l).
Proof.
  induction l as [|x l IH]; intros Hnd Hincl; simpl.
  - constructor.
  - apply NoDup_cons_iff in Hnd as [Hnin Hnd].
    apply sort_insert_sorted.
    + apply IH; auto. intros z Hz. apply Hincl. now right.
    + intros z Hz. apply array_sort_In in Hz. apply Hincl. now right.
    + apply Hincl. now left.
    + intros Hin. apply Hnin. now apply array_sort_In in Hin.
Qed.

Lemma array_sort_sorted_id l :
  StronglySorted by_rank l -> incl l file_size_scales ->
  array_sort descending l = l.
Proof.
  intros Hs Hincl. apply by_rank_sorted_unique; auto.
  - apply array_sort_sorted; auto. now apply by_rank_sorted_NoDup.
  - intros x. apply array_sort_In.
Qed.

Lemma by_rank_sorted_filter (p : number -> bool) l :
  StronglySorted by_rank l -> StronglySorted by_rank (filter p l).
Proof.
  induction 1 as [|x l Hs IH Hall]; simpl.
  - constructor.
  - destruct (p x); auto. constructor; auto.
    rewrite Forall_forall in *. intros z Hz.
    apply filter_In in Hz as [Hz _]. auto.
Qed.

Lemma by_rank_descending l :
  incl l file_size_scales -> StronglySorted by_rank l ->
  StronglySorted (fun a b => Number.lt b a = true) l.
Proof.
  intros Hincl Hs. induction Hs as [|x l Hs IH Hall]; constructor.
  - apply IH. intros z Hz. apply Hincl. now right.
  - rewrite Forall_forall in *. intros z Hz.
    apply lt_rank; auto.
    + apply Hincl. now left.
    + apply Hincl. now right.
Qed.

Lemma same_value_zero_eq x s :
  In x file_size_scales -> In s file_size_scales ->
  Number.same_value_zero x s = true <-> x = s.
Proof.
  intros Hx Hs. simpl in Hx, Hs.
  destruct Hx as [<- | [<- | [<- | []]]]; destruct Hs as [<- | [<- | [<- | []]]];
    vm_compute; split; intros H; try reflexivity; discriminate H.
Qed.

Lemma strict_eq_eq x s :
  In x file_size_scales -> In s file_size_scales ->
  Number.strict_eq x s = true <-> x = s.
Proof.
  intros Hx Hs. simpl in Hx, Hs.
  destruct Hx as [<- | [<- | [<- | []]]]; destruct Hs as [<- | [<- | [<- | []]]];
    vm_compute; split; intros H; try reflexivity; discriminate H.
Qed.

Lemma includes_In l s :
  incl l file_size_scales -> In s file_size_scales ->
  existsb (fun x => Number.same_value_zero x s) l = true <-> In s l.
Proof.
  intros Hincl Hs. rewrite existsb_exists. split.
  - intros (x & Hx & E). apply same_value_zero_eq in E; auto. now subst.
  - intros Hin. exists s. split; auto. apply same_value_zero_eq; auto.
Qed.

Lemma filter_other_In l s x :
  incl l file_size_scales -> In s file_size_scales ->
  In x (filter (fun y => negb (Number.strict_eq y s)) l) <-> In x l /\ x <> s.
Proof.
  intros Hincl Hs. rewrite filter_In. split; intros [Hx H]; split; auto.
  - intros E. apply negb_true_iff in H.
    apply (strict_eq_eq x s) in E; auto. congruence.
  - apply negb_true_iff. destruct (Number.strict_eq x s) eqn:E; auto.
    apply strict_eq_eq in E; auto. contradiction.
Qed.

Lemma toggle_In l s x :
  incl l file_size_scales -> In s file_size_scales ->
  In x (toggle s l) <->
  (In s l /\ In x l /\ x <> s) \/ (~ In s l /\ (In x l \/ x = s)).
Proof.
  intros Hincl Hs. unfold toggle.
  destruct (existsb (fun y => Number.same_value_zero y s) l) eqn:E.
  - apply includes_In in E; auto. rewrite filter_other_In by auto. tauto.
  - assert (~ In s l) as Hnin.
    { intros Hin. apply includes_In in Hin; auto. congruence. }
    rewrite array_sort_In, in_app_iff. simpl. intuition auto.
Qed.

Lemma toggle_ok l s :
  selection_ok l -> In s file_size_scales -> selection_ok (toggle s l).
Proof.
  intros [Hs Hincl] Hin. split.
  - unfold toggle.
    destruct (existsb (fun y => Number.same_value_zero y s) l) eqn:E.
    + now apply by_rank_sorted_filter.
    + assert (~ In s l) as Hnin.
      { intros H. apply includes_In in H; auto. congruence. }
      apply array_sort_sorted.
      * apply NoDup_app; [now apply by_rank_sorted_NoDup | repeat constructor; auto | ].
        intros z Hz [<- | []]. contradiction.
      * intros z Hz. apply in_app_iff in Hz as [Hz | [<- | []]]; auto.
  - intros z Hz. apply toggle_In in Hz; auto.
    destruct Hz as [(_ & Hz & _) | (_ & [Hz | ->])]; auto.
Qed.

Lemma number_eq_dec (a b : number) : {a = b} + {a <> b}.
Proof.
  unfold number in *. decide equality;
    try apply Z.eq_dec; try apply Pos.eq_dec; apply Bool.bool_dec.
Defined.

Lemma toggle_twice l s :
  selection_ok l -> In s file_size_scales -> toggle s (toggle s l) = l.
Proof.
  intros Hok Hin. pose proof (toggle_ok l s Hok Hin) as Hok1.
  pose proof (toggle_ok _ s Hok1 Hin) as Hok2.
  destruct Hok as [Hs Hincl]. destruct Hok1 as [Hs1 Hincl1].
  apply by_rank_sorted_unique; auto; try apply Hok2.
  intros x. rewrite !toggle_In by auto.
  destruct (In_dec number_eq_dec s l) as [I | I];
    destruct (number_eq_dec x s) as [E | E];
    try subst x; tauto.
Qed.

Lemma initial_selection_ok : selection_ok (selectedFileSizeScales initialState).
Proof.
  split.
  - simpl. repeat constructor; vm_compute; lia.
  - intros z Hz. exact Hz.
Qed.

Lemma toggles_ok scales :
  forall st,
    selection_ok (selectedFileSizeScales st) ->
    Forall (fun s => In s file_size_scales) scales ->
    selection_ok (selectedFileSizeScales (toggles scales st)).
Proof.
  induction scales as [|s scales IH]; intros st Hok Hall; simpl.
  - exact Hok.
  - inversion Hall; subst. apply IH; auto. now apply toggle_ok.
Qed.

Lemma handleFileSizeToggle_twice st s :
  selection_ok (selectedFileSizeScales st) -> In s file_size_scales ->
  handleFileSizeToggle (handleFileSizeToggle st s) s = st.
Proof.
  intros Hok Hs. destruct st. unfold handleFileSizeToggle. cbn in *.
  f_equal. now apply toggle_twice.
Qed.

(** ** The handlers *)

Section Handlers.

Variable encoder :
  HTMLImageElement -> Z -> Z -> string -> option number -> list Byte.byte.
Variable readAsDataURL : File -> option string.
Variable decodeImage : string -> option (Z * Z).

(** *** [resizeImage] and [handleConvert] in closed form *)

Lemma output_mimeType_cases originalType :
  output_mimeType originalType = "image/png"
  \/ output_mimeType originalType = "image/jpeg".
Proof.
  unfold output_mimeType. destruct (String.eqb originalType "image/png"); auto.
Qed.

Lemma split_data_url mimeType text :
  mimeType = "image/png" \/ mimeType = "image/jpeg" ->
  all_chars not_comma text = true ->
  nth_error (split_on "," ("data:" ++ mimeType ++ ";base64," ++ text)) 1
  = Some text.
Proof.
  intros [-> | ->] Htext; simpl; rewrite (split_on_no_separator _ Htext);
    reflexivity.
Qed.

Lemma dataUrl_text img w h originalType quality :
  nth_error
    (split_on ","
       (canvas_toDataURL encoder img w h (output_mimeType originalType) quality)) 1
  = Some (base64_encode
            (encoded_payload encoder img w h (output_mimeType originalType) quality)).
Proof.
  unfold canvas_toDataURL, encoded_payload.
  destruct ((Number.to_uint32 w =? 0) || (Number.to_uint32 h =? 0)).
  - reflexivity.
  - apply split_data_url.
    + apply output_mimeType_cases.
    + apply base64_encode_no_comma.
Qed.

Lemma resizeImage_resolves img scale originalType :
  resizeImage encoder img scale originalType
  = (Some (resized encoder img scale originalType),
     canvas_effects img scale originalType).
Proof.
  unfold resizeImage. cbv zeta. rewrite dataUrl_text. reflexivity.
Qed.

Lemma convert_loop_closed img info widthScale scales :
  forall results,
    convert_loop encoder img info widthScale (find_widthOption widthScale)
                 scales results
    = (Some (results
               ++ flat_map (variants_of encoder img info widthScale) scales)%list,
       flat_map (effects_of img info widthScale) scales).
Proof.
  induction scales as [|f scales IH]; intros results; simpl.
  - now rewrite app_nil_r.
  - unfold variants_of at 1, effects_of at 1.
    destruct (find_fileSizeOption f) as [fo|].
    + rewrite resizeImage_resolves, IH, <- app_assoc. reflexivity.
    + apply IH.
Qed.

Lemma handleConvert_closed st img info :
  loadedImage st = Some img -> originalInfo st = Some info ->
  selectedFileSizeScales st <> [] ->
  let sorted := array_sort descending (selectedFileSizeScales st) in
  handleConvert encoder st
  = ({| originalImage := originalImage st;
        originalInfo := originalInfo st;
        resizedImages :=
          flat_map (variants_of encoder img info (selectedWidthScale st)) sorted;
        isProcessing := false;
        selectedWidthScale := selectedWidthScale st;
        selectedFileSizeScales := sorted;
        loadedImage := loadedImage st |},
     flat_map (effects_of img info (selectedWidthScale st)) sorted).
Proof.
  intros Himg Hinfo Hsel. unfold handleConvert. rewrite Himg, Hinfo.
  destruct (selectedFileSizeScales st) as [|f l] eqn:E; [contradiction|].
  cbn [List.length Nat.eqb]. cbv zeta.
  rewrite convert_loop_closed. reflexivity.
Qed.

(** *** The generated variants *)

Lemma find_widthOption_In w :
  In w width_scales ->
  exists wo, find_widthOption w = Some wo
             /\ In wo WIDTH_SCALE_OPTIONS /\ wo_value wo = w.
Proof.
  intros Hw. simpl in Hw.
  destruct Hw as [<- | [<- | [<- | [<- | [<- | []]]]]];
    eexists; (split; [vm_compute; reflexivity |]);
    (split; [simpl; tauto | reflexivity]).
Qed.

Lemma find_fileSizeOption_In f :
  In f file_size_scales ->
  exists fo, find_fileSizeOption f = Some fo
             /\ In fo FILE_SIZE_OPTIONS /\ fo_value fo = f.
Proof.
  intros Hf. simpl in Hf.
  destruct Hf as [<- | [<- | [<- | []]]];
    eexists; (split; [vm_compute; reflexivity |]);
    (split; [simpl; tauto | reflexivity]).
Qed.

Lemma In_not_nil {A} (x : A) l : In x l -> l <> [].
Proof. intros H ->. exact H. Qed.

(** C1.  For a loaded image of native size W by H, a selected
    width-scale w of the table and a selected file-size-scale f of
    the table, the generator emits a variant for the pair (w, f),
    identified by the two options, whose width is
    [Math.round(W * (w * f))] and whose height is
    [Math.round(H * (w * f))]: the combined scale is the product of
    the two scales and each axis is rounded on its own, to the integer
    nearest to the product the browser computed. *)
Theorem C1_variant_dimensions st img info w f :
  loadedImage st = Some img ->
  originalInfo st = Some info ->
  selectedWidthScale st = w ->
  In w width_scales ->
  In f (selectedFileSizeScales st) ->
  In f file_size_scales ->
  exists wo fo v,
    In wo WIDTH_SCALE_OPTIONS /\ wo_value wo = w
    /\ In fo FILE_SIZE_OPTIONS /\ fo_value fo = f
    /\ In v (resizedImages (fst (handleConvert encoder st)))
    /\ id v = (wo_label wo ++ "-" ++ fo_ratio fo)%string
    /\ width v
       = Number.round (Number.mul (Number.of_Z (img_width img))
                                  (Number.mul w f))
    /\ height v
       = Number.round (Number.mul (Number.of_Z (img_height img))
                                  (Number.mul w f))
    /\ (0 <= img_width img < 2 ^ 53 ->
        exists n,
          Number.to_Z (width v) = Some n
          /\ nearest_integer n (Number.mul (Number.of_Z (img_width img))
                                           (Number.mul w f)))
    /\ (0 <= img_height img < 2 ^ 53 ->
        exists n,
          Number.to_Z (height v) = Some n
          /\ nearest_integer n (Number.mul (Number.of_Z (img_height img))
                                           (Number.mul w f))).
Proof.
  intros Himg Hinfo Hw Hwin Hsel Hfin.
  destruct (find_widthOption_In w Hwin) as (wo & Fw & Iw & Vw).
  destruct (find_fileSizeOption_In f Hfin) as (fo & Ff & If & Vf).
  exists wo, fo.
  exists (variant (Some wo) fo
            (resized encoder img (Number.mul w f) (info_type info))).
  destruct (combined_scale_ok w f Hwin Hfin) as [_ Hc].
  repeat (split; [assumption|]).
  split; [|split; [reflexivity|]; split; [reflexivity|]; split; [reflexivity|];
           split; intros Hside; now apply scaled_dimension_nearest].
  rewrite (handleConvert_closed st img info Himg Hinfo
             (In_not_nil f _ Hsel)).
  cbn [fst resizedImages]. apply in_flat_map. exists f. split.
  - now apply array_sort_In.
  - unfold variants_of. rewrite Hw, Ff, Fw. now left.
Qed.

(** *** The size estimate *)

Lemma payload_of_resized img scale originalType :
  payload_of_dataUrl (r_dataUrl (resized encoder img scale originalType))
  = Some (variant_payload encoder img scale originalType).
Proof.
  unfold payload_of_dataUrl, resized, variant_payload. cbn [r_dataUrl].
  rewrite dataUrl_text. apply base64_decode_encode.
Qed.

Lemma estimate_of_length n :
  0 <= n < 2 ^ 50 ->
  3 * (4 * ((n + 2) / 3)) < 2 ^ 53
  /\ (3 * (4 * ((n + 2) / 3)) + 2) / 4 = 3 * ((n + 2) / 3).
Proof.
  intros [Hlo Hhi].
  assert (0 <= (n + 2) / 3) by (apply Z.div_pos; lia).
  assert (3 * ((n + 2) / 3) <= n + 2) by (apply Z.mul_div_le; lia).
  split.
  - change (2 ^ 53) with (8 * 2 ^ 50). change (2 ^ 50) with (2 * 2 ^ 49) in *.
    lia.
  - replace (3 * (4 * ((n + 2) / 3)) + 2)
      with (2 + (3 * ((n + 2) / 3)) * 4) by ring.
    rewrite Z.div_add by lia. reflexivity.
Qed.

Lemma estimate_of_payload (payload : list Byte.byte) :
  Z.of_nat (List.length payload) < 2 ^ 50 ->
  Number.to_Z (estimate_fileSize (base64_encode payload))
  = Some (3 * ((Z.of_nat (List.length payload) + 2) / 3)).
Proof.
  intros Hlen.
  destruct (estimate_of_length (Z.of_nat (List.length payload)))
    as [Hbound Hvalue]; [lia|].
  rewrite estimate_fileSize_value; rewrite base64_encode_length.
  - now rewrite Hvalue.
  - exact Hbound.
Qed.

(** C2, amended.  The data URL of every generated variant carries the
    base64 text of the file the encoder wrote, its estimated size is
    [Math.round(3 * L / 4)] for the length [L] of that text, hence a
    function of the payload alone, and for a payload of [n] bytes it
    is [n] rounded up to a multiple of three: the padding characters
    are counted, so the estimate is the byte count only when [n] is
    a multiple of three. *)
Theorem C2_estimate_from_payload st img info v :
  loadedImage st = Some img ->
  originalInfo st = Some info ->
  selectedFileSizeScales st <> [] ->
  In v (resizedImages (fst (handleConvert encoder st))) ->
  exists payload,
    payload_of_dataUrl (dataUrl v) = Some payload
    /\ fileSize v = estimate_fileSize (base64_encode payload)
    /\ (Z.of_nat (List.length payload) < 2 ^ 50 ->
        Number.to_Z (fileSize v)
        = Some (3 * ((Z.of_nat (List.length payload) + 2) / 3))).
Proof.
  intros Himg Hinfo Hsel Hv.
  rewrite (handleConvert_closed st img info Himg Hinfo Hsel) in Hv.
  cbn [fst resizedImages] in Hv.
  apply in_flat_map in Hv as (f & _ & Hv). unfold variants_of in Hv.
  destruct (find_fileSizeOption f) as [fo|]; [|contradiction].
  destruct Hv as [<- | []].
  exists (variant_payload encoder img
            (Number.mul (selectedWidthScale st) f) (info_type info)).
  cbn [variant dataUrl fileSize].
  split; [apply payload_of_resized|].
  split; [reflexivity|].
  intros Hlen. cbn [resized r_fileSize]. now apply estimate_of_payload.
Qed.

(** *** A 1000 by 800 image *)

(** C3.  A 1000 by 800 source at width-scale 1.0 with the three file
    sizes selected yields, in this order, 707 by 566 for 1/sqrt 2,
    500 by 400 for 1/2 and 354 by 283 for 1/sqrt 8. *)
Theorem C3_dimensions_1000x800 src name type size :
  map (fun v => (id v, Number.to_Z (width v), Number.to_Z (height v)))
      (resizedImages
         (fst (handleConvert encoder (loaded_1000x800 src name type size))))
  = [ ("100%-1-2", Some 707, Some 566);
      ("100%-1-4", Some 500, Some 400);
      ("100%-1-8", Some 354, Some 283) ].
Proof.
  rewrite (handleConvert_closed (loaded_1000x800 src name type size)
             {| img_src := src; img_width := 1000; img_height := 800 |}
             {| info_name := name; info_width := 1000; info_height := 800;
                info_fileSize := size; info_type := type |}
             eq_refl eq_refl)
    by discriminate.
  vm_compute. reflexivity.
Qed.

(** *** The encoding *)





(** *** The order of generation *)

Lemma variants_one_per_scale img info w scales :
  incl scales file_size_scales ->
  Forall2 (variant_for encoder img info w) scales
          (flat_map (variants_of encoder img info w) scales).
Proof.
  induction scales as [|f scales IH]; intros Hincl; simpl.
  - constructor.
  - destruct (find_fileSizeOption_In f (Hincl f (or_introl eq_refl)))
      as (fo & Ff & If & Vf).
    unfold variants_of at 1. rewrite Ff. simpl. constructor.
    + exists fo. auto.
    + apply IH. intros z Hz. apply Hincl. now right.
Qed.

Lemma effects_one_per_scale img info w scales :
  incl scales file_size_scales ->
  flat_map (effects_of img info w) scales
  = flat_map (fun f => canvas_effects img (Number.mul w f) (info_type info))
             scales.
Proof.
  induction scales as [|f scales IH]; intros Hincl; cbn [flat_map].
  - reflexivity.
  - destruct (find_fileSizeOption_In f (Hincl f (or_introl eq_refl)))
      as (fo & Ff & _).
    unfold effects_of at 1. rewrite Ff. f_equal.
    apply IH. intros z Hz. apply Hincl. now right.
Qed.

Lemma array_sort_same_members l1 l2 :
  NoDup l1 -> incl l1 file_size_scales ->
  NoDup l2 -> incl l2 file_size_scales ->
  same_members l1 l2 ->
  array_sort descending l1 = array_sort descending l2.
Proof.
  intros N1 I1 N2 I2 Hsame. apply by_rank_sorted_unique.
  - now apply array_sort_sorted.
  - now apply array_sort_sorted.
  - intros x. rewrite !array_sort_In. apply Hsame.
Qed.

Lemma toggles_state scales :
  forall st,
    toggles scales st
    = {| originalImage := originalImage st;
         originalInfo := originalInfo st;
         resizedImages := resizedImages st;
         isProcessing := isProcessing st;
         selectedWidthScale := selectedWidthScale st;
         selectedFileSizeScales :=
           selectedFileSizeScales (toggles scales st);
         loadedImage := loadedImage st |}.
Proof.
  induction scales as [|s scales IH]; intros st.
  - now destruct st.
  - unfold toggles in *. simpl. rewrite IH at 1. reflexivity.
Qed.

(** C5.  For a non-empty, duplicate-free selection of file-size-scales
    of the table, the generator sorts the selection into strictly
    descending order and emits exactly one variant per selected
    scale, drawing and encoding them in that order; the output
    depends on the members of the selection only, and two runs of
    toggles that select the same scales leave the same state. *)
Theorem C5_one_variant_per_scale_descending st img info :
  loadedImage st = Some img ->
  originalInfo st = Some info ->
  selectedFileSizeScales st <> [] ->
  NoDup (selectedFileSizeScales st) ->
  incl (selectedFileSizeScales st) file_size_scales ->
  (exists sorted,
      Permutation sorted (selectedFileSizeScales st)
      /\ strictly_descending sorted
      /\ Forall2 (variant_for encoder img info (selectedWidthScale st))
                 sorted (resizedImages (fst (handleConvert encoder st)))
      /\ snd (handleConvert encoder st)
         = flat_map
             (fun f => canvas_effects img
                         (Number.mul (selectedWidthScale st) f)
                         (info_type info))
             sorted)
  /\ (forall st',
        loadedImage st' = Some img ->
        originalInfo st' = Some info ->
        selectedWidthScale st' = selectedWidthScale st ->
        NoDup (selectedFileSizeScales st') ->
        incl (selectedFileSizeScales st') file_size_scales ->
        same_members (selectedFileSizeScales st')
                     (selectedFileSizeScales st) ->
        resizedImages (fst (handleConvert encoder st'))
        = resizedImages (fst (handleConvert encoder st))
        /\ snd (handleConvert encoder st') = snd (handleConvert encoder st))
  /\ (forall scales1 scales2,
        selection_ok (selectedFileSizeScales st) ->
        Forall (fun s => In s file_size_scales) scales1 ->
        Forall (fun s => In s file_size_scales) scales2 ->
        same_members (selectedFileSizeScales (toggles scales1 st))
                     (selectedFileSizeScales (toggles scales2 st)) ->
        toggles scales1 st = toggles scales2 st).
Proof.
  intros Himg Hinfo Hsel Hnd Hincl.
  assert (incl (array_sort descending (selectedFileSizeScales st))
               file_size_scales) as Hincl'.
  { intros z Hz. apply array_sort_In in Hz. now apply Hincl. }
  rewrite (handleConvert_closed st img info Himg Hinfo Hsel).
  cbn [fst snd resizedImages].
  split; [|split].
  - exists (array_sort descending (selectedFileSizeScales st)).
    split; [apply array_sort_perm|].
    split; [apply by_rank_descending; auto; now apply array_sort_sorted|].
    split; [now apply variants_one_per_scale|].
    now apply effects_one_per_scale.
  - intros st' Himg' Hinfo' Hw' Hnd' Hincl'' Hsame.
    assert (selectedFileSizeScales st' <> []) as Hsel'.
    { destruct (selectedFileSizeScales st) as [|f l]; [contradiction|].
      apply (In_not_nil f). apply Hsame. now left. }
    rewrite (handleConvert_closed st' img info Himg' Hinfo' Hsel').
    cbn [fst snd resizedImages].
    rewrite Hw', (array_sort_same_members _ _ Hnd' Hincl'' Hnd Hincl Hsame).
    split; reflexivity.
  - intros scales1 scales2 Hok H1 H2 Hsame.
    rewrite (toggles_state scales1), (toggles_state scales2). f_equal.
    apply by_rank_sorted_unique; auto; now apply toggles_ok.
Qed.

(** *** The guards *)

(** C6.  With an empty selection [handleConvert] returns at once: the
    state, and with it the list of variants, is left as it was, and
    nothing is drawn or encoded. *)
Theorem C6_empty_selection_no_op st :
  selectedFileSizeScales st = [] ->
  handleConvert encoder st = (st, []).
Proof.
  intros Hsel. unfold handleConvert. rewrite Hsel.
  destruct (loadedImage st), (originalInfo st); reflexivity.
Qed.

(** C7.  A file whose declared type does not start with "image/" is
    rejected with an alert and no state cell changes. *)
Theorem C7_non_image_rejected st file :
  String.prefix "image/" (file_type file) = false ->
  handleFileChange readAsDataURL decodeImage st (Some file)
  = (st, [Alert "画像ファイルを選択してください"]).
Proof.
  intros Htype. unfold handleFileChange. now rewrite Htype.
Qed.

(** *** Reachable states *)

Lemma handleFileChange_cases st file :
  let st' := fst (handleFileChange readAsDataURL decodeImage st file) in
  selectedWidthScale st' = selectedWidthScale st
  /\ selectedFileSizeScales st' = selectedFileSizeScales st
  /\ (st' = st \/ resizedImages st' = []).
Proof.
  unfold handleFileChange. destruct file as [f|]; [|now auto].
  destruct (negb (String.prefix "image/" (file_type f))); [now auto|].
  destruct (readAsDataURL f) as [url|]; [|now auto].
  destruct (decodeImage url) as [[w h]|]; now auto.
Qed.

Lemma handleConvert_cases st :
  selection_ok (selectedFileSizeScales st) ->
  let st' := fst (handleConvert encoder st) in
  selectedWidthScale st' = selectedWidthScale st
  /\ selectedFileSizeScales st' = selectedFileSizeScales st
  /\ loadedImage st' = loadedImage st
  /\ (st' = st
      \/ exists img info,
          loadedImage st = Some img /\ originalInfo st = Some info
          /\ resizedImages st'
             = flat_map (variants_of encoder img info (selectedWidthScale st))
                        (selectedFileSizeScales st)).
Proof.
  intros [Hs Hincl].
  destruct (loadedImage st) as [img|] eqn:Himg;
    [|unfold handleConvert; rewrite Himg; now auto].
  destruct (originalInfo st) as [info|] eqn:Hinfo;
    [|unfold handleConvert; rewrite Himg, Hinfo; now auto].
  destruct (selectedFileSizeScales st) as [|f l] eqn:Hsel;
    [unfold handleConvert; rewrite Himg, Hinfo, Hsel; now auto|].
  rewrite (handleConvert_closed st img info Himg Hinfo)
    by (rewrite Hsel; discriminate).
  rewrite Hsel, (array_sort_sorted_id _ Hs Hincl). cbn.
  repeat split; auto. right. exists img, info. auto.
Qed.

Lemma variants_of_from img info w f v :
  In w width_scales -> In f file_size_scales ->
  In v (variants_of encoder img info w f) -> variant_from img v.
Proof.
  intros Hw Hf Hv. unfold variants_of in Hv.
  destruct (find_fileSizeOption f) as [fo|]; [|contradiction].
  destruct Hv as [<- | []]. exists w, f. repeat split; auto.
Qed.

(** What every reachable state satisfies: the selected width-scale is
    a value of its table; the selected file-size-scales are values of
    theirs, in the order of the table; the variants on display were
    made from the loaded image with scales of the two tables. *)
Lemma reachable_invariant st :
  reachable encoder readAsDataURL decodeImage st ->
  In (selectedWidthScale st) width_scales
  /\ selection_ok (selectedFileSizeScales st)
  /\ (forall v, In v (resizedImages st) ->
                exists img, loadedImage st = Some img /\ variant_from img v).
Proof.
  induction 1 as [|st ev Hr (IHw & IHs & IHv) Hev].
  - split; [simpl; tauto | split; [apply initial_selection_ok|]].
    intros v [].
  - destruct ev as [file | o | o |]; cbn [step rendered] in *.
    + destruct (handleFileChange_cases st file) as (Ew & Es & Hcase).
      split; [now rewrite Ew | split; [now rewrite Es|]].
      destruct Hcase as [-> | ->]; [exact IHv | intros v []].
    + split; [exact (in_map wo_value _ _ Hev) | split; [exact IHs | exact IHv]].
    + split; [exact IHw | split; [|exact IHv]].
      apply toggle_ok; auto. exact (in_map fo_value _ _ Hev).
    + destruct (handleConvert_cases st IHs) as (Ew & Es & Ei & Hcase).
      split; [now rewrite Ew | split; [now rewrite Es|]].
      destruct Hcase as [-> | (img & info & Himg & Hinfo & ->)]; [exact IHv|].
      intros v Hv. apply in_flat_map in Hv as (f & Hf & Hv).
      exists img. split; [now rewrite Ei|].
      apply (variants_of_from img info (selectedWidthScale st) f); auto.
      now apply IHs.
Qed.


(** *** Downloads *)


Lemma extension_at_head_tail c s :
  extension_at_head (String c s) = true ->
  all_chars not_slash_or_dot s = true.
Proof.
  unfold extension_at_head.
  destruct (Ascii.eqb_spec c "."%char) as [-> | Hne].
  - destruct s as [|c' rest]; [discriminate|]. simpl. auto.
  - destruct c as [[] [] [] [] [] [] [] []]; try discriminate;
      destruct s; try discriminate; contradiction.
Qed.



End Handlers.

(** C10.  After any run of [handleFileSizeToggle] calls with scales of
    the table, starting from the initial state, the selected list is
    strictly descending, free of duplicates and within the three values
    of the table; toggling a scale twice more gives the same state
    back. *)
Theorem C10_toggle_invariant scales :
  Forall (fun s => In s file_size_scales) scales ->
  strictly_descending (selectedFileSizeScales (toggles scales initialState))
  /\ NoDup (selectedFileSizeScales (toggles scales initialState))
  /\ incl (selectedFileSizeScales (toggles scales initialState))
          file_size_scales
  /\ forall s,
      In s file_size_scales ->
      handleFileSizeToggle
        (handleFileSizeToggle (toggles scales initialState) s) s
      = toggles scales initialState.
Proof.
  intros Hall.
  pose proof (toggles_ok scales initialState initial_selection_ok Hall) as Hok.
  split; [|split; [|split]].
  - apply by_rank_descending; apply Hok.
  - apply by_rank_sorted_NoDup, Hok.
  - apply Hok.
  - intros s Hs. now apply handleFileSizeToggle_twice.
Qed.

Lemma reachable_run encoder readAsDataURL decodeImage events :
  Forall rendered events ->
  forall st,
    reachable encoder readAsDataURL decodeImage st ->
    reachable encoder readAsDataURL decodeImage
              (fold_left (step encoder readAsDataURL decodeImage) events st).
Proof.
  induction 1 as [|ev events Hev _ IH]; intros st Hst; simpl.
  - exact Hst.
  - apply IH. now constructor.
Qed.

(** ** The first revision *)

Lemma first_revision_fileName info url ratio :
  FirstRevision.handleDownload (Some info) url ratio
  = [ Download url
        (strip_extension (info_name info) ++ "_"
           ++ FirstRevision.replace_slash ratio ++ "." ++ extension_of info) ].
Proof. reflexivity. Qed.

Example first_revision_download :
  FirstRevision.handleDownload
    (Some {| info_name := "photo.jpeg"; info_width := 1000;
             info_height := 800; info_fileSize := 4096;
             info_type := "image/jpeg" |})
    "data:," "1/2"
  = [Download "data:," "photo_1-2.jpg"].
Proof. reflexivity. Qed.

(** ** The example session: witnesses and counterexamples *)

Lemma example_variant :
  resizedImages (fst (handleConvert example_encoder example_state))
  = [example_resized].
Proof. vm_compute. reflexivity. Qed.

Lemma C1_variant_dimensions_witness :
  loadedImage example_state = Some example_image
  /\ originalInfo example_state = Some example_info
  /\ selectedWidthScale example_state = Number.decimal 10 10
  /\ In (Number.decimal 10 10) width_scales
  /\ In inv_sqrt8 (selectedFileSizeScales example_state)
  /\ In inv_sqrt8 file_size_scales
  /\ exists wo fo v,
      In wo WIDTH_SCALE_OPTIONS /\ wo_value wo = Number.decimal 10 10
      /\ In fo FILE_SIZE_OPTIONS /\ fo_value fo = inv_sqrt8
      /\ In v (resizedImages (fst (handleConvert example_encoder example_state)))
      /\ id v = (wo_label wo ++ "-" ++ fo_ratio fo)%string
      /\ width v
         = Number.round (Number.mul (Number.of_Z (img_width example_image))
                                    (Number.mul (Number.decimal 10 10) inv_sqrt8))
      /\ height v
         = Number.round (Number.mul (Number.of_Z (img_height example_image))
                                    (Number.mul (Number.decimal 10 10) inv_sqrt8))
      /\ (0 <= img_width example_image < 2 ^ 53 ->
          exists n,
            Number.to_Z (width v) = Some n
            /\ nearest_integer
                 n (Number.mul (Number.of_Z (img_width example_image))
                               (Number.mul (Number.decimal 10 10) inv_sqrt8)))
      /\ (0 <= img_height example_image < 2 ^ 53 ->
          exists n,
            Number.to_Z (height v) = Some n
            /\ nearest_integer
                 n (Number.mul (Number.of_Z (img_height example_image))
                               (Number.mul (Number.decimal 10 10) inv_sqrt8))).
Proof.
  assert (In (Number.decimal 10 10) width_scales) as Hw by (simpl; tauto).
  assert (In inv_sqrt8 file_size_scales) as Hf by (simpl; tauto).
  assert (In inv_sqrt8 (selectedFileSizeScales example_state)) as Hs
      by (vm_compute; tauto).
  repeat (split; [first [reflexivity | assumption] |]).
  exact (C1_variant_dimensions example_encoder example_state example_image
           example_info (Number.decimal 10 10) inv_sqrt8
           eq_refl eq_refl eq_refl Hw Hs Hf).
Defined.

(** C2 fails for the one-pixel variant of the example session: the
    payload its data URL decodes to has 68 bytes, its estimated size
    is 69. *)
Lemma C2_counterexample :
  exists v bytes,
    resizedImages (fst (handleConvert example_encoder example_state)) = [v]
    /\ payload_of_dataUrl (dataUrl v) = Some bytes
    /\ List.length bytes = 68%nat
    /\ Number.to_Z (fileSize v) = Some 69
    /\ ~ fileSize_is_payload_length v.
Proof.
  exists example_resized, example_payload.
  split; [apply example_variant|].
  split; [vm_compute; reflexivity|].
  split; [vm_compute; reflexivity|].
  split; [vm_compute; reflexivity|].
  intros (bytes & Hbytes & Hsize).
  assert (payload_of_dataUrl (dataUrl example_resized) = Some example_payload)
    as Hp by (vm_compute; reflexivity).
  rewrite Hp in Hbytes. injection Hbytes as <-.
  vm_compute in Hsize. discriminate Hsize.
Qed.

Lemma C2_estimate_from_payload_witness :
  loadedImage example_state = Some example_image
  /\ originalInfo example_state = Some example_info
  /\ selectedFileSizeScales example_state <> []
  /\ In example_resized
        (resizedImages (fst (handleConvert example_encoder example_state)))
  /\ exists payload,
      payload_of_dataUrl (dataUrl example_resized) = Some payload
      /\ fileSize example_resized = estimate_fileSize (base64_encode payload)
      /\ (Z.of_nat (List.length payload) < 2 ^ 50 ->
          Number.to_Z (fileSize example_resized)
          = Some (3 * ((Z.of_nat (List.length payload) + 2) / 3))).
Proof.
  assert (selectedFileSizeScales example_state <> []) as Hsel
      by (vm_compute; discriminate).
  assert (In example_resized
             (resizedImages (fst (handleConvert example_encoder example_state))))
    as Hin by (vm_compute; left; reflexivity).
  split; [reflexivity|]. split; [reflexivity|].
  split; [exact Hsel|]. split; [exact Hin|].
  exact (C2_estimate_from_payload example_encoder example_state example_image
           example_info example_resized eq_refl eq_refl Hsel Hin).
Defined.


Lemma C5_one_variant_per_scale_descending_witness :
  loadedImage example_full_state = Some example_image
  /\ originalInfo example_full_state = Some example_info
  /\ selectedFileSizeScales example_full_state <> []
  /\ NoDup (selectedFileSizeScales example_full_state)
  /\ incl (selectedFileSizeScales example_full_state) file_size_scales
  /\ (exists sorted,
        Permutation sorted (selectedFileSizeScales example_full_state)
        /\ strictly_descending sorted
        /\ Forall2 (variant_for example_encoder example_image example_info
                                (selectedWidthScale example_full_state))
                   sorted
                   (resizedImages
                      (fst (handleConvert example_encoder example_full_state)))
        /\ snd (handleConvert example_encoder example_full_state)
           = flat_map
               (fun f => canvas_effects example_image
                           (Number.mul (selectedWidthScale example_full_state) f)
                           (info_type example_info))
               sorted)
  /\ (forall st',
        loadedImage st' = Some example_image ->
        originalInfo st' = Some example_info ->
        selectedWidthScale st' = selectedWidthScale example_full_state ->
        NoDup (selectedFileSizeScales st') ->
        incl (selectedFileSizeScales st') file_size_scales ->
        same_members (selectedFileSizeScales st')
                     (selectedFileSizeScales example_full_state) ->
        resizedImages (fst (handleConvert example_encoder st'))
        = resizedImages (fst (handleConvert example_encoder example_full_state))
        /\ snd (handleConvert example_encoder st')
           = snd (handleConvert example_encoder example_full_state))
  /\ (forall scales1 scales2,
        selection_ok (selectedFileSizeScales example_full_state) ->
        Forall (fun s => In s file_size_scales) scales1 ->
        Forall (fun s => In s file_size_scales) scales2 ->
        same_members
          (selectedFileSizeScales (toggles scales1 example_full_state))
          (selectedFileSizeScales (toggles scales2 example_full_state)) ->
        toggles scales1 example_full_state = toggles scales2 example_full_state).
Proof.
  assert (selectedFileSizeScales example_full_state <> []) as H1
      by (vm_compute; discriminate).
  assert (NoDup (selectedFileSizeScales example_full_state)) as H2.
  { repeat constructor; vm_compute; intuition discriminate. }
  assert (incl (selectedFileSizeScales example_full_state) file_size_scales)
    as H3 by (intros z Hz; exact Hz).
  split; [reflexivity|]. split; [reflexivity|].
  split; [exact H1|]. split; [exact H2|]. split; [exact H3|].
  exact (C5_one_variant_per_scale_descending example_encoder
           example_full_state example_image example_info
           eq_refl eq_refl H1 H2 H3).
Defined.

Lemma C6_empty_selection_no_op_witness :
  selectedFileSizeScales example_cleared_state = []
  /\ handleConvert example_encoder example_cleared_state
     = (example_cleared_state, []).
Proof.
  split; [reflexivity|].
  exact (C6_empty_selection_no_op example_encoder example_cleared_state eq_refl).
Defined.

Lemma C7_non_image_rejected_witness :
  String.prefix "image/" (file_type example_text_file) = false
  /\ handleFileChange example_reader example_decoder example_state
                      (Some example_text_file)
     = (example_state, [Alert "画像ファイルを選択してください"]).
Proof.
  split; [reflexivity|].
  exact (C7_non_image_rejected example_reader example_decoder example_state
           example_text_file eq_refl).
Defined.




Lemma C10_toggle_invariant_witness :
  Forall (fun s => In s file_size_scales) [one_half; inv_sqrt8; one_half]
  /\ strictly_descending
       (selectedFileSizeScales
          (toggles [one_half; inv_sqrt8; one_half] initialState))
  /\ NoDup (selectedFileSizeScales
              (toggles [one_half; inv_sqrt8; one_half] initialState))
  /\ incl (selectedFileSizeScales
             (toggles [one_half; inv_sqrt8; one_half] initialState))
          file_size_scales
  /\ forall s,
      In s file_size_scales ->
      handleFileSizeToggle
        (handleFileSizeToggle
           (toggles [one_half; inv_sqrt8; one_half] initialState) s) s
      = toggles [one_half; inv_sqrt8; one_half] initialState.
Proof.
  assert (Forall (fun s => In s file_size_scales)
                 [one_half; inv_sqrt8; one_half]) as H
      by (repeat constructor; simpl; tauto).
  split; [exact H | exact (C10_toggle_invariant _ H)].
Defined.

(** * Further properties *)

(** ** The size shown for a byte count *)

(** *** Comparing integers as numbers *)

Lemma digits_monotone a b :
  Zpos a <= Zpos b -> Zpos (digits2_pos a) <= Zpos (digits2_pos b).
Proof.
  intros Hab. pose proof (digits_bounds a) as [Ha _].
  pose proof (digits_bounds b) as [_ Hb].
  assert (2 ^ (Zpos (digits2_pos a) - 1) < 2 ^ Zpos (digits2_pos b)) as H
      by lia.
  apply pow2_lt_inv in H; lia.
Qed.

Lemma lt_of_Z_pos a b :
  Zpos a < 2 ^ 53 -> Zpos b < 2 ^ 53 ->
  Number.lt (Number.of_Z (Zpos a)) (Number.of_Z (Zpos b)) = (Zpos a <? Zpos b).
Proof.
  intros Ha Hb. rewrite !of_Z_pos by assumption.
  unfold Number.lt, SFltb, SFcompare.
  pose proof (mantissa_of_spec a Ha) as Hma.
  pose proof (mantissa_of_spec b Hb) as Hmb.
  destruct (Z.compare_spec (Zpos (digits2_pos a) - 53)
                           (Zpos (digits2_pos b) - 53))
    as [Heq | Hlt | Hgt].
  - replace (Pos.compare_cont Eq (mantissa_of a) (mantissa_of b))
      with (Zpos (mantissa_of a) ?= Zpos (mantissa_of b)) by reflexivity.
    rewrite Hma, Hmb.
    replace (Zpos (digits2_pos b)) with (Zpos (digits2_pos a)) by lia.
    assert (0 < 2 ^ (53 - Zpos (digits2_pos a))) as Hp
        by (apply Z.pow_pos_nonneg; pose proof (digits_le_53 a Ha); lia).
    set (P := 2 ^ (53 - Zpos (digits2_pos a))) in *.
    destruct (Z.ltb_spec (Zpos a) (Zpos b));
      destruct (Z.compare_spec (Zpos a * P) (Zpos b * P)); try reflexivity; nia.
  - symmetry. apply Z.ltb_lt.
    destruct (Z.lt_ge_cases (Zpos a) (Zpos b)) as [|Hge]; auto.
    pose proof (digits_monotone b a Hge). lia.
  - symmetry. apply Z.ltb_ge.
    destruct (Z.lt_ge_cases (Zpos a) (Zpos b)) as [Hl|]; [|lia].
    pose proof (digits_monotone a b ltac:(lia)). lia.
Qed.

(** Integers below 2^53 compare as numbers the way they compare as
    integers. *)
Lemma lt_of_Z a b :
  0 <= a < 2 ^ 53 -> 0 <= b < 2 ^ 53 ->
  Number.lt (Number.of_Z a) (Number.of_Z b) = (a <? b).
Proof.
  intros Ha Hb. destruct a as [|a|a]; destruct b as [|b|b]; try lia.
  - reflexivity.
  - rewrite of_Z_pos by lia. reflexivity.
  - rewrite of_Z_pos by lia. reflexivity.
  - apply lt_of_Z_pos; lia.
Qed.

(** *** Dividing by a power of two *)

Lemma div_pow2 s (M : positive) (E E2 : Z) :
  Zpos (digits2_pos M) = 53 ->
  -1000 <= E - E2 - 52 <= 900 ->
  Number.div (S754_finite s M E) (S754_finite false 4503599627370496 E2)
  = S754_finite s M (E - E2 - 52).
Proof.
  intros Hd HE.
  unfold Number.div, SFdiv, SFdiv_core_binary. cbn [Zdigits2].
  rewrite Hd.
  change (Zpos (digits2_pos 4503599627370496)) with 53.
  rewrite fexp_value.
  replace (Z.min (Z.max (53 + E - (53 + E2) - 53) (-1074)) (E - E2))
    with (E - E2 - 53) by lia.
  replace (E - E2 - (E - E2 - 53)) with 53 by lia.
  cbv beta iota.
  rewrite Z.shiftl_mul_pow2 by lia.
  rewrite div_eucl_div_mod.
  change 4503599627370496 with (2 ^ 52).
  replace (Zpos M * 2 ^ 53) with (2 * Zpos M * 2 ^ 52)
    by (change (2 ^ 53) with (2 * 2 ^ 52); ring).
  rewrite Z.div_mul, Z.mod_mul by (apply Z.pow_nonzero; lia).
  change (new_location (2 ^ 52) 0) with loc_Exact.
  rewrite xorb_false_r.
  change (2 * Zpos M) with (Zpos M~0).
  replace (E - E2 - 53) with (E - E2 - 52 - Z.of_nat 1) by lia.
  apply binary_round_aux_exact.
  - change (2 ^ Z.of_nat 1) with 2. lia.
  - unfold canonical_mantissa. rewrite fexp_value, Hd. apply Z.eqb_eq. lia.
  - unfold Number.emax, Number.prec. lia.
Qed.

(** [b / 2^j] for a positive integer [b] below 2^53. *)
Lemma div_of_Z_pow2 b (j : Z) :
  Zpos b < 2 ^ 53 -> 0 <= j <= 52 ->
  Number.div (Number.of_Z (Zpos b))
             (S754_finite false 4503599627370496 (j - 52))
  = S754_finite false (mantissa_of b) (Zpos (digits2_pos b) - 53 - j).
Proof.
  intros Hb Hj. rewrite of_Z_pos by assumption.
  pose proof (digits_le_53 b Hb). pose proof (digits_bounds b) as [Hlo _].
  assert (1 <= Zpos (digits2_pos b)) by lia.
  rewrite div_pow2 by (rewrite ?mantissa_of_digits by assumption; lia).
  f_equal. lia.
Qed.

(** [toFixed] of [b / 2^j]: the nearest multiple of [10^-f]. *)
Lemma toFixed_of_Z_pow2 b (j : Z) (f : nat) :
  Zpos b < 2 ^ 53 -> 1 <= j <= 52 ->
  NumberText.toFixed
    (S754_finite false (mantissa_of b) (Zpos (digits2_pos b) - 53 - j)) f
  = Some (NumberText.fixed_digits f
            ((2 * Zpos b * 10 ^ Z.of_nat f + 2 ^ j) / 2 ^ (j + 1))).
Proof.
  intros Hb Hj. pose proof (digits_le_53 b Hb) as Hd.
  unfold NumberText.toFixed.
  destruct (Z.leb_spec 0 (Zpos (digits2_pos b) - 53 - j)) as [|_]; [lia|].
  cbv zeta. set (k := - (Zpos (digits2_pos b) - 53 - j)).
  assert (k = (53 - Zpos (digits2_pos b)) + j) as Hk by (unfold k; lia).
  pose proof (mantissa_of_digits b Hb) as Hmd.
  pose proof (digits_bounds (mantissa_of b)) as [_ Hmhi]. rewrite Hmd in Hmhi.
  assert (0 < 2 ^ k) as Hpk by (apply Z.pow_pos_nonneg; lia).
  destruct (Z.leb_spec (10 ^ 21 * 2 ^ k) (Zpos (mantissa_of b))) as [Hbig|_].
  { exfalso. assert (2 ^ 53 < 10 ^ 21 * 1) by (vm_compute; reflexivity). nia. }
  cbn [append]. do 2 f_equal.
  rewrite mantissa_of_spec by assumption.
  set (q := 53 - Zpos (digits2_pos b)) in *.
  assert (0 < 2 ^ q) by (apply Z.pow_pos_nonneg; lia).
  replace (2 ^ k) with (2 ^ j * 2 ^ q)
    by (replace k with (j + q) by lia; rewrite Z.pow_add_r by lia; reflexivity).
  replace (2 ^ (k + 1)) with (2 ^ (j + 1) * 2 ^ q)
    by (replace (k + 1) with ((j + 1) + q) by lia;
        rewrite (Z.pow_add_r 2 (j + 1) q) by lia; reflexivity).
  replace (2 * (Zpos b * 2 ^ q) * 10 ^ Z.of_nat f + 2 ^ j * 2 ^ q)
    with ((2 * Zpos b * 10 ^ Z.of_nat f + 2 ^ j) * 2 ^ q) by ring.
  rewrite Z.div_mul_cancel_r; try lia.
Qed.

Lemma of_Z_1024 :
  Number.of_Z 1024 = S754_finite false 4503599627370496 (10 - 52).
Proof. reflexivity. Qed.

Lemma mebibyte_of_Z :
  Number.mul (Number.of_Z 1024) (Number.of_Z 1024) = Number.of_Z 1048576.
Proof. reflexivity. Qed.

Lemma formatFileSize_of_Z b :
  0 <= b < 2 ^ 53 ->
  formatFileSize (Number.of_Z b) = Some (size_text b).
Proof.
  intros Hb. unfold formatFileSize, size_text.
  rewrite (lt_of_Z b 1024) by (first [exact Hb | split; [lia | reflexivity]]).
  rewrite mebibyte_of_Z.
  rewrite (lt_of_Z b 1048576) by (first [exact Hb | split; [lia | reflexivity]]).
  destruct (Z.ltb_spec b 1024) as [Hsmall | Hkb].
  - (* bytes *)
    destruct b as [|p|p]; try lia; [reflexivity|].
    unfold NumberText.toString.
    rewrite of_Z_pos by lia.
    rewrite (to_Z_integer false p) by lia. cbn [cond_Zopp Z.abs].
    replace (Zpos p <? 10 ^ 21) with true
      by (symmetry; apply Z.ltb_lt;
          change (10 ^ 21) with 1000000000000000000000; lia).
    reflexivity.
  - destruct b as [|p|p]; try lia.
    destruct (Z.ltb_spec (Zpos p) 1048576) as [Hk | Hm].
    + rewrite of_Z_1024, div_of_Z_pow2 by lia.
      rewrite toFixed_of_Z_pow2 by lia. cbn [option_map]. do 3 f_equal.
      change (2 ^ (10 + 1)) with (2 * 1024). change (2 ^ 10) with 1024.
      change (10 ^ Z.of_nat 1) with 10.
      replace (2 * Zpos p * 10 + 1024) with ((10 * Zpos p + 512) * 2) by ring.
      rewrite (Z.mul_comm 2 1024). rewrite Z.div_mul_cancel_r by lia.
      reflexivity.
    + change (Number.of_Z 1048576)
        with (S754_finite false 4503599627370496 (20 - 52)).
      rewrite div_of_Z_pow2 by lia.
      rewrite toFixed_of_Z_pow2 by lia. cbn [option_map]. do 3 f_equal.
      change (2 ^ (20 + 1)) with (2 * 1048576). change (2 ^ 20) with 1048576.
      change (10 ^ Z.of_nat 2) with 100.
      replace (2 * Zpos p * 100 + 1048576)
        with ((100 * Zpos p + 524288) * 2) by ring.
      rewrite (Z.mul_comm 2 1048576). rewrite Z.div_mul_cancel_r by lia.
      reflexivity.
Qed.

(** X1.  What [formatFileSize] shows for a whole byte count [b] below
    2^53: the count itself and "B" below 1024; below 1024 * 1024 the
    number of tenths of 1024 bytes nearest to [b] (a tie going up),
    printed with one fraction digit and "KB"; from there on the number
    of hundredths of 1024 * 1024 bytes nearest to [b], printed with two
    fraction digits and "MB".  The binary64 quotients are exact, so the
    text is the one of exact arithmetic. *)
Theorem X1_formatFileSize_value b :
  0 <= b < 2 ^ 53 ->
  formatFileSize (Number.of_Z b) = Some (size_text b).
Proof. exact (formatFileSize_of_Z b). Qed.

(** X2.  The unit is chosen before the number is rounded: the 51 byte
    counts from 1048525 to 1048575 are below 1024 * 1024, and each is
    shown as "1024.0 KB", not as "1.00 MB". *)
Theorem X2_formatFileSize_unit_boundary b :
  1048525 <= b < 1048576 ->
  formatFileSize (Number.of_Z b) = Some "1024.0 KB".
Proof.
  intros Hb.
  rewrite formatFileSize_of_Z
    by (split; [lia | apply Z.lt_trans with 1048576; [lia | reflexivity]]).
  unfold size_text.
  destruct (Z.ltb_spec b 1024) as [|_]; [lia|].
  destruct (Z.ltb_spec b 1048576) as [_|]; [|lia].
  replace ((10 * b + 512) / 1024) with 10240; [reflexivity|].
  apply Z.div_unique with (r := 10 * b + 512 - 10240 * 1024); lia.
Qed.

(** [Math.round(a / 4)] as a number. *)
Lemma round_quarter_number a :
  Zpos a < 2 ^ 53 ->
  Number.round (Number.div (Number.of_Z (Zpos a)) (Number.of_Z 4))
  = Number.of_Z ((Zpos a + 2) / 4).
Proof.
  intros Ha. rewrite of_Z_pos by assumption.
  pose proof (digits_le_53 a Ha) as Hd.
  pose proof (digits_bounds a) as [Hlo _].
  assert (1 <= Zpos (digits2_pos a)) by lia.
  rewrite div_4 by (rewrite ?mantissa_of_digits by assumption; lia).
  unfold Number.round.
  destruct (Z.leb_spec 0 (Zpos (digits2_pos a) - 53 - 2)) as [|_]; [lia|].
  cbn [cond_Zopp].
  set (k := - (Zpos (digits2_pos a) - 53 - 2)).
  assert (2 <= k) as Hk by (unfold k; lia).
  rewrite Z.shiftr_div_pow2, Z.shiftl_mul_pow2, Z.mul_1_l by lia.
  rewrite mantissa_of_spec by assumption.
  replace (53 - Zpos (digits2_pos a)) with (k - 2) by (unfold k; lia).
  replace (2 ^ (k - 1)) with (2 * 2 ^ (k - 2))
    by (rewrite <- Z.pow_succ_r by lia; f_equal; lia).
  replace (2 ^ k) with (4 * 2 ^ (k - 2))
    by (change 4 with (2 ^ 2); rewrite <- Z.pow_add_r by lia; f_equal; lia).
  replace (Zpos a * 2 ^ (k - 2) + 2 * 2 ^ (k - 2))
    with ((Zpos a + 2) * 2 ^ (k - 2)) by ring.
  rewrite Z.div_mul_cancel_r by (try apply Z.pow_nonzero; lia).
  reflexivity.
Qed.

Lemma estimate_fileSize_number (base64 : string) :
  3 * str_length base64 < 2 ^ 53 ->
  estimate_fileSize base64 = Number.of_Z ((3 * str_length base64 + 2) / 4).
Proof.
  intros HL. unfold estimate_fileSize.
  assert (0 <= str_length base64) as Hnn by (unfold str_length; lia).
  destruct (str_length base64) as [|L|L] eqn:HLen; try lia.
  - reflexivity.
  - change (Number.of_Z 3) with (Number.of_Z (Zpos 3)).
    rewrite mul_of_Z_pos by lia.
    rewrite round_quarter_number by lia.
    f_equal. f_equal. lia.
Qed.

Lemma estimate_number_of_payload (payload : list Byte.byte) :
  Z.of_nat (List.length payload) < 2 ^ 50 ->
  estimate_fileSize (base64_encode payload)
  = Number.of_Z (3 * ((Z.of_nat (List.length payload) + 2) / 3))
  /\ 0 <= 3 * ((Z.of_nat (List.length payload) + 2) / 3) < 2 ^ 53.
Proof.
  intros Hlen.
  destruct (estimate_of_length (Z.of_nat (List.length payload)))
    as [Hbound Hvalue]; [lia|].
  assert (0 <= (Z.of_nat (List.length payload) + 2) / 3)
    by (apply Z.div_pos; lia).
  split; [|lia].
  rewrite estimate_fileSize_number; rewrite base64_encode_length.
  - now rewrite Hvalue.
  - exact Hbound.
Qed.

(** ** Scaled sides *)

(** The product of two positive normal numbers is within one unit in
    the last place of the exact product. *)
Lemma mul_normal_error (Mx My : positive) (Ex Ey : Z) :
  Zpos (digits2_pos Mx) = 53 ->
  Zpos (digits2_pos My) = 53 ->
  -1000 <= Ex + Ey <= 0 ->
  exists M E,
    Number.mul (S754_finite false Mx Ex) (S754_finite false My Ey)
    = S754_finite false M E
    /\ 2 ^ 52 <= Zpos M < 2 ^ 53
    /\ Ex + Ey + 52 <= E
    /\ (Zpos M - 1) * 2 ^ (E - (Ex + Ey)) <= Zpos Mx * Zpos My
       < (Zpos M + 1) * 2 ^ (E - (Ex + Ey)).
Proof.
  intros Hdx Hdy He.
  unfold Number.mul, SFmul. cbn [xorb].
  pose proof (digits_mul_lower Mx My) as Hlow. rewrite Hdx, Hdy in Hlow.
  pose proof (digits_bounds (Mx * My)) as [Plo Phi].
  assert (Zpos (digits2_pos (Mx * My)) <= 106) as Hup.
  { apply digits_upper. rewrite Pos2Z.inj_mul.
    pose proof (digits_bounds Mx) as [_ Hx].
    pose proof (digits_bounds My) as [_ Hy].
    rewrite Hdx in Hx. rewrite Hdy in Hy.
    change (2 ^ 106) with (2 ^ 53 * 2 ^ 53). nia. }
  rewrite <- Pos2Z.inj_mul.
  set (P := (Mx * My)%positive) in *.
  set (d := Zpos (digits2_pos P)) in *.
  set (e := Ex + Ey) in *.
  unfold binary_round_aux, shr_fexp. cbn [Zdigits2 shr_record_of_loc]. fold d.
  rewrite fexp_value.
  replace (Z.max (d + e - 53) (-1074) - e)
    with (Z.of_nat (Z.to_nat (d - 53))) by lia.
  rewrite shr_nat. rewrite Z2Nat.id by lia.
  set (mrs := Nat.iter (Z.to_nat (d - 53)) shr_1
                (Build_shr_record (Zpos P) false false)).
  assert (shr_m mrs = Zpos P / 2 ^ (d - 53)) as Hm1.
  { unfold mrs. rewrite shr_iter_m by (simpl; lia).
    rewrite Z2Nat.id by lia. reflexivity. }
  assert (0 < 2 ^ (d - 53)) as Hpk by (apply Z.pow_pos_nonneg; lia).
  assert (2 ^ 52 <= shr_m mrs < 2 ^ 53) as Hm1b.
  { rewrite Hm1. split.
    - apply Z.div_le_lower_bound; [lia|].
      rewrite <- Z.pow_add_r by lia.
      replace (d - 53 + 52) with (d - 1) by lia. exact Plo.
    - apply Z.div_lt_upper_bound; [lia|].
      rewrite <- Z.pow_add_r by lia.
      replace (d - 53 + 53) with d by lia. exact Phi. }
  assert (shr_m mrs * 2 ^ (d - 53) <= Zpos P
          < (shr_m mrs + 1) * 2 ^ (d - 53)) as Hfloor.
  { rewrite Hm1.
    pose proof (Z.div_mod (Zpos P) (2 ^ (d - 53)) ltac:(lia)) as Hdm.
    pose proof (Z.mod_pos_bound (Zpos P) (2 ^ (d - 53)) Hpk) as Hr.
    nia. }
  pose proof (round_nearest_even_bounds (shr_m mrs) (loc_of_shr_record mrs))
    as Hr.
  set (m1 := shr_m mrs) in *.
  set (m2 := round_nearest_even m1 (loc_of_shr_record mrs)) in *.
  replace (e + (d - 53)) with (d + e - 53) by lia.
  set (e' := d + e - 53).
  assert (-948 <= e' <= 53) as He' by (unfold e'; lia).
  destruct m2 as [|q|q] eqn:Hq; try lia.
  cbn [Zdigits2].
  destruct (Z.ltb_spec (Zpos q) (2 ^ 53)) as [Hlt | Hge].
  - (* the rounded mantissa still has 53 digits *)
    assert (Zpos (digits2_pos q) = 53) as Hdq
        by (apply digits_unique; simpl; lia).
    rewrite Hdq, fexp_value.
    replace (Z.max (53 + e' - 53) (-1074) - e') with 0 by lia.
    cbn [shr shr_m].
    replace (e' <=? Number.emax - Number.prec) with true
      by (symmetry; apply Z.leb_le; unfold Number.emax, Number.prec; lia).
    exists q, e'. split; [reflexivity|]. split; [lia|].
    split; [unfold e'; lia|].
    replace (e' - e) with (d - 53) by (unfold e'; lia). nia.
  - (* the rounding carried into the next binade *)
    assert (q = 9007199254740992%positive) as -> by lia.
    change (Zpos (digits2_pos 9007199254740992)) with 54.
    rewrite fexp_value.
    replace (Z.max (54 + e' - 53) (-1074) - e') with 1 by lia.
    cbn [shr iter_pos shr_1 shr_m].
    replace (e' + 1 <=? Number.emax - Number.prec) with true
      by (symmetry; apply Z.leb_le; unfold Number.emax, Number.prec; lia).
    exists 4503599627370496%positive, (e' + 1).
    split; [reflexivity|]. split; [simpl; lia|].
    split; [unfold e'; lia|].
    replace (e' + 1 - e) with ((d - 53) + 1) by (unfold e'; lia).
    rewrite Z.pow_add_r by lia. change (2 ^ 1) with 2.
    change (Zpos 4503599627370496) with (2 ^ 52).
    assert (m1 = 2 ^ 53 - 1) as Hm by (change (2 ^ 53) with 9007199254740992 in *; lia).
    rewrite Hm in Hfloor.
    change (2 ^ 53) with 9007199254740992 in *.
    change (2 ^ 52) with 4503599627370496 in *. nia.
Qed.

(** [Math.round] of a positive number with a negative exponent. *)
Lemma round_normal_value (M : positive) (E : Z) :
  Zpos M < 2 ^ 53 -> E < 0 ->
  Number.to_Z (Number.round (S754_finite false M E))
  = Some ((Zpos M + 2 ^ (- E - 1)) / 2 ^ (- E)).
Proof.
  intros HM HE. unfold Number.round.
  destruct (Z.leb_spec 0 E) as [|_]; [lia|].
  cbn [cond_Zopp]. set (k := - E). assert (1 <= k) as Hk by (unfold k; lia).
  rewrite Z.shiftr_div_pow2, Z.shiftl_mul_pow2, Z.mul_1_l by lia.
  replace (- E - 1) with (k - 1) by (unfold k; lia).
  assert (0 < 2 ^ (k - 1)) as Hp by (apply Z.pow_pos_nonneg; lia).
  assert (2 ^ k = 2 * 2 ^ (k - 1)) as Hpk
      by (rewrite <- Z.pow_succ_r by lia; f_equal; lia).
  set (n := (Zpos M + 2 ^ (k - 1)) / 2 ^ k).
  assert (0 <= n) as Hn1 by (unfold n; apply Z.div_pos; lia).
  assert (n < 2 ^ 53) as Hn2 by (unfold n; apply Z.div_lt_upper_bound; nia).
  fold (Number.of_Z n). apply to_Z_of_Z. lia.
Qed.

Lemma at_most_one_inv c :
  at_most_one c = true ->
  exists M E,
    c = S754_finite false M E
    /\ Zpos (digits2_pos M) = 53 /\ E <= 0 /\ Zpos M <= 2 ^ (- E).
Proof.
  intros Hc. destruct c as [| | |[|] M E]; try discriminate.
  unfold at_most_one in Hc.
  apply andb_prop in Hc as [Hc H1]. apply andb_prop in Hc as [Hd HE].
  apply Z.eqb_eq in Hd. apply Z.leb_le in HE, H1.
  exists M, E. auto.
Qed.

(** A positive side below 2^50 times a normal scale that is not above
    one: the product is a normal number below 2^51, within one unit in
    the last place of the exact product. *)
Lemma scaled_side (w M : positive) (E : Z) :
  Zpos w < 2 ^ 50 ->
  Zpos (digits2_pos M) = 53 -> -56 <= E <= 0 -> Zpos M <= 2 ^ (- E) ->
  exists R F,
    Number.mul (Number.of_Z (Zpos w)) (S754_finite false M E)
    = S754_finite false R F
    /\ 2 ^ 52 <= Zpos R < 2 ^ 53
    /\ E <= F < -1
    /\ (Zpos R - 1) * 2 ^ (F - E) <= Zpos w * Zpos M
       < (Zpos R + 1) * 2 ^ (F - E).
Proof.
  intros Hw Hd HE Hone.
  assert (Zpos w < 2 ^ 53) as Hw53 by (change (2 ^ 53) with (8 * 2 ^ 50); lia).
  rewrite of_Z_pos by exact Hw53.
  pose proof (digits_le_53 w Hw53) as Hdw.
  pose proof (digits_bounds w) as [Hlo _].
  destruct (mul_normal_error (mantissa_of w) M (Zpos (digits2_pos w) - 53) E)
    as (R & F & Hmul & HR & HF & Herr).
  - apply mantissa_of_digits. lia.
  - exact Hd.
  - lia.
  - exists R, F. split; [exact Hmul|]. split; [exact HR|].
    rewrite mantissa_of_spec in Herr by lia.
    set (dw := Zpos (digits2_pos w)) in *.
    assert (0 < 2 ^ (53 - dw)) as HA by (apply Z.pow_pos_nonneg; lia).
    assert (0 < 2 ^ (F - E)) as HB by (apply Z.pow_pos_nonneg; lia).
    assert (2 ^ (F - (dw - 53 + E)) = 2 ^ (F - E) * 2 ^ (53 - dw)) as Hsplit
        by (rewrite <- Z.pow_add_r by lia; f_equal; lia).
    rewrite Hsplit in Herr.
    set (A := 2 ^ (53 - dw)) in *. set (B := 2 ^ (F - E)) in *.
    assert ((Zpos R - 1) * B <= Zpos w * Zpos M < (Zpos R + 1) * B) as Herr'
        by nia.
    split; [|exact Herr'].
    split; [lia|].
    destruct (Z.ltb_spec F (-1)) as [|Hge]; auto. exfalso.
    assert (2 ^ (- E) <= B * 2) as Hpow.
    { unfold B. replace (2 ^ (F - E) * 2) with (2 ^ (F - E + 1))
        by (rewrite Z.pow_add_r by lia; reflexivity).
      apply Z.pow_le_mono_r; lia. }
    assert (Zpos w * Zpos M <= Zpos w * (B * 2))
      by (apply Z.mul_le_mono_nonneg_l; lia).
    change (2 ^ 52) with 4503599627370496 in *.
    change (2 ^ 50) with 1125899906842624 in *.
    nia.
Qed.

Lemma pow2_split (a b : Z) : 0 <= a -> 0 <= b -> 2 ^ (a + b) = 2 ^ a * 2 ^ b.
Proof. intros. now apply Z.pow_add_r. Qed.

(** [Math.round] of such a product, over the common denominator 2^56. *)
Lemma round_scaled_side (R : positive) (F : Z) :
  Zpos R < 2 ^ 53 -> -56 <= F < 0 ->
  Number.to_Z (Number.round (S754_finite false R F))
  = Some ((Zpos R * 2 ^ (F + 56) + 2 ^ 55) / 2 ^ 56).
Proof.
  intros HR HF. rewrite round_normal_value by lia. f_equal.
  assert (0 < 2 ^ (F + 56)) as Hp by (apply Z.pow_pos_nonneg; lia).
  replace (2 ^ 55) with (2 ^ (- F - 1) * 2 ^ (F + 56))
    by (rewrite <- pow2_split by lia; f_equal; lia).
  replace (2 ^ 56) with (2 ^ (- F) * 2 ^ (F + 56))
    by (rewrite <- pow2_split by lia; f_equal; lia).
  rewrite <- Z.mul_add_distr_r.
  rewrite Z.div_mul_cancel_r; try lia.
Qed.


(** The smaller of two well separated scales gives the smaller side. *)
Lemma scaled_dimension_monotone (W : Z) (c1 c2 : number) :
  keeps_three_pixels c1 = true -> at_most_one c1 = true ->
  keeps_three_pixels c2 = true -> at_most_one c2 = true ->
  well_below c2 c1 = true ->
  0 <= W < 2 ^ 50 ->
  exists n1 n2,
    Number.to_Z (Number.round (Number.mul (Number.of_Z W) c1)) = Some n1
    /\ Number.to_Z (Number.round (Number.mul (Number.of_Z W) c2)) = Some n2
    /\ n2 <= n1.
Proof.
  intros K1 A1 K2 A2 Hwb HW.
  destruct (keeps_three_pixels_inv c1 K1) as (M1 & E1 & -> & Hd1 & HE1 & _).
  destruct (at_most_one_inv _ A1) as (M' & E' & Heq & _ & _ & Hone1).
  injection Heq as <- <-.
  destruct (keeps_three_pixels_inv c2 K2) as (M2 & E2 & -> & Hd2 & HE2 & _).
  destruct (at_most_one_inv _ A2) as (M' & E' & Heq & _ & _ & Hone2).
  injection Heq as <- <-.
  unfold well_below in Hwb. apply Z.leb_le in Hwb.
  destruct W as [|w|w]; try lia.
  - exists 0, 0. repeat split; lia.
  - destruct (scaled_side w M1 E1 (proj2 HW) Hd1 HE1 Hone1)
      as (R1 & F1 & -> & HR1 & HF1 & _ & Hhi).
    destruct (scaled_side w M2 E2 (proj2 HW) Hd2 HE2 Hone2)
      as (R2 & F2 & -> & HR2 & HF2 & Hlo & _).
    rewrite !round_scaled_side by lia.
    do 2 eexists. split; [reflexivity | split; [reflexivity|]].
    apply Z.div_le_mono; [reflexivity|].
    apply Z.add_le_mono_r.
    (* over the common denominator *)
    assert (2 ^ (F1 + 56) = 2 ^ (F1 - E1) * 2 ^ (E1 + 56)) as Ha
        by (rewrite <- pow2_split by lia; f_equal; lia).
    assert (2 ^ (F2 + 56) = 2 ^ (F2 - E2) * 2 ^ (E2 + 56)) as Hb
        by (rewrite <- pow2_split by lia; f_equal; lia).
    assert (0 < 2 ^ (E1 + 56)) as Hu by (apply Z.pow_pos_nonneg; lia).
    assert (0 < 2 ^ (E2 + 56)) as Hv by (apply Z.pow_pos_nonneg; lia).
    assert (0 < 2 ^ (F1 + 56)) as Hpa by (apply Z.pow_pos_nonneg; lia).
    assert (0 < 2 ^ (F2 + 56)) as Hpb by (apply Z.pow_pos_nonneg; lia).
    assert (2 ^ (F1 + 56) <= 2 ^ (F2 + 56)
            \/ 2 * 2 ^ (F2 + 56) <= 2 ^ (F1 + 56)) as Hcase.
    { destruct (Z.le_gt_cases F1 F2) as [Hle | Hgt].
      - left. apply Z.pow_le_mono_r; lia.
      - right. rewrite <- Z.pow_succ_r by lia. apply Z.pow_le_mono_r; lia. }
    set (a := 2 ^ (F1 + 56)) in *. set (b := 2 ^ (F2 + 56)) in *.
    set (u := 2 ^ (E1 + 56)) in *. set (v := 2 ^ (E2 + 56)) in *.
    set (p := 2 ^ (F1 - E1)) in *. set (q := 2 ^ (F2 - E2)) in *.
    assert ((Zpos R2 - 1) * b <= Zpos w * (Zpos M2 * v)) as H2.
    { rewrite Hb. assert ((Zpos R2 - 1) * q * v <= Zpos w * Zpos M2 * v)
        by (apply Z.mul_le_mono_nonneg_r; lia). lia. }
    assert (Zpos w * (Zpos M1 * u) < (Zpos R1 + 1) * a) as H1.
    { rewrite Ha. assert (Zpos w * Zpos M1 * u < (Zpos R1 + 1) * p * u)
        by (apply Z.mul_lt_mono_pos_r; lia). lia. }
    assert (Zpos w * (5 * (Zpos M2 * v)) <= Zpos w * (4 * (Zpos M1 * u))) as H3
        by (apply Z.mul_le_mono_nonneg_l; lia).
    assert (5 * ((Zpos R2 - 1) * b) < 4 * ((Zpos R1 + 1) * a)) as K by lia.
    destruct (Z.le_gt_cases (Zpos R2 * b) (Zpos R1 * a)) as [|Hcontra]; auto.
    exfalso.
    assert (Zpos R2 * b < 5 * b + 4 * a) as D by lia.
    change (2 ^ 52) with 4503599627370496 in *.
    change (2 ^ 53) with 9007199254740992 in *.
    destruct Hcase as [Hab | Hab]; nia.
Qed.

Lemma combined_scales_at_most_one :
  forallb at_most_one combined_scales = true.
Proof. vm_compute. reflexivity. Qed.

Lemma combined_scale_at_most_one w f :
  In w width_scales -> In f file_size_scales ->
  at_most_one (Number.mul w f) = true.
Proof.
  intros Hw Hf.
  apply (proj1 (forallb_forall _ _) combined_scales_at_most_one).
  unfold combined_scales. apply in_flat_map. exists w. split; auto.
  now apply in_map.
Qed.

(** At every width, a later file-size-scale of the table gives a
    combined scale of at most four fifths of an earlier one. *)
Lemma combined_scales_well_below w f g :
  In w width_scales -> In f file_size_scales -> In g file_size_scales ->
  by_rank f g ->
  well_below (Number.mul w g) (Number.mul w f) = true.
Proof.
  intros Hw Hf Hg. simpl in Hw, Hf, Hg.
  destruct Hw as [<- | [<- | [<- | [<- | [<- | []]]]]];
    destruct Hf as [<- | [<- | [<- | []]]];
    destruct Hg as [<- | [<- | [<- | []]]];
    vm_compute; intros H; try reflexivity; lia.
Qed.

(** ** File names *)

Lemma append_assoc (a b c : string) : (a ++ b) ++ c = a ++ (b ++ c).
Proof. induction a as [|x a IH]; simpl; [reflexivity | now rewrite IH]. Qed.

Lemma append_inv_head (s a b : string) : s ++ a = s ++ b -> a = b.
Proof.
  induction s as [|c s IH]; simpl; intros H; [exact H|].
  injection H as H. now apply IH.
Qed.

(** The ratio tokens of the table tell the file-size options apart,
    whatever follows them. *)
Lemma fo_ratio_injective fo1 fo2 (rest : string) :
  In fo1 FILE_SIZE_OPTIONS -> In fo2 FILE_SIZE_OPTIONS ->
  fo_ratio fo1 ++ rest = fo_ratio fo2 ++ rest -> fo1 = fo2.
Proof.
  intros H1 H2. simpl in H1, H2.
  destruct H1 as [<- | [<- | [<- | []]]];
    destruct H2 as [<- | [<- | [<- | []]]];
    cbn [fo_ratio append]; intros H; try reflexivity; discriminate H.
Qed.

Lemma find_fileSizeOption_value f fo :
  find_fileSizeOption f = Some fo -> In fo FILE_SIZE_OPTIONS.
Proof. unfold find_fileSizeOption. intros H. now apply find_some in H. Qed.

Lemma find_fileSizeOption_injective f1 f2 fo :
  In f1 file_size_scales -> In f2 file_size_scales ->
  find_fileSizeOption f1 = Some fo -> find_fileSizeOption f2 = Some fo ->
  f1 = f2.
Proof.
  intros H1 H2 E1 E2.
  destruct (find_fileSizeOption_In f1 H1) as (fo1 & F1 & _ & V1).
  destruct (find_fileSizeOption_In f2 H2) as (fo2 & F2 & _ & V2).
  congruence.
Qed.

(** X3.  What [name.replace(/\.[^/.]+$/, "")] keeps of a file name: when
    the name ends in a dot followed by one or more characters that are
    neither a dot nor a slash, everything before that dot (nothing at
    all for a name like [.bashrc]); in every other case (no dot, a dot
    at the very end, a slash after the last dot) the whole name. *)
Theorem X3_strip_extension_cases (s : string) :
  (exists stem ext,
      s = stem ++ "." ++ ext /\ ext <> ""
      /\ all_chars not_slash_or_dot ext = true
      /\ strip_extension s = stem)
  \/ ((forall stem ext,
          s = stem ++ "." ++ ext ->
          ext = "" \/ all_chars not_slash_or_dot ext = false)
      /\ strip_extension s = s).
Proof.
  induction s as [|c s IH].
  - right. split; [|reflexivity].
    intros [|x stem] ext H; discriminate H.
  - cbn [strip_extension].
    destruct (extension_at_head (String c s)) eqn:E.
    + left. exists "", s.
      pose proof (extension_at_head_tail c s E) as Hs.
      unfold extension_at_head in E.
      destruct (Ascii.eqb_spec c "."%char) as [-> | Hne].
      * destruct s as [|c' rest]; [discriminate E|].
        repeat split; auto. discriminate.
      * exfalso.
        destruct c as [[] [] [] [] [] [] [] []]; try discriminate E;
          now apply Hne.
    + destruct IH as [(stem & ext & -> & Hne & Hext & Hstrip)
                     | [Hnone Hstrip]].
      * left. exists (String c stem), ext. rewrite Hstrip. auto.
      * right. rewrite Hstrip. split; [|reflexivity].
        intros [|x stem] ext H.
        -- cbn [append] in H. injection H as -> ->.
           destruct ext as [|c' rest]; [now left | right].
           exact E.
        -- cbn [append] in H. injection H as _ H.
           exact (Hnone stem ext H).
Qed.

(** ** The page at rest *)

Section Page.

Variable encoder :
  HTMLImageElement -> Z -> Z -> string -> option number -> list Byte.byte.
Variable readAsDataURL : File -> option string.
Variable decodeImage : string -> option (Z * Z).

Lemma handleFileChange_cells st file :
  let st' := fst (handleFileChange readAsDataURL decodeImage st file) in
  isProcessing st' = isProcessing st
  /\ (st' = st
      \/ (resizedImages st' = []
          /\ originalInfo st' = originalInfo st
          /\ loadedImage st' = loadedImage st
          /\ (originalImage st <> None -> originalImage st' <> None))
      \/ exists f url w h,
          file = Some f
          /\ String.prefix "image/" (file_type f) = true
          /\ readAsDataURL f = Some url
          /\ decodeImage url = Some (w, h)
          /\ originalImage st' = Some url
          /\ originalInfo st'
             = Some {| info_name := file_name f; info_width := w;
                       info_height := h; info_fileSize := file_size f;
                       info_type := file_type f |}
          /\ loadedImage st'
             = Some {| img_src := url; img_width := w; img_height := h |}
          /\ resizedImages st' = []).
Proof.
  unfold handleFileChange. destruct file as [f|]; [|now auto].
  destruct (String.prefix "image/" (file_type f)) eqn:Ht; cbn [negb];
    [|now auto].
  destruct (readAsDataURL f) as [url|] eqn:Hr; cbn [fst].
  - destruct (decodeImage url) as [[w h]|] eqn:Hd; cbn [fst].
    + split; [reflexivity|]. right. right. exists f, url, w, h. auto 10.
    + split; [reflexivity|]. right. left. cbn. repeat split. discriminate.
  - split; [reflexivity|]. right. left. cbn. repeat split. auto.
Qed.

Lemma handleConvert_frame st :
  selection_ok (selectedFileSizeScales st) ->
  let st' := fst (handleConvert encoder st) in
  originalImage st' = originalImage st
  /\ originalInfo st' = originalInfo st
  /\ loadedImage st' = loadedImage st
  /\ selectedWidthScale st' = selectedWidthScale st
  /\ selectedFileSizeScales st' = selectedFileSizeScales st
  /\ (st' = st
      \/ exists img info,
          loadedImage st = Some img /\ originalInfo st = Some info
          /\ selectedFileSizeScales st <> []
          /\ isProcessing st' = false
          /\ resizedImages st'
             = flat_map (variants_of encoder img info (selectedWidthScale st))
                        (selectedFileSizeScales st)).
Proof.
  intros [Hs Hincl].
  destruct (loadedImage st) as [img|] eqn:Himg;
    [|unfold handleConvert; rewrite Himg; cbn; now auto 10].
  destruct (originalInfo st) as [info|] eqn:Hinfo;
    [|unfold handleConvert; rewrite Himg, Hinfo; cbn; now auto 10].
  destruct (selectedFileSizeScales st) as [|f l] eqn:Hsel;
    [unfold handleConvert; rewrite Himg, Hinfo, Hsel; cbn; now auto 10|].
  rewrite (handleConvert_closed encoder st img info Himg Hinfo)
    by (rewrite Hsel; discriminate).
  rewrite Hsel, (array_sort_sorted_id _ Hs Hincl). cbn.
  repeat (split; [auto|]). right. exists img, info.
  repeat split; auto. discriminate.
Qed.

(** What the handlers keep true of the state cells. *)
Lemma page_invariant st :
  reachable encoder readAsDataURL decodeImage st ->
  isProcessing st = false
  /\ file_cells_agree st
  /\ (resizedImages st = []
      \/ exists img info w sel,
          loadedImage st = Some img /\ originalInfo st = Some info
          /\ In w width_scales /\ selection_ok sel
          /\ resizedImages st = flat_map (variants_of encoder img info w) sel).
Proof.
  induction 1 as [|st ev Hr (IHp & IHc & IHv) Hev].
  - split; [reflexivity | split; [reflexivity | now left]].
  - destruct (reachable_invariant encoder readAsDataURL decodeImage st Hr)
      as (Hw & Hsel & _).
    destruct ev as [file | o | o |]; cbn [step rendered] in *.
    + destruct (handleFileChange_cells st file) as (Ep & Hcase).
      split; [now rewrite Ep|].
      destruct Hcase
        as [-> | [(E4 & E2 & E3 & E1)
                 | (f & url & w & h & _ & Ht & _ & _ & E1 & E2 & E3 & E4)]];
        [now split | |].
      * split; [|now left].
        unfold file_cells_agree in *. rewrite E2, E3.
        destruct (originalInfo st), (loadedImage st); try contradiction.
        -- destruct IHc as (Ho & Hrest). split; auto.
        -- exact E4.
      * split; [|now left].
        unfold file_cells_agree. rewrite E1, E2, E3. cbn.
        repeat split; auto. discriminate.
    + split; [exact IHp | split; [exact IHc | exact IHv]].
    + split; [exact IHp | split; [exact IHc | exact IHv]].
    + destruct (handleConvert_frame st Hsel) as (E1 & E2 & E3 & E4 & E5 & Hcase).
      destruct Hcase as [-> | (img & info & Himg & Hinfo & Hne & Hp & Hres)];
        [now split|].
      split; [exact Hp|]. split.
      * unfold file_cells_agree in *. rewrite E1, E2, E3.
        destruct (originalInfo st), (loadedImage st);
          try contradiction; try discriminate. exact IHc.
      * right. exists img, info, (selectedWidthScale st),
                 (selectedFileSizeScales st).
        rewrite E2, E3. auto.
Qed.

(** X4.  The cells [originalInfo] and [loadedImage], which
    [img.onload] sets together, are empty together, and then nothing
    is on display, or they describe one decoded image file: the
    recorded width and height are those of the decoded image, the
    declared type starts with "image/", and [originalImage] is set.
    This holds also after files that could not be read or decoded,
    which leave both cells as they were. *)
Theorem X4_file_cells_agree st :
  reachable encoder readAsDataURL decodeImage st ->
  file_cells_agree st.
Proof.
  intros Hr. apply (page_invariant st Hr).
Qed.

(** X5.  Every reachable state is at rest: no handler leaves the page
    busy, because [resizeImage] always resolves and the loop of
    [handleConvert] always reaches [setIsProcessing(false)]. *)
Theorem X5_never_left_busy st :
  reachable encoder readAsDataURL decodeImage st ->
  isProcessing st = false.
Proof.
  intros Hr. apply (page_invariant st Hr).
Qed.

(** X6.  The size shown beside a check box before converting is the
    size of the variant that converting then makes: for every selected
    file-size-scale, [getScaledDimensions] at the selected width-scale
    returns the width and the height of the variant [handleConvert]
    generates for it. *)
Theorem X6_preview_is_result st f :
  reachable encoder readAsDataURL decodeImage st ->
  originalInfo st <> None ->
  In f (selectedFileSizeScales st) ->
  exists img info v,
    loadedImage st = Some img /\ originalInfo st = Some info
    /\ In v (resizedImages (fst (handleConvert encoder st)))
    /\ variant_for encoder img info (selectedWidthScale st) f v
    /\ getScaledDimensions st (selectedWidthScale st) f = (width v, height v).
Proof.
  intros Hr Hsome Hf.
  destruct (page_invariant st Hr)
    as (_ & Hc & _).
  destruct (reachable_invariant encoder readAsDataURL decodeImage st Hr)
    as (_ & [_ Hincl] & _).
  unfold file_cells_agree in Hc.
  destruct (originalInfo st) as [info|] eqn:Hinfo; [|contradiction].
  destruct (loadedImage st) as [img|] eqn:Himg; [|contradiction].
  destruct Hc as (_ & HW & HH & _).
  destruct (find_fileSizeOption_In f (Hincl f Hf)) as (fo & Ff & Ifo & Vf).
  exists img, info,
    (variant (find_widthOption (selectedWidthScale st)) fo
       (resized encoder img (Number.mul (selectedWidthScale st) f)
                (info_type info))).
  split; [reflexivity | split; [reflexivity|]]. split; [|split].
  - rewrite (handleConvert_closed encoder st img info Himg Hinfo
               (In_not_nil f _ Hf)).
    cbn [fst resizedImages]. apply in_flat_map. exists f. split.
    + now apply array_sort_In.
    + unfold variants_of. rewrite Ff. now left.
  - exists fo. auto.
  - unfold getScaledDimensions. rewrite Hinfo, HW, HH. reflexivity.
Qed.

(** X7.  Converting again without changing anything gives the same
    variants and draws and encodes the same: a run replaces the
    variants on display, it does not add to them, and it leaves the
    selection, the width and the file as they were. *)
Theorem X7_convert_again st :
  selection_ok (selectedFileSizeScales st) ->
  handleConvert encoder (fst (handleConvert encoder st))
  = handleConvert encoder st
  /\ selectedFileSizeScales (fst (handleConvert encoder st))
     = selectedFileSizeScales st
  /\ selectedWidthScale (fst (handleConvert encoder st)) = selectedWidthScale st
  /\ originalInfo (fst (handleConvert encoder st)) = originalInfo st
  /\ loadedImage (fst (handleConvert encoder st)) = loadedImage st
  /\ originalImage (fst (handleConvert encoder st)) = originalImage st.
Proof.
  intros Hok.
  destruct (handleConvert_frame st Hok)
    as (E1 & E2 & E3 & E4 & E5 & Hcase).
  split; [|now auto].
  destruct Hcase as [-> | (img & info & Himg & Hinfo & Hne & _ & _)];
    [reflexivity|].
  assert (Hok' := Hok). destruct Hok' as [Hs Hincl].
  rewrite (handleConvert_closed encoder (fst (handleConvert encoder st))
             img info) by congruence.
  rewrite E1, E2, E3, E4, E5.
  now rewrite (handleConvert_closed encoder st img info Himg Hinfo Hne).
Qed.

(** *** Downloads *)

(** The names under which the variants of one run are saved differ. *)
Lemma download_names_differ img info w sel :
  NoDup sel -> incl sel file_size_scales ->
  NoDup (map (fun v => download_fileName info (id v))
             (flat_map (variants_of encoder img info w) sel)).
Proof.
  induction sel as [|f sel IH]; intros Hnd Hincl; cbn [flat_map map].
  - constructor.
  - apply NoDup_cons_iff in Hnd as [Hnin Hnd].
    assert (incl sel file_size_scales) as Hincl'
        by (intros z Hz; apply Hincl; now right).
    assert (In f file_size_scales) as Hf by (apply Hincl; now left).
    destruct (find_fileSizeOption_In f Hf) as (fo & Ff & Ifo & Vf).
    unfold variants_of at 1. rewrite Ff. cbn [app map].
    constructor; [|now apply IH].
    intros Hin. apply in_map_iff in Hin as (v & Hname & Hv).
    apply in_flat_map in Hv as (g & Hg & Hv).
    unfold variants_of in Hv.
    destruct (find_fileSizeOption g) as [go|] eqn:Fg; [|contradiction].
    destruct Hv as [<- | []].
    cbn [variant id] in Hname. unfold download_fileName in Hname.
    cbv zeta in Hname.
    apply append_inv_head in Hname. apply append_inv_head in Hname.
    rewrite !append_assoc in Hname.
    apply append_inv_head in Hname. apply append_inv_head in Hname.
    apply fo_ratio_injective in Hname;
      [|now apply (find_fileSizeOption_value g) | exact Ifo].
    subst go. apply Hnin.
    rewrite (find_fileSizeOption_injective f g fo); auto.
Qed.

(** X8.  [handleDownloadAll] saves every variant on display once, in
    the order of display, each with its own data URL and under a name
    of its own: no download of a run overwrites another. *)
Theorem X8_downloadAll_distinct_names st :
  reachable encoder readAsDataURL decodeImage st ->
  (originalInfo st = None -> resizedImages st = [])
  /\ forall info,
      originalInfo st = Some info ->
      handleDownloadAll st = map (download_of info) (resizedImages st)
      /\ NoDup (map (fun v => download_fileName info (id v))
                    (resizedImages st)).
Proof.
  intros Hr.
  destruct (page_invariant st Hr)
    as (_ & Hc & Hv).
  split.
  - intros Hnone. unfold file_cells_agree in Hc. rewrite Hnone in Hc.
    destruct (loadedImage st); [contradiction | exact Hc].
  - intros info Hinfo. split.
    + unfold handleDownloadAll, handleDownload. rewrite Hinfo.
      cbv beta iota.
      induction (resizedImages st) as [|v l IH]; simpl; [reflexivity|].
      now f_equal.
    + destruct Hv as [-> | (img & info' & w & sel & _ & Hinfo' & _ & Hsel & ->)];
        [constructor|].
      destruct Hsel as [Hs Hincl].
      assert (info' = info) as -> by congruence.
      apply download_names_differ; auto. now apply by_rank_sorted_NoDup.
Qed.

(** *** Check boxes *)

Lemma is_checked_In st o :
  incl (selectedFileSizeScales st) file_size_scales ->
  In o FILE_SIZE_OPTIONS ->
  is_checked st o = true <-> In (fo_value o) (selectedFileSizeScales st).
Proof.
  intros Hincl Ho. apply includes_In; auto. now apply in_map.
Qed.

Lemma bool_iff (a b : bool) : (a = true <-> b = true) -> a = b.
Proof. destruct a, b; intuition congruence. Qed.

(** X9.  Clicking the check box of a file-size option flips that box
    and no other: afterwards the option is checked exactly when it was
    not before, and every other option of the table is checked exactly
    when it was before. *)
Theorem X9_toggle_flips_one_box st o :
  reachable encoder readAsDataURL decodeImage st ->
  In o FILE_SIZE_OPTIONS ->
  is_checked (handleFileSizeToggle st (fo_value o)) o = negb (is_checked st o)
  /\ forall o',
      In o' FILE_SIZE_OPTIONS -> o' <> o ->
      is_checked (handleFileSizeToggle st (fo_value o)) o' = is_checked st o'.
Proof.
  intros Hr Ho.
  destruct (reachable_invariant encoder readAsDataURL decodeImage st Hr)
    as (_ & Hok & _).
  assert (In (fo_value o) file_size_scales) as Hs by now apply in_map.
  pose proof (toggle_ok _ (fo_value o) Hok Hs) as [_ Hincl'].
  destruct Hok as [_ Hincl].
  assert (incl (selectedFileSizeScales (handleFileSizeToggle st (fo_value o)))
               file_size_scales) as Hincl'' by exact Hincl'.
  split.
  - apply bool_iff. rewrite (is_checked_In _ o Hincl'' Ho).
    cbn [handleFileSizeToggle selectedFileSizeScales].
    rewrite (toggle_In _ _ _ Hincl Hs).
    rewrite negb_true_iff, <- not_true_iff_false.
    rewrite (is_checked_In st o Hincl Ho). tauto.
  - intros o' Ho' Hne. apply bool_iff.
    rewrite (is_checked_In _ o' Hincl'' Ho'), (is_checked_In st o' Hincl Ho').
    cbn [handleFileSizeToggle selectedFileSizeScales].
    rewrite (toggle_In _ _ _ Hincl Hs).
    assert (fo_value o' <> fo_value o) as Hv.
    { intros Heq. apply Hne. simpl in Ho, Ho'.
      destruct Ho as [<- | [<- | [<- | []]]];
        destruct Ho' as [<- | [<- | [<- | []]]];
        try reflexivity; vm_compute in Heq; discriminate Heq. }
    destruct (in_dec number_eq_dec (fo_value o) (selectedFileSizeScales st));
      tauto.
Qed.

(** *** Blank canvases and the format of a download *)



Lemma generated_variant st img info v :
  loadedImage st = Some img ->
  originalInfo st = Some info ->
  selectedFileSizeScales st <> [] ->
  In v (resizedImages (fst (handleConvert encoder st))) ->
  exists f fo,
    In f (selectedFileSizeScales st)
    /\ find_fileSizeOption f = Some fo
    /\ v = variant (find_widthOption (selectedWidthScale st)) fo
                   (resized encoder img (Number.mul (selectedWidthScale st) f)
                            (info_type info)).
Proof.
  intros Himg Hinfo Hsel Hv.
  rewrite (handleConvert_closed encoder st img info Himg Hinfo Hsel) in Hv.
  cbn [fst resizedImages] in Hv.
  apply in_flat_map in Hv as (f & Hf & Hv). unfold variants_of in Hv.
  destruct (find_fileSizeOption f) as [fo|] eqn:Ff; [|contradiction].
  destruct Hv as [<- | []]. exists f, fo.
  split; [now apply array_sort_In in Hf | auto].
Qed.

(** X10.  A variant one of whose sides rounds to zero is still
    generated: its data URL is the text "data:," of a canvas without
    pixels, its estimated size is zero and it decodes to no bytes, so
    the download offered for it is an empty file. *)
Theorem X10_blank_variant st img info v :
  loadedImage st = Some img ->
  originalInfo st = Some info ->
  selectedFileSizeScales st <> [] ->
  In v (resizedImages (fst (handleConvert encoder st))) ->
  blank v ->
  dataUrl v = "data:,"
  /\ fileSize v = Number.of_Z 0
  /\ payload_of_dataUrl (dataUrl v) = Some []
  /\ handleDownload (fst (handleConvert encoder st)) (dataUrl v) (id v)
     = [Download "data:," (download_fileName info (id v))].
Proof.
  intros Himg Hinfo Hsel Hv Hblank.
  assert (originalInfo (fst (handleConvert encoder st)) = Some info) as Hinfo'.
  { rewrite (handleConvert_closed encoder st img info Himg Hinfo Hsel).
    exact Hinfo. }
  destruct (generated_variant st img info v Himg Hinfo Hsel Hv)
    as (f & fo & _ & _ & ->).
  unfold blank in Hblank. cbn [variant width height resized r_width r_height]
    in Hblank.
  assert (dataUrl
            (variant (find_widthOption (selectedWidthScale st)) fo
               (resized encoder img (Number.mul (selectedWidthScale st) f)
                  (info_type info))) = "data:,") as Hurl.
  { cbn [variant dataUrl resized r_dataUrl]. unfold canvas_toDataURL.
    destruct Hblank as [-> | ->]; [reflexivity|].
    now rewrite orb_true_r. }
  split; [exact Hurl|]. split; [|split].
  - cbn [variant fileSize resized r_fileSize].
    unfold variant_payload, encoded_payload.
    destruct Hblank as [-> | ->]; [reflexivity|].
    now rewrite orb_true_r.
  - rewrite Hurl. reflexivity.
  - unfold handleDownload. now rewrite Hinfo', Hurl.
Qed.


(** X12.  The size shown under a variant ("約 ...") is the text of the
    byte count of its file rounded up to a multiple of three: for a
    variant whose data URL carries a file of [n] bytes, [formatFileSize]
    of the estimate is the text of [3 * ceil(n / 3)]. *)
Theorem X12_variant_size_text st img info v :
  loadedImage st = Some img ->
  originalInfo st = Some info ->
  selectedFileSizeScales st <> [] ->
  In v (resizedImages (fst (handleConvert encoder st))) ->
  exists payload,
    payload_of_dataUrl (dataUrl v) = Some payload
    /\ (Z.of_nat (List.length payload) < 2 ^ 50 ->
        formatFileSize (fileSize v)
        = Some (size_text (3 * ((Z.of_nat (List.length payload) + 2) / 3)))).
Proof.
  intros Himg Hinfo Hsel Hv.
  destruct (generated_variant st img info v Himg Hinfo Hsel Hv)
    as (f & fo & _ & _ & ->).
  exists (variant_payload encoder img
            (Number.mul (selectedWidthScale st) f) (info_type info)).
  cbn [variant dataUrl fileSize].
  split; [apply payload_of_resized|].
  intros Hlen. cbn [resized r_fileSize].
  destruct (estimate_number_of_payload _ Hlen) as [-> Hrange].
  now apply formatFileSize_of_Z.
Qed.

(** *** The sizes of the variants *)


Lemma variants_descend img info w sel :
  In w width_scales ->
  StronglySorted by_rank sel -> incl sel file_size_scales ->
  0 <= img_width img < 2 ^ 50 ->
  0 <= img_height img < 2 ^ 50 ->
  StronglySorted (fun v1 v2 => no_larger v2 v1)
                 (flat_map (variants_of encoder img info w) sel).
Proof.
  intros Hw Hs Hincl HW HH.
  induction Hs as [|f sel Hs IH Hall]; cbn [flat_map].
  - constructor.
  - assert (In f file_size_scales) as Hf by (apply Hincl; now left).
    assert (incl sel file_size_scales) as Hincl'
        by (intros z Hz; apply Hincl; now right).
    destruct (find_fileSizeOption_In f Hf) as (fo & Ff & _).
    unfold variants_of at 1. rewrite Ff. cbn [app].
    constructor; [now apply IH|].
    rewrite Forall_forall in *. intros v Hv.
    apply in_flat_map in Hv as (g & Hg & Hv).
    unfold variants_of in Hv.
    destruct (find_fileSizeOption g) as [go|]; [|contradiction].
    destruct Hv as [<- | []].
    assert (In g file_size_scales) as Hgt by now apply Hincl'.
    pose proof (combined_scales_well_below w f g Hw Hf Hgt (Hall g Hg)) as Hwb.
    destruct (combined_scale_ok w f Hw Hf) as [_ K1].
    destruct (combined_scale_ok w g Hw Hgt) as [_ K2].
    pose proof (combined_scale_at_most_one w f Hw Hf) as A1.
    pose proof (combined_scale_at_most_one w g Hw Hgt) as A2.
    destruct (scaled_dimension_monotone (img_width img) _ _ K1 A1 K2 A2 Hwb HW)
      as (w1 & w2 & Ew1 & Ew2 & Hwle).
    destruct (scaled_dimension_monotone (img_height img) _ _ K1 A1 K2 A2 Hwb HH)
      as (h1 & h2 & Eh1 & Eh2 & Hhle).
    exists w1, h1, w2, h2. auto 10.
Qed.

(** X14.  The variants on display are listed from the largest to the
    smallest: for a loaded image whose sides are below 2^50 pixels,
    every variant is no wider and no higher, in whole pixels, than
    each variant listed before it. *)
Theorem X14_variants_listed_largest_first st img :
  reachable encoder readAsDataURL decodeImage st ->
  loadedImage st = Some img ->
  0 <= img_width img < 2 ^ 50 ->
  0 <= img_height img < 2 ^ 50 ->
  StronglySorted (fun v1 v2 => no_larger v2 v1) (resizedImages st).
Proof.
  intros Hr Himg HW HH.
  destruct (page_invariant st Hr)
    as (_ & _ & [-> | (img' & info & w & sel & Himg' & _ & Hw & [Hs Hincl] & ->)]).
  - constructor.
  - assert (img' = img) as -> by congruence.
    now apply variants_descend.
Qed.

(** *** The first revision *)

Lemma full_width_scale f :
  In f file_size_scales -> Number.mul (Number.decimal 10 10) f = f.
Proof.
  intros Hf. simpl in Hf.
  destruct Hf as [<- | [<- | [<- | []]]]; vm_compute; reflexivity.
Qed.

Lemma first_revision_generate img type todo :
  forall results,
    FirstRevision.generate encoder img type todo results
    = (Some (results ++ map (first_revision_variant encoder img type) todo)%list,
       flat_map (fun s => canvas_effects img (FirstRevision.s_scale s) type)
                todo).
Proof.
  induction todo as [|s todo IH]; intros results;
    cbn [FirstRevision.generate map flat_map].
  - now rewrite app_nil_r.
  - rewrite resizeImage_resolves, IH, <- app_assoc. reflexivity.
Qed.

(** The first revision on a file that is read and decoded. *)
Lemma first_revision_handleFileChange st f url w h :
  String.prefix "image/" (file_type f) = true ->
  readAsDataURL f = Some url ->
  decodeImage url = Some (w, h) ->
  let img := {| img_src := url; img_width := w; img_height := h |} in
  FirstRevision.handleFileChange encoder readAsDataURL decodeImage st (Some f)
  = ({| FirstRevision.originalImage := Some url;
        FirstRevision.originalInfo :=
          Some {| info_name := file_name f; info_width := w;
                  info_height := h; info_fileSize := file_size f;
                  info_type := file_type f |};
        FirstRevision.resizedImages :=
          map (first_revision_variant encoder img (file_type f))
              FirstRevision.scales;
        FirstRevision.isProcessing := false |},
     ReadAsDataURL f
       :: flat_map (fun s => canvas_effects img (FirstRevision.s_scale s)
                                            (file_type f))
                   FirstRevision.scales).
Proof.
  intros Ht Hr Hd. unfold FirstRevision.handleFileChange.
  rewrite Ht, Hr, Hd. cbn [negb]. cbv zeta.
  now rewrite first_revision_generate.
Qed.

(** The first revision on a file that is not read or not decoded. *)
Lemma first_revision_stays_busy st f :
  String.prefix "image/" (file_type f) = true ->
  readAsDataURL f = None
  \/ (exists url, readAsDataURL f = Some url /\ decodeImage url = None) ->
  let st' :=
    fst (FirstRevision.handleFileChange encoder readAsDataURL decodeImage
           st (Some f)) in
  FirstRevision.isProcessing st' = true
  /\ FirstRevision.resizedImages st' = []
  /\ FirstRevision.originalInfo st' = FirstRevision.originalInfo st.
Proof.
  intros Ht Hfail. unfold FirstRevision.handleFileChange.
  rewrite Ht. cbn [negb].
  destruct Hfail as [-> | (url & -> & ->)]; cbn; auto.
Qed.

(** X15.  Choosing an image file that the browser reads and decodes
    does in the first revision what choosing it and pressing the
    convert button does in the current revision at its initial choice
    (full width, all three file sizes): the same three images with the
    same sizes and estimates, drawn and encoded in the same order.
    What differs is the name of a variant, which gained the prefix
    "100%-". *)
Theorem X15_first_revision_agrees old st f url w h :
  String.prefix "image/" (file_type f) = true ->
  readAsDataURL f = Some url ->
  decodeImage url = Some (w, h) ->
  default_choice st ->
  let old' :=
    FirstRevision.handleFileChange encoder readAsDataURL decodeImage
      old (Some f) in
  let chosen := handleFileChange readAsDataURL decodeImage st (Some f) in
  let converted := handleConvert encoder (fst chosen) in
  Forall2 same_image (FirstRevision.resizedImages (fst old'))
          (resizedImages (fst converted))
  /\ snd old' = (snd chosen ++ snd converted)%list
  /\ FirstRevision.originalImage (fst old') = originalImage (fst converted)
  /\ FirstRevision.originalInfo (fst old') = originalInfo (fst converted)
  /\ FirstRevision.isProcessing (fst old') = false.
Proof.
  intros Ht Hr Hd [Hw Hsel]. cbv zeta.
  rewrite (first_revision_handleFileChange old f url w h Ht Hr Hd). cbv zeta.
  unfold handleFileChange. rewrite Ht, Hr, Hd. cbn [negb fst snd].
  set (img := {| img_src := url; img_width := w; img_height := h |}).
  set (info := {| info_name := file_name f; info_width := w; info_height := h;
                  info_fileSize := file_size f; info_type := file_type f |}).
  match goal with
  | |- context [handleConvert encoder ?s] => set (chosen := s)
  end.
  rewrite (handleConvert_closed encoder chosen img info eq_refl eq_refl)
    by (unfold chosen; cbn [selectedFileSizeScales]; rewrite Hsel; discriminate).
  unfold chosen.
  cbn [fst snd selectedFileSizeScales selectedWidthScale resizedImages
       originalImage originalInfo FirstRevision.resizedImages
       FirstRevision.originalImage FirstRevision.originalInfo
       FirstRevision.isProcessing].
  rewrite Hw, Hsel.
  assert (array_sort descending [inv_sqrt2; one_half; inv_sqrt8]
          = [inv_sqrt2; one_half; inv_sqrt8]) as -> by (vm_compute; reflexivity).
  assert (In inv_sqrt2 file_size_scales) as H2 by (simpl; tauto).
  assert (In one_half file_size_scales) as H4 by (simpl; tauto).
  assert (In inv_sqrt8 file_size_scales) as H8 by (simpl; tauto).
  split; [|split; [|repeat split]].
  - cbn [flat_map FirstRevision.scales map app]. unfold variants_of.
    destruct (find_fileSizeOption_In _ H2) as (o2 & -> & I2 & V2).
    destruct (find_fileSizeOption_In _ H4) as (o4 & -> & I4 & V4).
    destruct (find_fileSizeOption_In _ H8) as (o8 & -> & I8 & V8).
    rewrite !full_width_scale by assumption.
    assert (find_widthOption (Number.decimal 10 10)
            = Some {| wo_value := Number.decimal 10 10; wo_label := "100%" |})
      as -> by (vm_compute; reflexivity).
    simpl in I2, I4, I8.
    assert (o2 = {| fo_value := inv_sqrt2; fo_label := "1/2";
                    fo_ratio := "1-2" |})
      as -> by (destruct I2 as [<- | [<- | [<- | []]]]; try reflexivity;
                vm_compute in V2; discriminate V2).
    assert (o4 = {| fo_value := one_half; fo_label := "1/4";
                    fo_ratio := "1-4" |})
      as -> by (destruct I4 as [<- | [<- | [<- | []]]]; try reflexivity;
                vm_compute in V4; discriminate V4).
    assert (o8 = {| fo_value := inv_sqrt8; fo_label := "1/8";
                    fo_ratio := "1-8" |})
      as -> by (destruct I8 as [<- | [<- | [<- | []]]]; try reflexivity;
                vm_compute in V8; discriminate V8).
    cbn [app]. unfold same_image, first_revision_variant.
    repeat constructor.
  - cbn [app]. apply f_equal.
    rewrite (effects_one_per_scale img info) by (intros z Hz; exact Hz).
    cbn [flat_map FirstRevision.scales FirstRevision.s_scale info_type info].
    now rewrite !full_width_scale by assumption.
Qed.

(** X16.  In the first revision, choosing an image file that the
    browser reads and decodes generates the variants 1/2, 1/4 and 1/8,
    and [handleDownloadAll] then saves the three of them, in this
    order, as the stem of the file name followed by [_1-2], [_1-4] and
    [_1-8] and the extension.  For an image file that is not read or
    not decoded the page is left busy without variants, and
    [handleDownloadAll] saves nothing. *)
Theorem X16_first_revision_downloads old f :
  String.prefix "image/" (file_type f) = true ->
  let st :=
    fst (FirstRevision.handleFileChange encoder readAsDataURL decodeImage
           old (Some f)) in
  let stem := strip_extension (file_name f) in
  let extension :=
    if String.eqb (file_type f) "image/png" then "png" else "jpg" in
  (forall url w h,
      readAsDataURL f = Some url -> decodeImage url = Some (w, h) ->
      map FirstRevision.ratio (FirstRevision.resizedImages st)
      = ["1/2"; "1/4"; "1/8"]
      /\ exists u2 u4 u8,
          map FirstRevision.dataUrl (FirstRevision.resizedImages st)
          = [u2; u4; u8]
          /\ FirstRevision.handleDownloadAll st
             = [ Download u2 (stem ++ "_1-2." ++ extension);
                 Download u4 (stem ++ "_1-4." ++ extension);
                 Download u8 (stem ++ "_1-8." ++ extension) ])
  /\ (readAsDataURL f = None
      \/ (exists url, readAsDataURL f = Some url /\ decodeImage url = None) ->
      FirstRevision.isProcessing st = true
      /\ FirstRevision.resizedImages st = []
      /\ FirstRevision.handleDownloadAll st = []).
Proof.
  intros Ht. cbv zeta. split.
  - intros url w h Hr Hd.
    rewrite (first_revision_handleFileChange old f url w h Ht Hr Hd).
    cbv zeta. cbn [fst FirstRevision.resizedImages].
    split; [reflexivity|].
    do 3 eexists. split; [reflexivity|].
    unfold FirstRevision.handleDownloadAll, first_revision_variant.
    cbn [FirstRevision.resizedImages FirstRevision.originalInfo
         FirstRevision.scales map flat_map app FirstRevision.handleDownload
         FirstRevision.dataUrl FirstRevision.ratio FirstRevision.s_ratio
         info_type info_name FirstRevision.replace_slash].
    reflexivity.
  - intros Hfail.
    destruct (first_revision_stays_busy old f Ht Hfail) as (Hp & Hv & _).
    repeat split; auto.
    unfold FirstRevision.handleDownloadAll. now rewrite Hv.
Qed.

End Page.

(** ** The example session, continued *)

Lemma example_state_reachable :
  reachable example_encoder example_reader example_decoder example_state.
Proof.
  apply reachable_run; [|constructor]. repeat constructor; simpl; tauto.
Qed.

Lemma example_converted_reachable :
  reachable example_encoder example_reader example_decoder
            example_converted_state.
Proof.
  apply reachable_run; [|constructor]. repeat constructor; simpl; tauto.
Qed.


Lemma example_variant_generated :
  In example_resized
     (resizedImages (fst (handleConvert example_encoder example_state))).
Proof. vm_compute. left. reflexivity. Qed.

Lemma example_selection_not_empty : selectedFileSizeScales example_state <> [].
Proof. vm_compute. discriminate. Qed.

Lemma example_all_reachable :
  reachable example_encoder example_reader example_decoder example_all_state.
Proof.
  apply reachable_run; [|constructor]. repeat constructor; simpl; tauto.
Qed.

Lemma example_all_image :
  loadedImage example_all_state = Some example_image.
Proof. vm_compute. reflexivity. Qed.

(** The three variants of the example file are 2 by 2, 2 by 2 and 1 by
    1 pixels. *)
Lemma example_all_variants :
  map (fun v => (id v, Number.to_Z (width v), Number.to_Z (height v)))
      (resizedImages example_all_state)
  = [ ("100%-1-2", Some 2, Some 2);
      ("100%-1-4", Some 2, Some 2);
      ("100%-1-8", Some 1, Some 1) ].
Proof. vm_compute. reflexivity. Qed.

Lemma example_stale_reachable :
  reachable example_encoder example_faulty_reader example_faulty_decoder
            example_stale_state.
Proof.
  apply reachable_run; [|constructor]. repeat constructor; simpl; tauto.
Qed.

(** After a file that could not be decoded, [originalImage] holds the
    data URL of that file while the loaded image is the one before. *)
Lemma example_stale_cells :
  originalImage example_stale_state = Some "data:image/png;base64,QUJD"
  /\ loadedImage example_stale_state = Some example_image
  /\ originalInfo example_stale_state = Some example_info.
Proof. vm_compute. repeat split. Qed.

Lemma example_blank_generated :
  In example_blank
     (resizedImages (fst (handleConvert example_encoder example_dot_state))).
Proof. vm_compute. left. reflexivity. Qed.

Lemma X1_formatFileSize_value_witness :
  0 <= 1536 < 2 ^ 53
  /\ formatFileSize (Number.of_Z 1536) = Some "1.5 KB".
Proof.
  assert (0 <= 1536 < 2 ^ 53) as H by (split; [lia | reflexivity]).
  split; [exact H | exact (X1_formatFileSize_value 1536 H)].
Defined.

Lemma X2_formatFileSize_unit_boundary_witness :
  1048525 <= 1048575 < 1048576
  /\ formatFileSize (Number.of_Z 1048575) = Some "1024.0 KB".
Proof.
  assert (1048525 <= 1048575 < 1048576) as H by lia.
  split; [exact H | exact (X2_formatFileSize_unit_boundary 1048575 H)].
Defined.

Lemma X4_file_cells_agree_witness :
  reachable example_encoder example_faulty_reader example_faulty_decoder
            example_stale_state
  /\ file_cells_agree example_stale_state.
Proof.
  split; [exact example_stale_reachable|].
  exact (X4_file_cells_agree example_encoder example_faulty_reader
           example_faulty_decoder example_stale_state
           example_stale_reachable).
Defined.

Lemma X5_never_left_busy_witness :
  reachable example_encoder example_reader example_decoder
            example_converted_state
  /\ isProcessing example_converted_state = false.
Proof.
  split; [exact example_converted_reachable|].
  exact (X5_never_left_busy example_encoder example_reader example_decoder
           example_converted_state example_converted_reachable).
Defined.

Lemma X6_preview_is_result_witness :
  reachable example_encoder example_reader example_decoder example_state
  /\ originalInfo example_state <> None
  /\ In inv_sqrt8 (selectedFileSizeScales example_state)
  /\ exists img info v,
      loadedImage example_state = Some img
      /\ originalInfo example_state = Some info
      /\ In v (resizedImages (fst (handleConvert example_encoder example_state)))
      /\ variant_for example_encoder img info
                     (selectedWidthScale example_state) inv_sqrt8 v
      /\ getScaledDimensions example_state (selectedWidthScale example_state)
                             inv_sqrt8
         = (width v, height v).
Proof.
  assert (originalInfo example_state <> None) as Hinfo
      by (vm_compute; discriminate).
  assert (In inv_sqrt8 (selectedFileSizeScales example_state)) as Hsel
      by (vm_compute; left; reflexivity).
  split; [exact example_state_reachable|].
  split; [exact Hinfo|]. split; [exact Hsel|].
  exact (X6_preview_is_result example_encoder example_reader example_decoder
           example_state inv_sqrt8 example_state_reachable Hinfo Hsel).
Defined.

Lemma X7_convert_again_witness :
  selection_ok (selectedFileSizeScales example_state)
  /\ handleConvert example_encoder
                   (fst (handleConvert example_encoder example_state))
     = handleConvert example_encoder example_state
  /\ selectedFileSizeScales (fst (handleConvert example_encoder example_state))
     = selectedFileSizeScales example_state
  /\ selectedWidthScale (fst (handleConvert example_encoder example_state))
     = selectedWidthScale example_state
  /\ originalInfo (fst (handleConvert example_encoder example_state))
     = originalInfo example_state
  /\ loadedImage (fst (handleConvert example_encoder example_state))
     = loadedImage example_state
  /\ originalImage (fst (handleConvert example_encoder example_state))
     = originalImage example_state.
Proof.
  assert (selection_ok (selectedFileSizeScales example_state)) as Hok
      by apply (reachable_invariant example_encoder example_reader
                  example_decoder example_state example_state_reachable).
  split; [exact Hok|].
  exact (X7_convert_again example_encoder example_state Hok).
Defined.

Lemma X8_downloadAll_distinct_names_witness :
  reachable example_encoder example_reader example_decoder example_all_state
  /\ List.length (resizedImages example_all_state) = 3%nat
  /\ (originalInfo example_all_state = None ->
      resizedImages example_all_state = [])
  /\ forall info,
      originalInfo example_all_state = Some info ->
      handleDownloadAll example_all_state
      = map (download_of info) (resizedImages example_all_state)
      /\ NoDup (map (fun v => download_fileName info (id v))
                    (resizedImages example_all_state)).
Proof.
  split; [exact example_all_reachable|].
  split; [vm_compute; reflexivity|].
  exact (X8_downloadAll_distinct_names example_encoder example_reader
           example_decoder example_all_state example_all_reachable).
Defined.

Lemma X9_toggle_flips_one_box_witness :
  reachable example_encoder example_reader example_decoder example_state
  /\ In example_option_8 FILE_SIZE_OPTIONS
  /\ is_checked (handleFileSizeToggle example_state (fo_value example_option_8))
                example_option_8
     = negb (is_checked example_state example_option_8)
  /\ forall o',
      In o' FILE_SIZE_OPTIONS -> o' <> example_option_8 ->
      is_checked (handleFileSizeToggle example_state (fo_value example_option_8))
                 o'
      = is_checked example_state o'.
Proof.
  assert (In example_option_8 FILE_SIZE_OPTIONS) as Ho by (simpl; tauto).
  split; [exact example_state_reachable|]. split; [exact Ho|].
  exact (X9_toggle_flips_one_box example_encoder example_reader example_decoder
           example_state example_option_8 example_state_reachable Ho).
Defined.

Lemma X10_blank_variant_witness :
  loadedImage example_dot_state = Some example_dot_image
  /\ originalInfo example_dot_state = Some example_dot_info
  /\ selectedFileSizeScales example_dot_state <> []
  /\ In example_blank
        (resizedImages (fst (handleConvert example_encoder example_dot_state)))
  /\ blank example_blank
  /\ dataUrl example_blank = "data:,"
  /\ fileSize example_blank = Number.of_Z 0
  /\ payload_of_dataUrl (dataUrl example_blank) = Some []
  /\ handleDownload (fst (handleConvert example_encoder example_dot_state))
                    (dataUrl example_blank) (id example_blank)
     = [Download "data:," (download_fileName example_dot_info (id example_blank))].
Proof.
  assert (selectedFileSizeScales example_dot_state <> []) as Hsel
      by (vm_compute; discriminate).
  assert (blank example_blank) as Hblank by (left; reflexivity).
  split; [reflexivity|]. split; [reflexivity|].
  split; [exact Hsel|]. split; [exact example_blank_generated|].
  split; [exact Hblank|].
  exact (X10_blank_variant example_encoder example_dot_state example_dot_image
           example_dot_info example_blank eq_refl eq_refl Hsel
           example_blank_generated Hblank).
Defined.


Lemma X12_variant_size_text_witness :
  loadedImage example_state = Some example_image
  /\ originalInfo example_state = Some example_info
  /\ selectedFileSizeScales example_state <> []
  /\ In example_resized
        (resizedImages (fst (handleConvert example_encoder example_state)))
  /\ exists payload,
      payload_of_dataUrl (dataUrl example_resized) = Some payload
      /\ (Z.of_nat (List.length payload) < 2 ^ 50 ->
          formatFileSize (fileSize example_resized)
          = Some (size_text (3 * ((Z.of_nat (List.length payload) + 2) / 3)))).
Proof.
  split; [reflexivity|]. split; [reflexivity|].
  split; [exact example_selection_not_empty|].
  split; [exact example_variant_generated|].
  exact (X12_variant_size_text example_encoder example_state example_image
           example_info example_resized eq_refl eq_refl
           example_selection_not_empty example_variant_generated).
Defined.


Lemma X14_variants_listed_largest_first_witness :
  reachable example_encoder example_reader example_decoder example_all_state
  /\ loadedImage example_all_state = Some example_image
  /\ 0 <= img_width example_image < 2 ^ 50
  /\ 0 <= img_height example_image < 2 ^ 50
  /\ List.length (resizedImages example_all_state) = 3%nat
  /\ StronglySorted (fun v1 v2 => no_larger v2 v1)
                    (resizedImages example_all_state).
Proof.
  assert (0 <= img_width example_image < 2 ^ 50) as HW
      by (split; [discriminate | reflexivity]).
  assert (0 <= img_height example_image < 2 ^ 50) as HH
      by (split; [discriminate | reflexivity]).
  split; [exact example_all_reachable|].
  split; [exact example_all_image|].
  split; [exact HW|]. split; [exact HH|].
  split; [vm_compute; reflexivity|].
  exact (X14_variants_listed_largest_first example_encoder example_reader
           example_decoder example_all_state example_image
           example_all_reachable example_all_image HW HH).
Defined.

Lemma X15_first_revision_agrees_witness :
  String.prefix "image/" (file_type example_file) = true
  /\ example_reader example_file = Some "data:image/png;base64,AAAA"
  /\ example_decoder "data:image/png;base64,AAAA" = Some (3, 3)
  /\ default_choice initialState
  /\ let old' :=
       FirstRevision.handleFileChange example_encoder example_reader
         example_decoder example_first_state (Some example_file) in
     let chosen :=
       handleFileChange example_reader example_decoder initialState
         (Some example_file) in
     let converted := handleConvert example_encoder (fst chosen) in
     Forall2 same_image (FirstRevision.resizedImages (fst old'))
             (resizedImages (fst converted))
     /\ snd old' = (snd chosen ++ snd converted)%list
     /\ FirstRevision.originalImage (fst old') = originalImage (fst converted)
     /\ FirstRevision.originalInfo (fst old') = originalInfo (fst converted)
     /\ FirstRevision.isProcessing (fst old') = false.
Proof.
  assert (default_choice initialState) as Hd by (split; reflexivity).
  split; [reflexivity|]. split; [reflexivity|]. split; [reflexivity|].
  split; [exact Hd|].
  exact (X15_first_revision_agrees example_encoder example_reader
           example_decoder example_first_state initialState
           example_file "data:image/png;base64,AAAA" 3 3
           eq_refl eq_refl eq_refl Hd).
Defined.

Lemma X16_first_revision_downloads_witness :
  String.prefix "image/" (file_type example_file) = true
  /\ String.prefix "image/" (file_type example_damaged_file) = true
  /\ (let st :=
        fst (FirstRevision.handleFileChange example_encoder
               example_faulty_reader example_faulty_decoder
               example_first_state (Some example_file)) in
      map FirstRevision.ratio (FirstRevision.resizedImages st)
      = ["1/2"; "1/4"; "1/8"]
      /\ exists u2 u4 u8,
          map FirstRevision.dataUrl (FirstRevision.resizedImages st)
          = [u2; u4; u8]
          /\ FirstRevision.handleDownloadAll st
             = [ Download u2 "dot_1-2.png";
                 Download u4 "dot_1-4.png";
                 Download u8 "dot_1-8.png" ])
  /\ (let st :=
        fst (FirstRevision.handleFileChange example_encoder
               example_faulty_reader example_faulty_decoder
               example_first_state (Some example_damaged_file)) in
      FirstRevision.isProcessing st = true
      /\ FirstRevision.resizedImages st = []
      /\ FirstRevision.handleDownloadAll st = []).
Proof.
  split; [reflexivity|]. split; [reflexivity|]. split.
  - exact (proj1 (X16_first_revision_downloads example_encoder
                    example_faulty_reader example_faulty_decoder
                    example_first_state example_file eq_refl)
                 "data:image/png;base64,AAAA" 3 3 eq_refl eq_refl).
  - exact (proj2 (X16_first_revision_downloads example_encoder
                    example_faulty_reader example_faulty_decoder
                    example_first_state example_damaged_file eq_refl)
                 (or_intror
                    (ex_intro _ "data:image/png;base64,QUJD"
                       (conj eq_refl eq_refl)))).
Defined.
